(** * Vault AI Chat: provider adapters, stream normalisers and registry

    A shallow embedding of the provider layer of the plugin
    (src/core/provider.ts and src/core/providers/*.ts) together with the
    properties its specification states about it, followed by the code
    around it that is pure: the registration of the providers from the
    settings (main.ts) and the text of a saved chat
    (src/storage/chat-persistence.ts).

    Conventions of the embedding

    - A JavaScript string is the list of its UTF-16 code units.
    - A JavaScript value that can come out of [JSON.parse], extended with
      [undefined], is a [JSValue]; optional chaining, [||] and truthiness
      are written out on it.
    - An async generator is the finite list of the deltas it yields when
      it is drained; the byte stream it reads is the list of the text
      chunks the [TextDecoder] hands over, read after read, up to the
      closure of the stream.
    - Code that can throw returns a [Result]; [try]/[catch] is
      [try_catch].  What is thrown is an [Error] object.
    - The network is what the awaited [requestUrl] or [fetch] settles to:
      a response, or a thrown error. *)

From Stdlib Require Import ZArith NArith List Bool String Ascii.
From stdpp Require Import gmap.
Import ListNotations.

Local Open Scope N_scope.

(** ** JavaScript strings *)

Abbreviation JSString := (list N).

(** The code units of an ASCII literal. *)
Definition str (s : string) : JSString :=
  List.map N_of_ascii (list_ascii_of_string s).

Arguments str : simpl never.

(** The same, with every apostrophe standing for a double quote, so that
    JSON texts can be written down as literals. *)
Definition json_lit (s : string) : JSString :=
  List.map (fun c => if c =? 39 then 34 else c) (str s).

Arguments json_lit : simpl never.

Fixpoint str_eqb (a b : JSString) : bool :=
  match a, b with
  | [], [] => true
  | x :: a', y :: b' => (x =? y) && str_eqb a' b'
  | _, _ => false
  end.

(** [s.startsWith(p)] *)
Fixpoint startsWith (s p : JSString) {struct p} : bool :=
  match p, s with
  | [], _ => true
  | y :: p', x :: s' => (x =? y) && startsWith s' p'
  | _ :: _, [] => false
  end.

(** [s.endsWith(p)] *)
Definition endsWith (s p : JSString) : bool :=
  startsWith (rev s) (rev p).

(** [s.includes(p)] *)
Fixpoint includes (s p : JSString) : bool :=
  startsWith s p ||
  match s with
  | [] => false
  | _ :: s' => includes s' p
  end.

(** [s.slice(n)] for a non-negative literal [n]. *)
Definition slice (n : nat) (s : JSString) : JSString := skipn n s.

(** [s.split('\n')]: never empty; the last element is the text after the
    last line feed. *)
Fixpoint split_lines (s : JSString) : list JSString :=
  match s with
  | [] => [[]]
  | c :: s' =>
      if c =? 10 then [] :: split_lines s'
      else match split_lines s' with
           | l :: ls => (c :: l) :: ls
           | [] => [[c]]
           end
  end.

(** WhiteSpace and LineTerminator code units, the ones [trim] removes. *)
Definition is_js_space (c : N) : bool :=
  (c =? 9) || (c =? 10) || (c =? 11) || (c =? 12) || (c =? 13) || (c =? 32)
  || (c =? 160) || (c =? 5760) || ((8192 <=? c) && (c <=? 8202))
  || (c =? 8232) || (c =? 8233) || (c =? 8239) || (c =? 8287)
  || (c =? 12288) || (c =? 65279).

Fixpoint trimStart (s : JSString) : JSString :=
  match s with
  | c :: s' => if is_js_space c then trimStart s' else s
  | [] => []
  end.

(** [s.trim()] *)
Definition trim (s : JSString) : JSString :=
  rev (trimStart (rev (trimStart s))).

(** Decimal digits of a natural number, as [String(n)] prints an
    integer. *)
Fixpoint digits_fuel (fuel : nat) (n : N) (acc : JSString) : JSString :=
  match fuel with
  | O => acc
  | S fuel' =>
      let acc' := (48 + n mod 10) :: acc in
      if n <? 10 then acc' else digits_fuel fuel' (n / 10) acc'
  end.

Definition N_toString (n : N) : JSString :=
  digits_fuel (S (N.to_nat (N.log2 n))) n [].

Definition Z_toString (z : Z) : JSString :=
  match z with
  | Zneg p => 45 :: N_toString (Npos p)
  | _ => N_toString (Z.to_N z)
  end.

Arguments Z_toString : simpl never.

(** ** JavaScript values *)

(** [JNum m e] is the number whose decimal value is [m * 10^e]. *)
#[warnings="-register-all"]
Inductive JSValue : Type :=
  | JUndefined
  | JNull
  | JBool (b : bool)
  | JNum (m e : Z)
  | JStr (s : JSString)
  | JArr (items : list JSValue)
  | JObj (fields : list (JSString * JSValue)).

(** A decimal [m * 10^e] reads as the double zero when it is zero or lies
    at or below half of the least subnormal, [2^-1075]. *)
Definition num_is_zero (m e : Z) : bool :=
  ((m =? 0) || ((e <? 0) && (Z.abs m * 2 ^ 1075 <=? 10 ^ (- e))))%Z.

(** ToBoolean *)
Definition truthy (v : JSValue) : bool :=
  match v with
  | JUndefined | JNull => false
  | JBool b => b
  | JNum m e => negb (num_is_zero m e)
  | JStr s => negb (str_eqb s [])
  | JArr _ | JObj _ => true
  end.

(** [v || ''] *)
Definition or_empty (v : JSValue) : JSValue :=
  if truthy v then v else JStr [].

(** [a || b] *)
Definition js_or (a b : JSValue) : JSValue :=
  if truthy a then a else b.

(** Own property of an object literal; of two equal keys [JSON.parse]
    keeps the later one. *)
Fixpoint own_property (fields : list (JSString * JSValue)) (k : JSString)
  : JSValue :=
  match fields with
  | [] => JUndefined
  | (k', v) :: rest =>
      match own_property rest k with
      | JUndefined => if str_eqb k' k then v else JUndefined
      | later => later
      end
  end.

(** [v.k] for a [v] that is neither [null] nor [undefined], and for the
    property names the adapters use (none of them is defined on the
    prototypes of strings, numbers, booleans, arrays or objects). *)
Definition prop (v : JSValue) (k : JSString) : JSValue :=
  match v with
  | JObj fields => own_property fields k
  | _ => JUndefined
  end.

(** [v[0]] for such a [v]. *)
Definition index0 (v : JSValue) : JSValue :=
  match v with
  | JArr (x :: _) => x
  | JStr (c :: _) => JStr [c]
  | JObj fields => own_property fields (str "0")
  | _ => JUndefined
  end.

Definition nullish (v : JSValue) : bool :=
  match v with
  | JUndefined | JNull => true
  | _ => false
  end.

(** [v?.k] and [v?.[0]] *)
Definition opt_prop (v : JSValue) (k : JSString) : JSValue :=
  if nullish v then JUndefined else prop v k.

Definition opt_index0 (v : JSValue) : JSValue :=
  if nullish v then JUndefined else index0 v.

(** ** JSON.parse

    The grammar of ECMA-404.  The text is read with a fuel that bounds the
    number of nested calls; [ecma404_parse] below supplies twice the
    length of the text, two calls for each character a call can consume,
    and a value that has been read stays the same with more fuel
    ([parse_value_more_fuel]).  [None] is the thrown [SyntaxError]. *)

Definition is_json_space (c : N) : bool :=
  (c =? 32) || (c =? 9) || (c =? 10) || (c =? 13).

Fixpoint skip_ws (s : JSString) : JSString :=
  match s with
  | c :: s' => if is_json_space c then skip_ws s' else s
  | [] => []
  end.

Definition is_digit (c : N) : bool := (48 <=? c) && (c <=? 57).

Fixpoint span_digits (s : JSString) : JSString * JSString :=
  match s with
  | c :: s' =>
      if is_digit c then let (d, r) := span_digits s' in (c :: d, r)
      else ([], s)
  | [] => ([], [])
  end.

Definition digits_value (ds : JSString) : Z :=
  fold_left (fun acc c => (acc * 10 + Z.of_N (c - 48))%Z) ds 0%Z.

Definition hex_digit (c : N) : option N :=
  if is_digit c then Some (c - 48)
  else if (97 <=? c) && (c <=? 102) then Some (c - 87)
  else if (65 <=? c) && (c <=? 70) then Some (c - 55)
  else None.

Definition hex4 (a b c d : N) : option N :=
  match hex_digit a, hex_digit b, hex_digit c, hex_digit d with
  | Some a, Some b, Some c, Some d => Some (((a * 16 + b) * 16 + c) * 16 + d)
  | _, _, _, _ => None
  end.

(** The character a one-letter escape stands for. *)
Definition escape_char (c : N) : option N :=
  if c =? 34 then Some 34          (* quote *)
  else if c =? 92 then Some 92     (* backslash *)
  else if c =? 47 then Some 47     (* slash *)
  else if c =? 98 then Some 8      (* b *)
  else if c =? 102 then Some 12    (* f *)
  else if c =? 110 then Some 10    (* n *)
  else if c =? 114 then Some 13    (* r *)
  else if c =? 116 then Some 9     (* t *)
  else None.

Definition cons_char (c : N) (r : option (JSString * JSString))
  : option (JSString * JSString) :=
  match r with
  | Some (s, rest) => Some (c :: s, rest)
  | None => None
  end.

(** The characters of a string literal after its opening quote, and the
    text after its closing quote. *)
Fixpoint parse_string_body (s : JSString) : option (JSString * JSString) :=
  match s with
  | [] => None
  | c :: r =>
      if c =? 34 then Some ([], r)
      else if c =? 92 then
        match r with
        | e :: r1 =>
            if e =? 117 then
              match r1 with
              | h1 :: h2 :: h3 :: h4 :: r2 =>
                  match hex4 h1 h2 h3 h4 with
                  | Some u => cons_char u (parse_string_body r2)
                  | None => None
                  end
              | _ => None
              end
            else
              match escape_char e with
              | Some x => cons_char x (parse_string_body r1)
              | None => None
              end
        | [] => None
        end
      else if c <? 32 then None
      else cons_char c (parse_string_body r)
  end.

Definition parse_number (s : JSString) : option (JSValue * JSString) :=
  let (neg, s1) :=
    match s with
    | c :: r => if c =? 45 then (true, r) else (false, s)
    | [] => (false, s)
    end in
  let (ip, s2) := span_digits s1 in
  match ip with
  | [] => None
  | d :: more =>
      if (d =? 48) && negb (str_eqb more []) then None
      else
        let '(fp, s3) :=
          match s2 with
          | c :: r =>
              if c =? 46 then let (f, r') := span_digits r in (Some f, r')
              else (None, s2)
          | [] => (None, s2)
          end in
        match fp with
        | Some [] => None
        | _ =>
            let frac := match fp with Some f => f | None => [] end in
            let mant := digits_value (ip ++ frac) in
            let m := if neg then (- mant)%Z else mant in
            let shift := Z.of_nat (List.length frac) in
            match s3 with
            | c :: r =>
                if (c =? 101) || (c =? 69) then
                  let '(eneg, r1) :=
                    match r with
                    | sg :: r' =>
                        if sg =? 45 then (true, r')
                        else if sg =? 43 then (false, r')
                        else (false, r)
                    | [] => (false, r)
                    end in
                  let (ed, r2) := span_digits r1 in
                  match ed with
                  | [] => None
                  | _ =>
                      let ev := digits_value ed in
                      Some (JNum m ((if eneg then - ev else ev) - shift)%Z, r2)
                  end
                else Some (JNum m (- shift)%Z, s3)
            | [] => Some (JNum m (- shift)%Z, s3)
            end
        end
  end.

(** One level of each of the three mutually recursive readers, over the
    readers of the levels below. *)
Definition value_step
    (elements : JSString -> option (list JSValue * JSString))
    (members : JSString -> option (list (JSString * JSValue) * JSString))
    (s : JSString) : option (JSValue * JSString) :=
  match skip_ws s with
  | [] => None
  | c :: r =>
      if c =? 123 then                                  (* object *)
        match skip_ws r with
        | c' :: r' =>
            if c' =? 125 then Some (JObj [], r')
            else match members r with
                 | Some (fs, rest) => Some (JObj fs, rest)
                 | None => None
                 end
        | [] => None
        end
      else if c =? 91 then                              (* array *)
        match skip_ws r with
        | c' :: r' =>
            if c' =? 93 then Some (JArr [], r')
            else match elements r with
                 | Some (vs, rest) => Some (JArr vs, rest)
                 | None => None
                 end
        | [] => None
        end
      else if c =? 34 then                              (* string *)
        match parse_string_body r with
        | Some (x, rest) => Some (JStr x, rest)
        | None => None
        end
      else if startsWith (c :: r) (str "true") then
        Some (JBool true, skipn 4 (c :: r))
      else if startsWith (c :: r) (str "false") then
        Some (JBool false, skipn 5 (c :: r))
      else if startsWith (c :: r) (str "null") then
        Some (JNull, skipn 4 (c :: r))
      else parse_number (c :: r)
  end.

Definition elements_step
    (value : JSString -> option (JSValue * JSString))
    (elements : JSString -> option (list JSValue * JSString))
    (s : JSString) : option (list JSValue * JSString) :=
  match value s with
  | Some (v, r) =>
      match skip_ws r with
      | c :: r' =>
          if c =? 44 then
            match elements r' with
            | Some (vs, rest) => Some (v :: vs, rest)
            | None => None
            end
          else if c =? 93 then Some ([v], r')
          else None
      | [] => None
      end
  | None => None
  end.

Definition members_step
    (value : JSString -> option (JSValue * JSString))
    (members : JSString -> option (list (JSString * JSValue) * JSString))
    (s : JSString) : option (list (JSString * JSValue) * JSString) :=
  match skip_ws s with
  | q :: r0 =>
      if q =? 34 then
        match parse_string_body r0 with
        | Some (k, r1) =>
            match skip_ws r1 with
            | colon :: r2 =>
                if colon =? 58 then
                  match value r2 with
                  | Some (v, r3) =>
                      match skip_ws r3 with
                      | c :: r4 =>
                          if c =? 44 then
                            match members r4 with
                            | Some (fs, rest) => Some ((k, v) :: fs, rest)
                            | None => None
                            end
                          else if c =? 125 then Some ([(k, v)], r4)
                          else None
                      | [] => None
                      end
                  | None => None
                  end
                else None
            | [] => None
            end
        | None => None
        end
      else None
  | [] => None
  end.

Fixpoint parse_value (fuel : nat) (s : JSString) {struct fuel}
  : option (JSValue * JSString) :=
  match fuel with
  | O => None
  | S f => value_step (parse_elements f) (parse_members f) s
  end

with parse_elements (fuel : nat) (s : JSString) {struct fuel}
  : option (list JSValue * JSString) :=
  match fuel with
  | O => None
  | S f => elements_step (parse_value f) (parse_elements f) s
  end

with parse_members (fuel : nat) (s : JSString) {struct fuel}
  : option (list (JSString * JSValue) * JSString) :=
  match fuel with
  | O => None
  | S f => members_step (parse_value f) (parse_members f) s
  end.

(** [JSON.parse(text)] as ECMA-404 defines it. *)
Definition ecma404_parse (text : JSString) : option JSValue :=
  match parse_value (2 * List.length text + 2) text with
  | Some (v, rest) =>
      match skip_ws rest with
      | [] => Some v
      | _ :: _ => None
      end
  | None => None
  end.

(** [h] reads whatever [g] reads. *)
Definition extends {A : Type} (g h : JSString -> option A) : Prop :=
  forall s r, g s = Some r -> h s = Some r.

(** ** Exceptions *)

Inductive ErrorName : Type := Error | TypeError | SyntaxError.

(** A thrown [Error] object; [err_status] is the [status] property the
    host's [requestUrl] puts on the error of a rejected request.  The
    wording of the messages of the engine's own errors is the engine's:
    the ones below stand for it, and nothing depends on them. *)
Record JSError : Type := mkError {
  err_name : ErrorName;
  err_message : JSString;
  err_status : option Z
}.

Inductive Result (A : Type) : Type :=
  | Ok (a : A)
  | Throw (e : JSError).

Arguments Ok {A} a.
Arguments Throw {A} e.

Definition bind {A B : Type} (r : Result A) (k : A -> Result B) : Result B :=
  match r with
  | Ok a => k a
  | Throw e => Throw e
  end.

Notation "'let!' x ':=' r 'in' k" := (bind r (fun x => k))
  (at level 10, x name, r at level 100, k at level 200).

(** [try { body } catch (e) { handler }] *)
Definition try_catch {A : Type} (body : Result A) (handler : JSError -> Result A)
  : Result A :=
  match body with
  | Ok a => Ok a
  | Throw e => handler e
  end.

(** [new Error(message)] *)
Definition new_Error (message : JSString) : JSError :=
  mkError Error message None.

Definition name_string (n : ErrorName) : JSString :=
  match n with
  | Error => str "Error"
  | TypeError => str "TypeError"
  | SyntaxError => str "SyntaxError"
  end.

(** [String(e)] for an error object: [Error.prototype.toString]. *)
Definition Error_toString (e : JSError) : JSString :=
  match err_message e with
  | [] => name_string (err_name e)
  | msg => name_string (err_name e) ++ str ": " ++ msg
  end.

(** [String(e.message || e)], which is also [e.message || String(e)]. *)
Definition message_or_error (e : JSError) : JSString :=
  match err_message e with
  | [] => Error_toString e
  | msg => msg
  end.

(** [v.k]: a [TypeError] on [null] and [undefined]. *)
Definition dot (v : JSValue) (k : JSString) : Result JSValue :=
  if nullish v then
    Throw (mkError TypeError (str "Cannot read properties of " ++ k) None)
  else Ok (prop v k).

(** ** Token deltas and the shape shared by the stream parsers *)

Record TokenDelta : Type := mkDelta {
  content : JSValue;
  done : bool
}.

(** [{ content: '', done: true }] *)
Definition terminal : TokenDelta := mkDelta (JStr []) true.

(** What the body of the [for (const line of lines)] loop does with one
    line.

    - [Yield c st]: [yield { content: c, done: false }], then the next
      line;
    - [Next st]: the next line, nothing yielded;
    - [Finish]: [yield { content: '', done: true }; return]. *)
Inductive Step (S : Type) : Type :=
  | Yield (c : JSValue) (st : S)
  | Next (st : S)
  | Finish.

Arguments Yield {S} c st.
Arguments Next {S} st.
Arguments Finish {S}.

Section Generator.
Context {S : Type}.
Variable on_line : S -> JSString -> Step S.

(** The [for] loop over the complete lines of one read: the deltas it
    yields and the state it ends in, [None] when the generator has
    returned. *)
Fixpoint for_lines (st : S) (lines : list JSString)
  : list TokenDelta * option S :=
  match lines with
  | [] => ([], Some st)
  | line :: rest =>
      match on_line st line with
      | Yield c st' =>
          let (ds, r) := for_lines st' rest in (mkDelta c false :: ds, r)
      | Next st' => for_lines st' rest
      | Finish => ([terminal], None)
      end
  end.

(** The [while (true)] loop: one iteration per chunk, [break] when the
    reader reports the closure of the stream.  The boolean tells whether
    the generator returned from inside the loop. *)
Fixpoint read_loop (chunks : list JSString) (buffer : JSString) (st : S)
  : list TokenDelta * bool :=
  match chunks with
  | [] => ([], false)
  | value :: chunks' =>
      let buffer1 := buffer ++ value in
      let lines := split_lines buffer1 in
      let buffer2 := List.last lines [] in
      match for_lines st (removelast lines) with
      | (ds, None) => (ds, true)
      | (ds, Some st') =>
          let (ds', returned) := read_loop chunks' buffer2 st' in
          (ds ++ ds', returned)
      end
  end.

(** The whole generator: the loop, then, unless it returned, the
    [yield { content: '', done: true }] that follows the [finally]. *)
Definition generator (st0 : S) (chunks : list JSString) : list TokenDelta :=
  let (ds, returned) := read_loop chunks [] st0 in
  if returned then ds else ds ++ [terminal].
End Generator.

(** ** The regular expressions of the thinking-block filter *)

(** [content.replace(/<think>[\s\S]*$/, '')]: the leftmost match starts at
    the first opening delimiter and runs to the end of the text. *)
Fixpoint cut_from_open (s : JSString) : JSString :=
  if startsWith s (str "<think>") then []
  else match s with
       | [] => []
       | c :: s' => c :: cut_from_open s'
       end.

(** The text after the last closing delimiter, if there is one. *)
Fixpoint after_last_close (s : JSString) : option JSString :=
  match s with
  | [] => None
  | _ :: s' =>
      match after_last_close s' with
      | Some t => Some t
      | None =>
          if startsWith s (str "</think>") then Some (skipn 8 s) else None
      end
  end.

(** [content.replace(/^[\s\S]*<\/think>/, '')]: the greedy match runs from
    the start of the text through the last closing delimiter. *)
Definition cut_through_close (s : JSString) : JSString :=
  match after_last_close s with
  | Some t => t
  | None => s
  end.

(** [items.includes(s)] on an array: some element is the string [s]. *)
Definition array_includes (items : list JSValue) (s : JSString) : bool :=
  existsb (fun v => match v with JStr x => str_eqb x s | _ => false end) items.

(** The text after the first closing delimiter, if there is one. *)
Fixpoint after_first_close (s : JSString) : option JSString :=
  if startsWith s (str "</think>") then Some (skipn 8 s)
  else match s with
       | [] => None
       | _ :: s' => after_first_close s'
       end.

(** [content.replace(/<think>[\s\S]*?<\/think>/g, '')]: from left to right,
    each opening delimiter that a closing delimiter follows is removed
    with the text up to the first such closing delimiter, and the search
    goes on after it.  The fuel bounds the number of steps; the length of
    the text is enough ([strip_blocks_fuel]). *)
Fixpoint strip_blocks (fuel : nat) (s : JSString) : JSString :=
  match fuel with
  | O => s
  | S f =>
      match s with
      | [] => []
      | c :: s' =>
          if startsWith s (str "<think>") then
            match after_first_close (skipn 7 s) with
            | Some rest => strip_blocks f rest
            | None => s
            end
          else c :: strip_blocks f s'
      end
  end.

(** [MinimaxProvider.stripThinkingBlocks] on a string. *)
Definition stripThinkingBlocks (content : JSString) : JSString :=
  trim (strip_blocks (List.length content) content).

(** ** The transport

    [requestUrl] belongs to the host application and [fetch] to the
    engine; the adapters see them through the value the awaited promise
    settles to, which is what the functions below take as [answer]. *)

(** What [requestUrl] resolves to. *)
Record RequestUrlResponse : Type := mkResponse {
  resp_status : Z;
  resp_text : JSString
}.

(** What [fetch] resolves to.  [body] is [None] for a response without a
    body channel; otherwise it lists the chunks the reader will deliver. *)
Record FetchResponse : Type := mkFetch {
  status : Z;
  statusText : JSString;
  body : option (list JSString)
}.

(** [response.ok] *)
Definition response_ok (r : FetchResponse) : bool :=
  ((200 <=? status r) && (status r <=? 299))%Z.

(** [await response.text()] *)
Definition response_text (r : FetchResponse) : JSString :=
  match body r with
  | Some chunks => List.concat chunks
  | None => []
  end.

(** The host's [requestUrl]: the promise rejects when the transport fails
    and, unless [throw: false] was asked for, when the status is 400 or
    above; the error then carries the status. *)
Definition requestUrl (throw : bool) (answer : Result RequestUrlResponse)
  : Result RequestUrlResponse :=
  let! r := answer in
  if throw && (400 <=? resp_status r)%Z then
    Throw (mkError Error
             (str "Request failed, status " ++ Z_toString (resp_status r))
             (Some (resp_status r)))
  else Ok r.

(** A request as the generic adapter hands it to the transport. *)
Record Request : Type := mkRequest {
  url : JSString;
  method : JSString;
  headers : list (JSString * JSString);
  req_body : JSString
}.

(** ** Requests and results of the uniform contract *)

Inductive Role : Type := system | user | assistant.

Record ChatMessage : Type := mkMessage {
  role : Role;
  msg_content : JSString
}.

(** [maxTokens] and [temperature] are numbers or [undefined]. *)
Record ChatRequest : Type := mkChatRequest {
  model : JSString;
  messages : list ChatMessage;
  maxTokens : JSValue;
  temperature : JSValue
}.

(** [text] and the usage counters are whatever the envelope holds at the
    paths the adapter reads. *)
Record ChatResponse : Type := mkChatResponse {
  text : JSValue;
  usage : option (JSValue * JSValue)
}.

(** The lazy sequence, as the list of deltas a consumer pulls from it. *)
Record StreamingChatResponse : Type := mkStreaming {
  stream : list TokenDelta
}.

(** [{ valid, error }]; an absent [error] is [JUndefined]. *)
Record ValidateResult : Type := mkValidate {
  valid : bool;
  error : JSValue
}.

(** ** The adapters' configuration *)

Record OpenRouterProvider : Type := mkOpenRouter {
  or_apiKey : JSString;
  or_siteUrl : option JSString
}.

Record GoogleAIProvider : Type := mkGoogleAI {
  g_apiKey : JSString
}.

Record OllamaProvider : Type := mkOllama {
  ol_baseUrl : JSString
}.

Record MinimaxProvider : Type := mkMinimax {
  mm_apiKey : JSString;
  mm_baseUrl : JSString;
  mm_showThinking : bool
}.

Record OpenAICompatibleProvider : Type := mkOpenAICompatible {
  baseUrl : JSString;
  apiKey : JSString;
  modelId : JSString
}.

Inductive RegionType : Type := international | china.

(** [new MinimaxProvider(apiKey, region, showThinking)] *)
Definition new_MinimaxProvider (apiKey : JSString) (region : RegionType)
    (showThinking : bool) : MinimaxProvider :=
  mkMinimax apiKey
    (match region with
     | china => str "https://api.minimaxi.com/v1"
     | international => str "https://api.minimax.io/v1"
     end)
    showThinking.

(** [baseUrl.replace(/\/+$/, '')]: the leftmost position from which only
    slashes follow up to the end of the text starts the match. *)
Fixpoint replace_trailing_slashes (s : JSString) : JSString :=
  match s with
  | [] => []
  | c :: s' =>
      if (c =? 47) && forallb (N.eqb 47) s' then []
      else c :: replace_trailing_slashes s'
  end.

(** [new OpenAICompatibleProvider(baseUrl, apiKey, modelId)] *)
Definition new_OpenAICompatibleProvider (baseUrl0 apiKey0 modelId0 : JSString)
  : OpenAICompatibleProvider :=
  let b := replace_trailing_slashes baseUrl0 in
  let b :=
    if negb (includes b (str "/chat/completions")) then
      if endsWith b (str "/v1") then b ++ str "/chat/completions"
      else if negb (endsWith b (str "/completions")) then
        b ++ str "/v1/chat/completions"
      else b
    else b in
  mkOpenAICompatible b apiKey0 modelId0.

(** The five classes behind the [LLMProvider] interface. *)
Inductive LLMProvider : Type :=
  | OpenRouter (p : OpenRouterProvider)
  | GoogleAI (p : GoogleAIProvider)
  | Ollama (p : OllamaProvider)
  | Minimax (p : MinimaxProvider)
  | OpenAICompatible (p : OpenAICompatibleProvider).

(** [provider.id] *)
Definition provider_id (p : LLMProvider) : JSString :=
  match p with
  | OpenRouter _ => str "openrouter"
  | GoogleAI _ => str "google-ai"
  | Ollama _ => str "ollama"
  | Minimax _ => str "minimax"
  | OpenAICompatible _ => str "openai-compatible"
  end.

(** ** The provider registry *)

Record ProviderRegistry : Type := mkRegistry {
  providers : gmap JSString LLMProvider
}.

(** [new ProviderRegistry()] *)
Definition new_ProviderRegistry : ProviderRegistry := mkRegistry ∅.

(** [this.providers.set(provider.id, provider)] *)
Definition register (r : ProviderRegistry) (provider : LLMProvider)
  : ProviderRegistry :=
  mkRegistry (<[provider_id provider := provider]> (providers r)).

(** [this.providers.get(id)]; [None] is [undefined]. *)
Definition get (r : ProviderRegistry) (id : JSString) : option LLMProvider :=
  providers r !! id.

(** [this.providers.clear()] *)
Definition clear (r : ProviderRegistry) : ProviderRegistry :=
  mkRegistry ∅.

(** ** The plugin's settings and the providers it registers *)

(** The settings that decide which providers exist. *)
Record VaultAISettings : Type := mkSettings {
  provider : JSString;
  openrouterApiKey : JSString;
  googleApiKey : JSString;
  ollamaUrl : JSString;
  minimaxApiKey : JSString;
  minimaxRegion : RegionType;
  minimaxShowThinking : bool;
  customApiUrl : JSString;
  customApiKey : JSString;
  customModel : JSString
}.

Definition DEFAULT_SETTINGS : VaultAISettings :=
  mkSettings (str "openrouter") [] [] (str "http://localhost:11434")
    [] international false [] [] [].

(** [VaultAIPlugin.initializeProviders] *)
Definition initializeProviders (settings : VaultAISettings)
    (r : ProviderRegistry) : ProviderRegistry :=
  let r := clear r in
  let r :=
    if truthy (JStr (openrouterApiKey settings)) then
      register r (OpenRouter (mkOpenRouter (openrouterApiKey settings) None))
    else r in
  let r :=
    if truthy (JStr (googleApiKey settings)) then
      register r (GoogleAI (mkGoogleAI (googleApiKey settings)))
    else r in
  let r := register r (Ollama (mkOllama (ollamaUrl settings))) in
  let r :=
    if truthy (JStr (minimaxApiKey settings)) then
      register r
        (Minimax (new_MinimaxProvider (minimaxApiKey settings)
                    (minimaxRegion settings) (minimaxShowThinking settings)))
    else r in
  if truthy (JStr (customApiUrl settings))
     && truthy (JStr (customModel settings)) then
    register r
      (OpenAICompatible
         (new_OpenAICompatibleProvider (customApiUrl settings)
            (customApiKey settings) (customModel settings)))
  else r.

(** [VaultAIPlugin.getActiveProvider] *)
Definition getActiveProvider (settings : VaultAISettings)
    (r : ProviderRegistry) : option LLMProvider :=
  get r (provider settings).

(** ** Messages in the shape of the Gemini API *)

(** [{ role, parts: [{ text }] }] *)
Record GeminiContent : Type := mkContent {
  gc_role : JSString;
  gc_text : JSString
}.

(** The body of the loop over the messages: the text of a system message
    is added to [systemContent], followed by an empty line; another
    message is pushed with its role renamed. *)
Definition convert_step (acc : list GeminiContent * JSString)
    (msg : ChatMessage) : list GeminiContent * JSString :=
  let '(contents, systemContent) := acc in
  match role msg with
  | system => (contents, systemContent ++ (msg_content msg ++ [10; 10]))
  | assistant =>
      (contents ++ [mkContent (str "model") (msg_content msg)], systemContent)
  | user =>
      (contents ++ [mkContent (str "user") (msg_content msg)], systemContent)
  end.

(** The loop that stops at the first content of role [user], after it has
    put [systemContent] before its text. *)
Fixpoint prepend_to_first_user (systemContent : JSString)
    (contents : list GeminiContent) : list GeminiContent :=
  match contents with
  | [] => []
  | c :: rest =>
      if str_eqb (gc_role c) (str "user") then
        mkContent (gc_role c) (systemContent ++ gc_text c) :: rest
      else c :: prepend_to_first_user systemContent rest
  end.

(** [GoogleAIProvider.convertMessages] *)
Definition convertMessages (messages : list ChatMessage)
  : list GeminiContent :=
  let '(contents, systemContent) :=
    fold_left convert_step messages ([], []) in
  let contents :=
    if truthy (JStr systemContent) && (0 <? List.length contents)%nat then
      prepend_to_first_user systemContent contents
    else contents in
  if (List.length contents =? 0)%nat then
    [mkContent (str "user")
       (if truthy (JStr systemContent) then systemContent else str "Hello")]
  else contents.

(** ** Models *)

(** [ModelInfo]; an absent [contextLength] is [JUndefined].  The fields
    that are read from an answer hold whatever value the answer has. *)
Record ModelInfo : Type := mkModel {
  mi_id : JSValue;
  mi_name : JSValue;
  mi_contextLength : JSValue;
  supportsStreaming : bool
}.

(** [items.map(f)] for a callback that may throw. *)
Fixpoint mapM {A B : Type} (f : A -> Result B) (l : list A)
  : Result (list B) :=
  match l with
  | [] => Ok []
  | x :: l' =>
      let! y := f x in
      let! ys := mapM f l' in
      Ok (y :: ys)
  end.

(** [items.filter(f)] for a callback that may throw. *)
Fixpoint filterM {A : Type} (f : A -> Result bool) (l : list A)
  : Result (list A) :=
  match l with
  | [] => Ok []
  | x :: l' =>
      let! keep := f x in
      let! rest := filterM f l' in
      Ok (if keep then x :: rest else rest)
  end.

(** The elements of [v] for [v.map] and [v.filter]: only an array of an
    answer has these methods. *)
Definition array_items (v : JSValue) : Result (list JSValue) :=
  match v with
  | JArr items => Ok items
  | _ => Throw (mkError TypeError (str "is not a function") None)
  end.

(** [s.replace(p, '')] for a pattern that is a text: the first occurrence
    is removed. *)
Fixpoint remove_first (p s : JSString) {struct s} : JSString :=
  if startsWith s p then skipn (List.length p) s
  else match s with
       | [] => []
       | c :: s' => c :: remove_first p s'
       end.

(** ** Saved chats *)

(** [parts.join(sep)] *)
Fixpoint join (sep : JSString) (parts : list JSString) : JSString :=
  match parts with
  | [] => []
  | [x] => x
  | x :: rest => x ++ sep ++ join sep rest
  end.

(** The text after the first occurrence of [p] in [s], if there is one. *)
Fixpoint after_first (p s : JSString) {struct s} : option JSString :=
  if startsWith s p then Some (skipn (List.length p) s)
  else match s with
       | [] => None
       | _ :: s' => after_first p s'
       end.

(** [s.split(p)] for a pattern that is a text, not empty: the texts between
    the occurrences of [p], found from left to right without overlap.
    [skip] counts the code units of an occurrence that are still to be
    passed over. *)
Fixpoint split_from (p : JSString) (skip : nat) (s : JSString)
  : list JSString :=
  match s with
  | [] => [[]]
  | c :: s' =>
      match skip with
      | S k => split_from p k s'
      | O =>
          if startsWith s p then [] :: split_from p (List.length p - 1) s'
          else match split_from p 0 s' with
               | l :: ls => (c :: l) :: ls
               | [] => [[c]]
               end
      end
  end.

Definition split_on (p s : JSString) : list JSString := split_from p 0 s.

(** [ChatData] *)
Record ChatData : Type := mkChatData {
  cd_messages : list ChatMessage;
  cd_sources : list JSString;
  cd_provider : JSString;
  cd_model : JSString
}.

(** [ChatPersistence.generateTitle] *)
Definition generateTitle (messages : list ChatMessage) : JSString :=
  match List.find (fun m => match role m with user => true | _ => false end)
          messages with
  | None => str "Chat"
  | Some firstUserMsg =>
      let t := trim (firstn 40 (msg_content firstUserMsg)) in
      if truthy (JStr t) then t else str "Chat"
  end.

(** The characters of the class in [sanitizeFilename]: backslash, slash,
    colon, asterisk, question mark, double quote, angle brackets, bar,
    hash, caret and square brackets. *)
Definition forbidden_in_filename (c : N) : bool :=
  (c =? 92) || (c =? 47) || (c =? 58) || (c =? 42) || (c =? 63) || (c =? 34)
  || (c =? 60) || (c =? 62) || (c =? 124) || (c =? 35) || (c =? 94)
  || (c =? 91) || (c =? 93).

(** [ChatPersistence.sanitizeFilename] *)
Definition sanitizeFilename (name : JSString) : JSString :=
  trim (List.filter (fun c => negb (forbidden_in_filename c)) name).

(** The label a message is saved under. *)
Definition roleLabel (r : Role) : JSString :=
  match r with
  | user => str "**You:**"
  | assistant => str "**Assistant:**"
  | system => str "**System:**"
  end.

(** The rule between two messages: a line feed, an empty line, three
    dashes, an empty line. *)
Definition message_separator : JSString := [10; 10] ++ str "---" ++ [10; 10].

(** [ChatPersistence.formatChatAsMarkdown] *)
Definition formatChatAsMarkdown (data : ChatData) (timestamp : JSString)
  : JSString :=
  let sourcesYaml :=
    if (0 <? List.length (cd_sources data))%nat then
      join [10]
        (map (fun s => str "  - " ++ [34] ++ str "[[" ++ s ++ str "]]" ++ [34])
           (cd_sources data))
    else str "  - none" in
  let frontmatter :=
    str "---" ++ [10]
    ++ str "created: " ++ timestamp ++ [10]
    ++ str "provider: " ++ cd_provider data ++ [10]
    ++ str "model: " ++ cd_model data ++ [10]
    ++ str "sources:" ++ [10]
    ++ sourcesYaml ++ [10]
    ++ str "tags:" ++ [10]
    ++ str "  - ai-chat" ++ [10]
    ++ str "---" ++ [10]
    ++ [10] in
  let messages :=
    join message_separator
      (map (fun msg => roleLabel (role msg) ++ [10; 10] ++ msg_content msg)
         (cd_messages data)) in
  frontmatter ++ messages.

(** The text that [appendToChat] writes back to the file. *)
Definition appendToChat (existing : JSString) (r : Role) (content : JSString)
  : JSString :=
  let label :=
    match r with
    | user => str "**You:**"
    | _ => str "**Assistant:**"
    end in
  existing ++ message_separator ++ label ++ [10; 10] ++ content.

(** The regular expression [\n---\n]. *)
Definition divider : JSString := [10] ++ str "---" ++ [10].

(** The body of the loop over the parts of a saved chat. *)
Definition parse_part (part : JSString) : list ChatMessage :=
  let trimmed := trim part in
  if negb (truthy (JStr trimmed)) then []
  else if startsWith trimmed (str "**You:**") then
    [mkMessage user (trim (remove_first (str "**You:**") trimmed))]
  else if startsWith trimmed (str "**Assistant:**") then
    [mkMessage assistant (trim (remove_first (str "**Assistant:**") trimmed))]
  else if startsWith trimmed (str "**System:**") then
    [mkMessage system (trim (remove_first (str "**System:**") trimmed))]
  else [].

(** [ChatPersistence.parseChatMarkdown].  The front matter is matched at
    the start of the text: three dashes and a line feed, then, as late as
    needed, the first [divider]. *)
Definition parseChatMarkdown (content : JSString) : list ChatMessage :=
  let bodyContent :=
    if startsWith content (str "---" ++ [10]) then
      match after_first divider (skipn 4 content) with
      | Some rest => rest
      | None => content
      end
    else content in
  List.concat (map parse_part (split_on divider bodyContent)).

(** ** The adapters

    The engine's [JSON.parse], [JSON.stringify] and number printing are
    parameters of the section: the adapters are read for every behaviour
    of theirs. *)

Section Adapters.
(** [JSON.parse]; [None] is a thrown [SyntaxError]. *)
Variable JSON_parse : JSString -> option JSValue.
(** [Number.prototype.toString] at the number [m * 10^e]. *)
Variable Number_toString : Z -> Z -> JSString.
(** [JSON.stringify] *)
Variable JSON_stringify : JSValue -> JSString.

(** *** Stream parsers *)

Definition parse_json (text : JSString) : Result JSValue :=
  match JSON_parse text with
  | Some v => Ok v
  | None => Throw (mkError SyntaxError (str "Unexpected token") None)
  end.

(** [parsed.choices?.[0]?.delta?.content] *)
Definition choices_delta_content (parsed : JSValue) : Result JSValue :=
  let! choices := dot parsed (str "choices") in
  Ok (opt_prop (opt_prop (opt_index0 choices) (str "delta")) (str "content")).

(** [OpenRouterProvider.parseSSEStream], body of the loop over lines. *)
Definition openrouter_on_line (st : unit) (line : JSString) : Step unit :=
  if startsWith line (str "data: ") then
    let data := slice 6 line in
    if str_eqb data (str "[DONE]") then Finish
    else
      match (let! parsed := parse_json data in
             choices_delta_content parsed) with
      | Ok c =>
          let delta := or_empty c in
          if truthy delta then Yield delta st else Next st
      | Throw _ => Next st
      end
  else Next st.

Definition parseSSEStream (chunks : list JSString) : list TokenDelta :=
  generator openrouter_on_line tt chunks.

(** [OpenAICompatibleProvider.parseStream], body of the loop over
    lines. *)
Definition openai_on_line (st : unit) (line : JSString) : Step unit :=
  if startsWith line (str "data: ") then
    let data := trim (slice 6 line) in
    if str_eqb data (str "[DONE]") then Finish
    else
      match (let! parsed := parse_json data in
             let! choices := dot parsed (str "choices") in
             Ok (opt_prop (opt_index0 choices) (str "delta"))) with
      | Ok delta =>
          let content := or_empty (opt_prop delta (str "content")) in
          if truthy content then Yield content st else Next st
      | Throw _ => Next st
      end
  else Next st.

Definition parseStream (chunks : list JSString) : list TokenDelta :=
  generator openai_on_line tt chunks.

(** The block of [parseMinimaxStream] guarded by [!this.showThinking],
    followed by [if (content) yield].  An exception thrown on the way
    is caught by the enclosing [try], and the assignments made to
    [inThinkBlock] before it stay. *)
Definition think_filter (inThinkBlock : bool) (content : JSValue)
  : Step bool :=
  match content with
  | JStr s =>
      let '(in1, s1) :=
        if includes s (str "<think>") then (true, cut_from_open s)
        else (inThinkBlock, s) in
      let '(in2, s2) :=
        if in1 && includes s1 (str "</think>")
        then (false, cut_through_close s1)
        else (in1, s1) in
      if in2 then Next in2
      else if truthy (JStr s2) then Yield (JStr s2) in2
      else Next in2
  | JArr items =>
      if array_includes items (str "<think>") then
        Next true                       (* [content.replace]: TypeError *)
      else if inThinkBlock && array_includes items (str "</think>") then
        Next false                      (* [content.replace]: TypeError *)
      else if inThinkBlock then Next inThinkBlock
      else Yield content inThinkBlock
  | _ => Next inThinkBlock              (* [content.includes]: TypeError *)
  end.

(** [MinimaxProvider.parseMinimaxStream], body of the loop over lines;
    the state is [inThinkBlock]. *)
Definition minimax_on_line (showThinking : bool) (inThinkBlock : bool)
    (line : JSString) : Step bool :=
  if startsWith line (str "data: ") then
    let data := trim (slice 6 line) in
    if str_eqb data (str "[DONE]") then Finish
    else
      match (let! parsed := parse_json data in
             choices_delta_content parsed) with
      | Ok c =>
          let content := or_empty c in
          if negb showThinking then think_filter inThinkBlock content
          else if truthy content then Yield content inThinkBlock
          else Next inThinkBlock
      | Throw _ => Next inThinkBlock
      end
  else Next inThinkBlock.

Definition parseMinimaxStream (showThinking : bool) (chunks : list JSString)
  : list TokenDelta :=
  generator (minimax_on_line showThinking) false chunks.

(** [parsed.candidates?.[0]?.content?.parts?.[0]?.text] *)
Definition candidate_text (parsed : JSValue) : Result JSValue :=
  let! candidates := dot parsed (str "candidates") in
  Ok (opt_prop
        (opt_index0
           (opt_prop (opt_prop (opt_index0 candidates) (str "content"))
              (str "parts")))
        (str "text")).

(** [GoogleAIProvider.parseGeminiStream], body of the loop over lines:
    there is no sentinel, the stream ends when it is closed. *)
Definition gemini_on_line (st : unit) (line : JSString) : Step unit :=
  if startsWith line (str "data: ") then
    match (let! parsed := parse_json (slice 6 line) in
           candidate_text parsed) with
    | Ok t =>
        let text := or_empty t in
        if truthy text then Yield text st else Next st
    | Throw _ => Next st
    end
  else Next st.

Definition parseGeminiStream (chunks : list JSString) : list TokenDelta :=
  generator gemini_on_line tt chunks.

(** [OllamaProvider.parseOllamaStream], body of the loop over lines:
    one JSON object per line, [done] is the terminal signal. *)
Definition ollama_on_line (st : unit) (line : JSString) : Step unit :=
  if negb (truthy (JStr (trim line))) then Next st
  else
    match (let! parsed := parse_json line in
           let! d := dot parsed (str "done") in
           Ok (parsed, d)) with
    | Ok (parsed, d) =>
        if truthy d then Finish
        else Yield (or_empty (opt_prop (prop parsed (str "message"))
                                (str "content"))) st
    | Throw _ => Next st
    end.

Definition parseOllamaStream (chunks : list JSString) : list TokenDelta :=
  generator ollama_on_line tt chunks.

(** *** Conversions *)

Definition join_comma (parts : list JSString) : JSString :=
  match parts with
  | [] => []
  | x :: rest => x ++ List.concat (List.map (fun y => 44 :: y) rest)
  end.

(** ToString, as a template literal and [new Error] apply it.  An
    object prints as [[object Object]] unless it has a [toString]
    property of its own, which, coming out of [JSON.parse], cannot be
    called: the conversion then throws. *)
Fixpoint ToString (v : JSValue) : Result JSString :=
  match v with
  | JUndefined => Ok (str "undefined")
  | JNull => Ok (str "null")
  | JBool true => Ok (str "true")
  | JBool false => Ok (str "false")
  | JNum m e => Ok (Number_toString m e)
  | JStr s => Ok s
  | JArr items =>
      let fix each (l : list JSValue) : Result (list JSString) :=
        match l with
        | [] => Ok []
        | x :: l' =>
            let! sx := (if nullish x then Ok [] else ToString x) in
            let! rest := each l' in
            Ok (sx :: rest)
        end in
      let! parts := each items in
      Ok (join_comma parts)
  | JObj fields =>
      match own_property fields (str "toString") with
      | JUndefined => Ok (str "[object Object]")
      | _ => Throw (mkError TypeError
                      (str "Cannot convert object to primitive value") None)
      end
  end.

(** [throw new Error(message)] for a message that is any value. *)
Definition throw_Error {A : Type} (message : JSValue) : Result A :=
  let! s := ToString message in
  Throw (new_Error s).

(** [resp.json] *)
Definition resp_json (resp : RequestUrlResponse) : Result JSValue :=
  parse_json (resp_text resp).

Definition http_status (st : Z) : JSString := str "HTTP " ++ Z_toString st.

(** *** validate *)

(** [OpenRouterProvider.validate] *)
Definition OpenRouter_validate (answer : Result RequestUrlResponse)
  : Result ValidateResult :=
  try_catch
    (let! resp := requestUrl true answer in
     Ok (mkValidate (resp_status resp =? 200)%Z JUndefined))
    (fun e => Ok (mkValidate false (JStr (message_or_error e)))).

(** [GoogleAIProvider.validate] *)
Definition GoogleAI_validate (answer : Result RequestUrlResponse)
  : Result ValidateResult :=
  try_catch
    (let! resp := requestUrl false answer in
     if (resp_status resp =? 200)%Z then Ok (mkValidate true JUndefined)
     else if (resp_status resp =? 400)%Z then
       Ok (mkValidate false (JStr (str "Invalid API key format")))
     else if (resp_status resp =? 403)%Z then
       Ok (mkValidate false
             (JStr (str "API key not authorized. Make sure the Gemini API is enabled.")))
     else
       let! json := resp_json resp in
       let errorData := js_or json (JObj []) in
       let! err := dot errorData (str "error") in
       Ok (mkValidate false
             (js_or (opt_prop err (str "message"))
                (JStr (http_status (resp_status resp))))))
    (fun e => Ok (mkValidate false (JStr (message_or_error e)))).

(** [OllamaProvider.validate] *)
Definition Ollama_validate (p : OllamaProvider)
    (answer : Result RequestUrlResponse) : Result ValidateResult :=
  try_catch
    (let! resp := requestUrl true answer in
     Ok (mkValidate (resp_status resp =? 200)%Z JUndefined))
    (fun e =>
       Ok (mkValidate false
             (JStr (str "Cannot connect to Ollama at " ++ ol_baseUrl p)))).

(** [MinimaxProvider.validate] *)
Definition Minimax_validate (answer : Result RequestUrlResponse)
  : Result ValidateResult :=
  try_catch
    (let! resp := requestUrl true answer in
     Ok (mkValidate (resp_status resp =? 200)%Z JUndefined))
    (fun e =>
       match err_status e with
       | Some 401%Z => Ok (mkValidate false (JStr (str "Invalid API key")))
       | _ => Ok (mkValidate false (JStr (message_or_error e)))
       end).

(** The headers of the generic adapter: the authorisation header only
    when a key is configured. *)
Definition OpenAICompatible_headers (p : OpenAICompatibleProvider)
  : list (JSString * JSString) :=
  (str "Content-Type", str "application/json") ::
  (if truthy (JStr (apiKey p))
   then [(str "Authorization", str "Bearer " ++ apiKey p)]
   else []).

Definition role_string (r : Role) : JSString :=
  match r with
  | system => str "system"
  | user => str "user"
  | assistant => str "assistant"
  end.

Definition message_value (m : ChatMessage) : JSValue :=
  JObj [(str "role", JStr (role_string (role m)));
        (str "content", JStr (msg_content m))].

(** The request [validate] sends. *)
Definition OpenAICompatible_validate_request (p : OpenAICompatibleProvider)
  : Request :=
  mkRequest (baseUrl p) (str "POST") (OpenAICompatible_headers p)
    (JSON_stringify
       (JObj [(str "model", JStr (modelId p));
              (str "messages",
               JArr [JObj [(str "role", JStr (str "user"));
                           (str "content", JStr (str "hi"))]]);
              (str "max_tokens", JNum 5 0);
              (str "stream", JBool false)])).

(** The request [chat] ([streaming = false]) and [chatStream]
    ([streaming = true]) send. *)
Definition OpenAICompatible_chat_request (p : OpenAICompatibleProvider)
    (request : ChatRequest) (streaming : bool) : Request :=
  mkRequest (baseUrl p) (str "POST") (OpenAICompatible_headers p)
    (JSON_stringify
       (JObj [(str "model", js_or (JStr (model request)) (JStr (modelId p)));
              (str "messages", JArr (List.map message_value (messages request)));
              (str "max_tokens", js_or (maxTokens request) (JNum 2000 0));
              (str "temperature",
               if nullish (temperature request) then JNum 7 (-1)
               else temperature request);
              (str "stream", JBool streaming)])).

(** [OpenAICompatibleProvider.validate] *)
Definition OpenAICompatible_validate (p : OpenAICompatibleProvider)
    (net : Request -> Result RequestUrlResponse) : Result ValidateResult :=
  if negb (truthy (JStr (baseUrl p))) then
    Ok (mkValidate false (JStr (str "Base URL is required")))
  else if negb (truthy (JStr (modelId p))) then
    Ok (mkValidate false (JStr (str "Model ID is required")))
  else
    try_catch
      (let! resp :=
         requestUrl false (net (OpenAICompatible_validate_request p)) in
       if (resp_status resp =? 200)%Z then Ok (mkValidate true JUndefined)
       else
         let errorMsg := JStr (http_status (resp_status resp)) in
         let errorMsg :=
           match (let! json := parse_json (resp_text resp) in
                  let! err := dot json (str "error") in
                  let m := opt_prop err (str "message") in
                  if truthy m then Ok m
                  else
                    let! m' := dot json (str "message") in
                    Ok (js_or m' errorMsg)) with
           | Ok v => v
           | Throw _ => errorMsg
           end in
         Ok (mkValidate false errorMsg))
      (fun e => Ok (mkValidate false (JStr (message_or_error e)))).

(** *** chat *)

Definition usage_of (u : JSValue) (prompt completion : JSString)
  : option (JSValue * JSValue) :=
  if truthy u then Some (prop u prompt, prop u completion) else None.

(** [OpenAICompatibleProvider.chat] *)
Definition OpenAICompatible_chat (p : OpenAICompatibleProvider)
    (request : ChatRequest) (net : Request -> Result RequestUrlResponse)
  : Result ChatResponse :=
  let! resp :=
    requestUrl true (net (OpenAICompatible_chat_request p request false)) in
  let! data := resp_json resp in
  let! err := dot data (str "error") in
  if truthy err then
    let m := prop err (str "message") in
    throw_Error (if truthy m then m else JStr (JSON_stringify err))
  else
    let! choices := dot data (str "choices") in
    let text :=
      or_empty (opt_prop (opt_prop (opt_index0 choices) (str "message"))
                  (str "content")) in
    let! u := dot data (str "usage") in
    Ok (mkChatResponse text
          (usage_of u (str "prompt_tokens") (str "completion_tokens"))).

(** [data.promptFeedback?.blockReason] *)
Definition blockReason (data : JSValue) : Result JSValue :=
  let! feedback := dot data (str "promptFeedback") in
  Ok (opt_prop feedback (str "blockReason")).

(** [GoogleAIProvider.chat]; its [catch] logs the error and throws it
    again. *)
Definition GoogleAI_chat (answer : Result RequestUrlResponse)
  : Result ChatResponse :=
  let! resp := requestUrl false answer in
  if negb (resp_status resp =? 200)%Z then
    let! json := resp_json resp in
    let errorData := js_or json (JObj []) in
    let! err := dot errorData (str "error") in
    let errorMsg :=
      js_or (js_or (opt_prop err (str "message")) (JStr (resp_text resp)))
        (JStr (http_status (resp_status resp))) in
    let! msg := ToString errorMsg in
    Throw (new_Error (str "Google AI: " ++ msg))
  else
    let! data := resp_json resp in
    let! reason := blockReason data in
    if truthy reason then
      let! msg := ToString reason in
      Throw (new_Error (str "Content blocked: " ++ msg))
    else
      let! t := candidate_text data in
      let text := or_empty t in
      let! candidates := dot data (str "candidates") in
      let finishReason := opt_prop (opt_index0 candidates) (str "finishReason") in
      if negb (truthy text) && truthy finishReason then
        let! msg := ToString finishReason in
        Throw (new_Error (str "No response. Reason: " ++ msg))
      else
        let! u := dot data (str "usageMetadata") in
        Ok (mkChatResponse text
              (usage_of u (str "promptTokenCount") (str "candidatesTokenCount"))).

(** *** chatStream *)

(** [if (!response.body) throw new Error(message)], then the stream. *)
Definition stream_of_body (response : FetchResponse) (message : JSString)
    (parser : list JSString -> list TokenDelta)
  : Result StreamingChatResponse :=
  match body response with
  | None => Throw (new_Error message)
  | Some chunks => Ok (mkStreaming (parser chunks))
  end.

(** The message of a failed handshake: [HTTP status], or the message of
    the error envelope when the body holds one. *)
Definition handshake_error (response : FetchResponse) : JSValue :=
  let errorMsg := JStr (http_status (status response)) in
  match (let! json := parse_json (response_text response) in
         let! err := dot json (str "error") in
         Ok (js_or (opt_prop err (str "message")) errorMsg)) with
  | Ok v => v
  | Throw _ => errorMsg
  end.

(** [OpenRouterProvider.chatStream] *)
Definition OpenRouter_chatStream (fetched : Result FetchResponse)
  : Result StreamingChatResponse :=
  let! response := fetched in
  stream_of_body response (str "No response body for streaming")
    parseSSEStream.

(** [OllamaProvider.chatStream] *)
Definition Ollama_chatStream (fetched : Result FetchResponse)
  : Result StreamingChatResponse :=
  let! response := fetched in
  stream_of_body response (str "No response body") parseOllamaStream.

(** [MinimaxProvider.chatStream] *)
Definition Minimax_chatStream (p : MinimaxProvider)
    (fetched : Result FetchResponse) : Result StreamingChatResponse :=
  let! response := fetched in
  if negb (response_ok response) then
    Throw (new_Error (str "MiniMax API error: " ++ Z_toString (status response)
                        ++ str " " ++ statusText response))
  else
    stream_of_body response (str "No response body for streaming")
      (parseMinimaxStream (mm_showThinking p)).

(** [GoogleAIProvider.chatStream] *)
Definition GoogleAI_chatStream (fetched : Result FetchResponse)
  : Result StreamingChatResponse :=
  let! response := fetched in
  if negb (response_ok response) then
    let! msg := ToString (handshake_error response) in
    Throw (new_Error (str "Google AI: " ++ msg))
  else stream_of_body response (str "No response body") parseGeminiStream.

(** [OpenAICompatibleProvider.chatStream] *)
Definition OpenAICompatible_chatStream (p : OpenAICompatibleProvider)
    (request : ChatRequest) (net : Request -> Result FetchResponse)
  : Result StreamingChatResponse :=
  let! response := net (OpenAICompatible_chat_request p request true) in
  if negb (response_ok response) then throw_Error (handshake_error response)
  else stream_of_body response (str "No response body") parseStream.

(** The five [validate] and [chatStream] methods behind the interface;
    [answer] is what the one request of the method settles to. *)
Definition validate (p : LLMProvider) (answer : Result RequestUrlResponse)
  : Result ValidateResult :=
  match p with
  | OpenRouter _ => OpenRouter_validate answer
  | GoogleAI _ => GoogleAI_validate answer
  | Ollama o => Ollama_validate o answer
  | Minimax _ => Minimax_validate answer
  | OpenAICompatible c => OpenAICompatible_validate c (fun _ => answer)
  end.

Definition chatStream (p : LLMProvider) (request : ChatRequest)
    (fetched : Result FetchResponse) : Result StreamingChatResponse :=
  match p with
  | OpenRouter _ => OpenRouter_chatStream fetched
  | GoogleAI _ => GoogleAI_chatStream fetched
  | Ollama _ => Ollama_chatStream fetched
  | Minimax m => Minimax_chatStream m fetched
  | OpenAICompatible c => OpenAICompatible_chatStream c request (fun _ => fetched)
  end.

(** *** chat of the three other adapters *)

(** [v[0]]: a [TypeError] on [null] and [undefined]. *)
Definition at0 (v : JSValue) : Result JSValue :=
  if nullish v then
    Throw (mkError TypeError (str "Cannot read properties of 0") None)
  else Ok (index0 v).

(** [data.choices[0].message.content] *)
Definition first_choice_content (data : JSValue) : Result JSValue :=
  let! choices := dot data (str "choices") in
  let! choice := at0 choices in
  let! message := dot choice (str "message") in
  dot message (str "content").

(** [OpenRouterProvider.chat] *)
Definition OpenRouter_chat (answer : Result RequestUrlResponse)
  : Result ChatResponse :=
  let! resp := requestUrl true answer in
  let! data := resp_json resp in
  let! text := first_choice_content data in
  let! u := dot data (str "usage") in
  Ok (mkChatResponse text
        (usage_of u (str "prompt_tokens") (str "completion_tokens"))).

(** [OllamaProvider.chat] *)
Definition Ollama_chat (answer : Result RequestUrlResponse)
  : Result ChatResponse :=
  let! resp := requestUrl true answer in
  let! data := resp_json resp in
  let! message := dot data (str "message") in
  let! text := dot message (str "content") in
  let! eval_count := dot data (str "eval_count") in
  Ok (mkChatResponse text
        (if truthy eval_count then
           Some (js_or (prop data (str "prompt_eval_count")) (JNum 0 0),
                 eval_count)
         else None)).

(** [this.stripThinkingBlocks(content)] for a [content] that is any
    value: only a string has a [replace] that can be called. *)
Definition strip_value (content : JSValue) : Result JSValue :=
  match content with
  | JStr s => Ok (JStr (stripThinkingBlocks s))
  | _ => Throw (mkError TypeError (str "content.replace is not a function") None)
  end.

(** [MinimaxProvider.chat] *)
Definition Minimax_chat (p : MinimaxProvider)
    (answer : Result RequestUrlResponse) : Result ChatResponse :=
  let! resp := requestUrl true answer in
  let! data := resp_json resp in
  let! content := first_choice_content data in
  let! content :=
    (if negb (mm_showThinking p) then strip_value content else Ok content) in
  let! u := dot data (str "usage") in
  Ok (mkChatResponse content
        (usage_of u (str "prompt_tokens") (str "completion_tokens"))).

(** *** listModels *)

(** The models that are listed when the list of OpenRouter cannot be
    had. *)
Definition OpenRouter_fallback : list ModelInfo :=
  [ mkModel (JStr (str "anthropic/claude-3.5-sonnet"))
      (JStr (str "Claude 3.5 Sonnet")) (JNum 200000 0) true;
    mkModel (JStr (str "openai/gpt-4o")) (JStr (str "GPT-4o"))
      (JNum 128000 0) true;
    mkModel (JStr (str "google/gemini-pro-1.5")) (JStr (str "Gemini Pro 1.5"))
      (JNum 1000000 0) true;
    mkModel (JStr (str "meta-llama/llama-3.1-70b-instruct"))
      (JStr (str "Llama 3.1 70B")) (JNum 131072 0) true ].

Definition OpenRouter_model (m : JSValue) : Result ModelInfo :=
  let! id := dot m (str "id") in
  Ok (mkModel id (js_or (prop m (str "name")) id)
        (prop m (str "context_length")) true).

(** [OpenRouterProvider.listModels] *)
Definition OpenRouter_listModels (answer : Result RequestUrlResponse)
  : Result (list ModelInfo) :=
  try_catch
    (let! resp := requestUrl true answer in
     let! data := resp_json resp in
     let! models := dot data (str "data") in
     let! items := array_items models in
     mapM OpenRouter_model items)
    (fun _ => Ok OpenRouter_fallback).

(** The models that are listed when the list of Google AI cannot be
    had. *)
Definition GoogleAI_fallback : list ModelInfo :=
  [ mkModel (JStr (str "gemini-2.0-flash")) (JStr (str "Gemini 2.0 Flash"))
      (JNum 1000000 0) true;
    mkModel (JStr (str "gemini-2.5-flash")) (JStr (str "Gemini 2.5 Flash"))
      (JNum 1000000 0) true;
    mkModel (JStr (str "gemini-2.5-pro")) (JStr (str "Gemini 2.5 Pro"))
      (JNum 1000000 0) true ].

(** [m.supportedGenerationMethods?.includes('generateContent')], as the
    filter reads it: an array includes an element, a text includes a part
    of it, and another value has no such method. *)
Definition generates_content (m : JSValue) : Result bool :=
  let! methods := dot m (str "supportedGenerationMethods") in
  match methods with
  | JUndefined | JNull => Ok false
  | JArr items => Ok (array_includes items (str "generateContent"))
  | JStr s => Ok (includes s (str "generateContent"))
  | _ => Throw (mkError TypeError (str "includes is not a function") None)
  end.

Definition GoogleAI_model (m : JSValue) : Result ModelInfo :=
  let! n := dot m (str "name") in
  match n with
  | JStr s =>
      Ok (mkModel (JStr (remove_first (str "models/") s))
            (js_or (prop m (str "displayName")) n)
            (prop m (str "inputTokenLimit")) true)
  | _ => Throw (mkError TypeError (str "replace is not a function") None)
  end.

(** [GoogleAIProvider.listModels] *)
Definition GoogleAI_listModels (answer : Result RequestUrlResponse)
  : Result (list ModelInfo) :=
  try_catch
    (let! resp := requestUrl true answer in
     let! data := resp_json resp in
     let! models := dot data (str "models") in
     let! items := array_items models in
     let! kept := filterM generates_content items in
     mapM GoogleAI_model kept)
    (fun _ => Ok GoogleAI_fallback).

Definition Ollama_model (m : JSValue) : Result ModelInfo :=
  let! n := dot m (str "name") in
  Ok (mkModel n n JUndefined true).

(** [OllamaProvider.listModels] *)
Definition Ollama_listModels (answer : Result RequestUrlResponse)
  : Result (list ModelInfo) :=
  try_catch
    (let! resp := requestUrl true answer in
     let! data := resp_json resp in
     let! models := dot data (str "models") in
     let! items := array_items models in
     mapM Ollama_model items)
    (fun _ => Ok []).

(** [MinimaxProvider.listModels] *)
Definition Minimax_listModels : Result (list ModelInfo) :=
  Ok [ mkModel (JStr (str "MiniMax-M2.1")) (JStr (str "MiniMax M2.1 (Latest)"))
         (JNum 200000 0) true;
       mkModel (JStr (str "MiniMax-M2")) (JStr (str "MiniMax M2"))
         (JNum 200000 0) true ].

(** [OpenAICompatibleProvider.listModels] *)
Definition OpenAICompatible_listModels (p : OpenAICompatibleProvider)
  : Result (list ModelInfo) :=
  Ok [ mkModel (JStr (modelId p)) (JStr (modelId p)) (JNum 128000 0) true ].

(** [provider.listModels()] through the interface. *)
Definition listModels (p : LLMProvider) (answer : Result RequestUrlResponse)
  : Result (list ModelInfo) :=
  match p with
  | OpenRouter _ => OpenRouter_listModels answer
  | GoogleAI _ => GoogleAI_listModels answer
  | Ollama _ => Ollama_listModels answer
  | Minimax _ => Minimax_listModels
  | OpenAICompatible c => OpenAICompatible_listModels c
  end.
End Adapters.

(** ** Properties stated about the output of a stream parser *)

(** The output ends with its only terminal delta. *)
Definition well_terminated (out : list TokenDelta) : Prop :=
  exists ds, out = ds ++ [terminal] /\ Forall (fun d => done d = false) ds.

(** The generator returned from inside its read loop: the terminal signal
    was recognised within [chunks]. *)
Definition returned {S : Type} (on_line : S -> JSString -> Step S) (st0 : S)
    (chunks : list JSString) : bool :=
  snd (read_loop on_line chunks [] st0).


(** A transport that answers only the requests sent to [u]: any other
    request fails as an unreachable host does. *)
Definition only_at {A : Type} (u : JSString) (net : Request -> Result A)
  : Request -> Result A :=
  fun r =>
    if str_eqb (url r) u then net r
    else Throw (mkError TypeError (str "Failed to fetch") None).

(** ** Properties stated about the transport's answers *)

(** Where a value is truthy it is a string. *)
Definition string_if_truthy (v : JSValue) : Prop :=
  truthy v = true -> exists s : JSString, v = JStr s.

(** The answer of a provider that rejects the credential: status 401 or
    403. *)
Definition credential_rejected (answer : Result RequestUrlResponse) : Prop :=
  exists resp : RequestUrlResponse,
    answer = Ok resp /\ (resp_status resp = 401 \/ resp_status resp = 403)%Z.

(** The body of the answer either is not JSON or holds, where an error
    envelope has its message, nothing or a string. *)
Definition string_messages (JSON_parse : JSString -> option JSValue)
    (answer : Result RequestUrlResponse) : Prop :=
  forall (resp : RequestUrlResponse) (json : JSValue),
    answer = Ok resp ->
    JSON_parse (resp_text resp) = Some json ->
    string_if_truthy (opt_prop (prop json (str "error")) (str "message"))
    /\ string_if_truthy (prop json (str "message")).

(** The adapters whose [chatStream] tests [response.ok]. *)
Definition tests_response_ok (p : LLMProvider) : bool :=
  match p with
  | Minimax _ | GoogleAI _ | OpenAICompatible _ => true
  | OpenRouter _ | Ollama _ => false
  end.

(** [data.candidates?.[0]?.finishReason] *)
Definition finishReason (data : JSValue) : JSValue :=
  opt_prop (opt_index0 (prop data (str "candidates"))) (str "finishReason").


(** ** Properties stated about the text of a stream *)

(** The lines of a text that are closed by a line feed: what the parsers
    have handed to their loop over lines once the whole text is read. *)
Definition complete_lines (text : JSString) : list JSString :=
  removelast (split_lines text).

(** The text that follows the last line feed: what stays in the buffer. *)
Definition partial_line (text : JSString) : JSString :=
  List.last (split_lines text) [].

(** The text holds no line feed. *)
Definition no_line_feed (text : JSString) : Prop :=
  forallb (fun c => negb (c =? 10)) text = true.

(** The body of a loop passes over the line, in every state, yielding
    nothing and keeping the state. *)
Definition skipped {S : Type} (on_line : S -> JSString -> Step S)
    (l : JSString) : Prop :=
  forall st : S, on_line st l = Next st.

(** Two bodies of a loop do the same with every line, whatever their
    states. *)
Definition same_steps {S T : Type} (f : S -> JSString -> Step S)
    (g : T -> JSString -> Step T) : Prop :=
  forall (s : S) (t : T) (l : JSString),
    match f s l, g t l with
    | Yield c _, Yield c' _ => c = c'
    | Next _, Next _ => True
    | Finish, Finish => True
    | _, _ => False
    end.

(** The configuration [validate] asks for before it sends anything: a
    base URL and a model, for the generic adapter only. *)
Definition configured (p : LLMProvider) : bool :=
  match p with
  | OpenAICompatible c => truthy (JStr (baseUrl c)) && truthy (JStr (modelId c))
  | _ => true
  end.

(** The transport answered, with status 200. *)
Definition answered_200 (answer : Result RequestUrlResponse) : bool :=
  match answer with
  | Ok resp => (resp_status resp =? 200)%Z
  | Throw _ => false
  end.

(** [data.choices[0].message], where every step of the path exists. *)
Definition first_message (data : JSValue) : JSValue :=
  prop (index0 (prop data (str "choices"))) (str "message").

(** The answer has a first choice with a message: [data], [data.choices],
    [data.choices[0]] and [data.choices[0].message] are neither [null] nor
    [undefined]. *)
Definition has_first_message (data : JSValue) : bool :=
  negb (nullish data)
  && negb (nullish (prop data (str "choices")))
  && negb (nullish (index0 (prop data (str "choices"))))
  && negb (nullish (first_message data)).

(** The answer has a message: [data] and [data.message] are neither
    [null] nor [undefined]. *)
Definition has_message (data : JSValue) : bool :=
  negb (nullish data) && negb (nullish (prop data (str "message"))).

(** The transport answered below status 400 with a text that parses to
    [data]. *)
Definition answered_json (JSON_parse : JSString -> option JSValue)
    (answer : Result RequestUrlResponse) (data : JSValue) : Prop :=
  exists resp : RequestUrlResponse,
    answer = Ok resp /\ (resp_status resp < 400)%Z
    /\ JSON_parse (resp_text resp) = Some data.

(** The call raised a [TypeError]. *)
Definition raised_TypeError {A : Type} (r : Result A) : Prop :=
  exists e : JSError, r = Throw e /\ err_name e = TypeError.

(** ** Properties stated about converted messages and listed models *)

(** The messages of the conversation proper: those that are not system
    messages. *)
Definition dialogue (messages : list ChatMessage) : list ChatMessage :=
  List.filter (fun m => match role m with system => false | _ => true end)
    messages.

(** The texts of the system messages, each followed by an empty line. *)
Definition system_text (messages : list ChatMessage) : JSString :=
  List.concat
    (map (fun m => msg_content m ++ [10; 10])
       (List.filter
          (fun m => match role m with system => true | _ => false end)
          messages)).

(** A message of the conversation in the shape of the Gemini API. *)
Definition to_content (m : ChatMessage) : GeminiContent :=
  mkContent (match role m with assistant => str "model" | _ => str "user" end)
    (msg_content m).

(** No usable list of models came back under the key [k]: the transport
    failed, answered with a status from 400 on, with a text that is not
    JSON, or with a value whose [k] is not an array. *)
Definition no_model_array (JSON_parse : JSString -> option JSValue)
    (k : JSString) (answer : Result RequestUrlResponse) : Prop :=
  forall data : JSValue,
    answered_json JSON_parse answer data ->
    forall items : list JSValue, prop data k <> JArr items.

(** The entry listed for a model of OpenRouter. *)
Definition OpenRouter_info (m : JSValue) : ModelInfo :=
  mkModel (prop m (str "id"))
    (js_or (prop m (str "name")) (prop m (str "id")))
    (prop m (str "context_length")) true.

(** The entry listed for a model of the local daemon. *)
Definition Ollama_info (m : JSValue) : ModelInfo :=
  mkModel (prop m (str "name")) (prop m (str "name")) JUndefined true.

(** The entry listed for a model of Google AI whose name is a text. *)
Definition GoogleAI_info (m : JSValue) : ModelInfo :=
  mkModel
    match prop m (str "name") with
    | JStr s => JStr (remove_first (str "models/") s)
    | v => v
    end
    (js_or (prop m (str "displayName")) (prop m (str "name")))
    (prop m (str "inputTokenLimit")) true.

(** The value is neither [null] nor [undefined]. *)
Definition present (m : JSValue) : bool := negb (nullish m).

(** The generation methods of the model can be searched: they are absent,
    an array or a text. *)
Definition methods_readable (m : JSValue) : bool :=
  present m
  && match prop m (str "supportedGenerationMethods") with
     | JUndefined | JNull | JArr _ | JStr _ => true
     | _ => false
     end.

(** The generation methods of the model include [generateContent]. *)
Definition generates (m : JSValue) : bool :=
  match prop m (str "supportedGenerationMethods") with
  | JArr items => array_includes items (str "generateContent")
  | JStr s => includes s (str "generateContent")
  | _ => false
  end.

(** The name of the model is a text. *)
Definition named (m : JSValue) : bool :=
  match prop m (str "name") with
  | JStr _ => true
  | _ => false
  end.

(** The provider that the settings select has the setting it needs: a
    key, for the local daemon nothing, for the generic adapter a URL and a
    model. *)
Definition selectable (settings : VaultAISettings) : bool :=
  if str_eqb (provider settings) (str "openrouter") then
    truthy (JStr (openrouterApiKey settings))
  else if str_eqb (provider settings) (str "google-ai") then
    truthy (JStr (googleApiKey settings))
  else if str_eqb (provider settings) (str "ollama") then true
  else if str_eqb (provider settings) (str "minimax") then
    truthy (JStr (minimaxApiKey settings))
  else if str_eqb (provider settings) (str "openai-compatible") then
    truthy (JStr (customApiUrl settings))
    && truthy (JStr (customModel settings))
  else false.

(** ** Properties stated about saved chats *)

(** The text is made of white space. *)
Definition blank (s : JSString) : bool := forallb is_js_space s.

(** A content that comes back from a saved chat as it is: it is trimmed,
    and none of its lines is a rule of three dashes. *)
Definition restorable (c : JSString) : Prop :=
  trim c = c /\ ~ In (str "---") (split_lines c).

(** A message as it is written to the file. *)
Definition saved_message (m : ChatMessage) : JSString :=
  roleLabel (role m) ++ [10; 10] ++ msg_content m.

(** The lines of the front matter, between its two rules. *)
Definition frontmatter_lines (data : ChatData) (timestamp : JSString)
  : JSString :=
  str "created: " ++ timestamp ++ [10]
  ++ str "provider: " ++ cd_provider data ++ [10]
  ++ str "model: " ++ cd_model data ++ [10]
  ++ str "sources:" ++ [10]
  ++ (if (0 <? List.length (cd_sources data))%nat then
        join [10]
          (map (fun s =>
                  str "  - " ++ [34] ++ str "[[" ++ s ++ str "]]" ++ [34])
             (cd_sources data))
      else str "  - none") ++ [10]
  ++ str "tags:" ++ [10]
  ++ str "  - ai-chat".

(** No occurrence of [p] starts in [a] when [a] is followed by [p]. *)
Definition clear_before (p a : JSString) : Prop :=
  includes (a ++ removelast p) p = false.

(** ** Sample inputs *)

(** A line of a stream, written with apostrophes for the double quotes of
    its JSON, and closed by its line feed. *)
Definition line (s : string) : JSString := json_lit s ++ [10].

(** The event of an OpenAI-style stream that carries the content [c]. *)
Definition content_event (c : string) : JSString :=
  line ("data: {'choices':[{'delta':{'content':'" ++ c ++ "'}}]}")%string.

(** The sentinel event. *)
Definition done_event : JSString := line "data: [DONE]".

(** [{ content: s, done: false }] *)
Definition text_delta (s : string) : TokenDelta := mkDelta (JStr (str s)) false.

(** Stand-ins for the two printers of the engine, for the inputs on
    which nothing is printed or what is printed is not looked at. *)
Definition no_Number_toString : Z -> Z -> JSString := fun _ _ => [].
Definition no_JSON_stringify : JSValue -> JSString := fun _ => [].

(** A request with one user message. *)
Definition hi_request : ChatRequest :=
  mkChatRequest (str "model") [mkMessage user (str "Hi")] JUndefined JUndefined.

(** Answers to the request for the models. *)
Definition openrouter_models : RequestUrlResponse :=
  mkResponse 200
    (json_lit "{'data':[{'id':'openai/gpt-4o','name':'GPT-4o','context_length':128000},{'id':'x/y'}]}").

Definition ollama_models_with_null : RequestUrlResponse :=
  mkResponse 200 (json_lit "{'models':[{'name':'llama3'},null]}").

Definition gemini_models : RequestUrlResponse :=
  mkResponse 200
    (json_lit "{'models':[{'name':'models/gemini-2.0-flash','displayName':'Gemini 2.0 Flash','inputTokenLimit':1048576,'supportedGenerationMethods':['generateContent','countTokens']},{'name':'models/embedding-001','supportedGenerationMethods':['embedContent']}]}").

(** * Proofs *)

(** ** The fuel of the JSON reader *)

Lemma value_step_mono e e' m m' :
  extends e e' -> extends m m' ->
  extends (value_step e m) (value_step e' m').
Proof.
  intros He Hm s r. unfold value_step.
  destruct (skip_ws s) as [|c t]; [discriminate|].
  destruct (c =? 123).
  - destruct (skip_ws t) as [|c' t']; [discriminate|].
    destruct (c' =? 125); [trivial|].
    destruct (m t) as [[fs rest]|] eqn:E; [|discriminate].
    now rewrite (Hm _ _ E).
  - destruct (c =? 91); [|trivial].
    destruct (skip_ws t) as [|c' t']; [discriminate|].
    destruct (c' =? 93); [trivial|].
    destruct (e t) as [[vs rest]|] eqn:E; [|discriminate].
    now rewrite (He _ _ E).
Qed.

Lemma elements_step_mono v v' e e' :
  extends v v' -> extends e e' ->
  extends (elements_step v e) (elements_step v' e').
Proof.
  intros Hv He s r. unfold elements_step.
  destruct (v s) as [[x t]|] eqn:E; [|discriminate].
  rewrite (Hv _ _ E).
  destruct (skip_ws t) as [|c t']; [discriminate|].
  destruct (c =? 44); [|trivial].
  destruct (e t') as [[vs rest]|] eqn:E'; [|discriminate].
  now rewrite (He _ _ E').
Qed.

Lemma members_step_mono v v' m m' :
  extends v v' -> extends m m' ->
  extends (members_step v m) (members_step v' m').
Proof.
  intros Hv Hm s r. unfold members_step.
  destruct (skip_ws s) as [|q r0]; [discriminate|].
  destruct (q =? 34); [|discriminate].
  destruct (parse_string_body r0) as [[k r1]|]; [|discriminate].
  destruct (skip_ws r1) as [|colon r2]; [discriminate|].
  destruct (colon =? 58); [|discriminate].
  destruct (v r2) as [[x r3]|] eqn:E; [|discriminate].
  rewrite (Hv _ _ E).
  destruct (skip_ws r3) as [|c r4]; [discriminate|].
  destruct (c =? 44); [|trivial].
  destruct (m r4) as [[fs rest]|] eqn:E'; [|discriminate].
  now rewrite (Hm _ _ E').
Qed.

Lemma parse_fuel_step (f : nat) :
  extends (parse_value f) (parse_value (S f))
  /\ extends (parse_elements f) (parse_elements (S f))
  /\ extends (parse_members f) (parse_members (S f)).
Proof.
  induction f as [|f (IHv & IHe & IHm)].
  - repeat split; intros s r H; discriminate H.
  - repeat split.
    + exact (value_step_mono _ _ _ _ IHe IHm).
    + exact (elements_step_mono _ _ _ _ IHv IHe).
    + exact (members_step_mono _ _ _ _ IHv IHm).
Qed.

(** A value that has been read is read again, the same, with more fuel. *)
Lemma parse_value_more_fuel (f f' : nat) (s : JSString)
    (r : JSValue * JSString) :
  (f <= f')%nat -> parse_value f s = Some r -> parse_value f' s = Some r.
Proof.
  induction 1 as [|f' _ IH]; [trivial|].
  intros H. now apply (proj1 (parse_fuel_step f')), IH.
Qed.

(** ** The generator *)

Section GeneratorFacts.
Context {S : Type}.
Variable on_line : S -> JSString -> Step S.
(** What is known of every yielded content. *)
Variable P : JSValue -> Prop.
Hypothesis yields_P :
  forall st line c st', on_line st line = Yield c st' -> P c.

Let body (d : TokenDelta) : Prop := done d = false /\ P (content d).

Lemma for_lines_deltas st lines :
  match for_lines on_line st lines with
  | (ds, Some _) => Forall body ds
  | (ds, None) => exists ds', ds = ds' ++ [terminal] /\ Forall body ds'
  end.
Proof.
  revert st. induction lines as [|line rest IH]; intros st; simpl.
  - constructor.
  - destruct (on_line st line) as [c st'|st'|] eqn:E.
    + specialize (IH st'). destruct (for_lines on_line st' rest) as [ds [s|]].
      * constructor; [split; [reflexivity | exact (yields_P _ _ _ _ E)] | exact IH].
      * destruct IH as (ds' & -> & H). exists (mkDelta c false :: ds'). split.
        -- reflexivity.
        -- constructor; [split; [reflexivity | exact (yields_P _ _ _ _ E)] | exact H].
    + apply IH.
    + exists []. split; [reflexivity | constructor].
Qed.

Lemma read_loop_deltas chunks buffer st :
  match read_loop on_line chunks buffer st with
  | (ds, false) => Forall body ds
  | (ds, true) => exists ds', ds = ds' ++ [terminal] /\ Forall body ds'
  end.
Proof.
  revert buffer st. induction chunks as [|value chunks IH]; intros buffer st; simpl.
  - constructor.
  - pose proof (for_lines_deltas st (removelast (split_lines (buffer ++ value)))) as HL.
    destruct (for_lines on_line st (removelast (split_lines (buffer ++ value))))
      as [ds [st'|]].
    + specialize (IH (List.last (split_lines (buffer ++ value)) []) st').
      destruct (read_loop on_line chunks _ st') as [ds2 [|]].
      * destruct IH as (ds' & -> & H). exists (ds ++ ds'). split.
        -- now rewrite app_assoc.
        -- apply Forall_app; split; assumption.
      * apply Forall_app; split; assumption.
    + exact HL.
Qed.

Lemma generator_deltas st0 chunks :
  exists ds, generator on_line st0 chunks = ds ++ [terminal] /\ Forall body ds.
Proof.
  unfold generator. pose proof (read_loop_deltas chunks [] st0) as H.
  destruct (read_loop on_line chunks [] st0) as [ds [|]].
  - exact H.
  - exists ds. split; [reflexivity | exact H].
Qed.

Lemma for_lines_returned_app st lines more :
  snd (for_lines on_line st lines) = None ->
  for_lines on_line st (lines ++ more) = for_lines on_line st lines.
Proof.
  revert st. induction lines as [|line rest IH]; intros st; simpl.
  - discriminate.
  - destruct (on_line st line) as [c st'|st'|].
    + specialize (IH st'). destruct (for_lines on_line st' rest) as [ds r] eqn:E.
      simpl. intros ->. now rewrite IH.
    + apply IH.
    + reflexivity.
Qed.

Lemma for_lines_finish st before line after :
  (forall st', on_line st' line = Finish) ->
  snd (for_lines on_line st (before ++ [line])) = None /\
  for_lines on_line st (before ++ line :: after)
  = for_lines on_line st (before ++ [line]).
Proof.
  intros Hfin. revert st. induction before as [|l rest IH]; intros st; simpl.
  - rewrite Hfin. now split.
  - destruct (on_line st l) as [c st'|st'|].
    + destruct (IH st') as [H1 H2]. rewrite H2.
      destruct (for_lines on_line st' (rest ++ [line])) as [ds r]. now split.
    + apply IH.
    + now split.
Qed.

Lemma read_loop_returned_app chunks more buffer st :
  snd (read_loop on_line chunks buffer st) = true ->
  read_loop on_line (chunks ++ more) buffer st
  = read_loop on_line chunks buffer st.
Proof.
  revert buffer st. induction chunks as [|value chunks IH]; intros buffer st; simpl.
  - discriminate.
  - destruct (for_lines on_line st (removelast (split_lines (buffer ++ value))))
      as [ds [st'|]].
    + specialize (IH (List.last (split_lines (buffer ++ value)) []) st').
      destruct (read_loop on_line chunks _ st') as [ds2 r] eqn:E.
      simpl. intros ->. now rewrite IH.
    + reflexivity.
Qed.

Lemma generator_returned_app st0 chunks more :
  returned on_line st0 chunks = true ->
  generator on_line st0 (chunks ++ more) = generator on_line st0 chunks.
Proof.
  unfold returned, generator. intros H.
  now rewrite (read_loop_returned_app chunks more [] st0 H).
Qed.
End GeneratorFacts.

(** ** The five bodies of the loop over lines *)



Section LineFacts.
Variable JSON_parse : JSString -> option JSValue.






(** The sentinel line of the three parsers that have one. *)
Lemma openrouter_sentinel st :
  openrouter_on_line JSON_parse st (str "data: [DONE]") = Finish.
Proof. reflexivity. Qed.

Lemma openai_sentinel st :
  openai_on_line JSON_parse st (str "data: [DONE]") = Finish.
Proof. reflexivity. Qed.

Lemma minimax_sentinel showThinking st :
  minimax_on_line JSON_parse showThinking st (str "data: [DONE]") = Finish.
Proof. reflexivity. Qed.

(** The local daemon's terminal signal: any line holding a JSON value
    whose [done] property is truthy. *)
Lemma ollama_signal st line parsed :
  truthy (JStr (trim line)) = true ->
  JSON_parse line = Some parsed ->
  truthy (prop parsed (str "done")) = true ->
  ollama_on_line JSON_parse st line = Finish.
Proof.
  intros Hblank Hparse Hdone. unfold ollama_on_line, parse_json, dot.
  rewrite Hblank, Hparse. simpl.
  destruct (nullish parsed) eqn:Hn.
  - destruct parsed; discriminate.
  - simpl. now rewrite Hdone.
Qed.

(** The Gemini variant has no terminal signal: its generator never
    returns from inside the read loop. *)
Lemma gemini_for_lines_never_returns st lines :
  snd (for_lines (gemini_on_line JSON_parse) st lines) <> None.
Proof.
  revert st. induction lines as [|line rest IH]; intros st; simpl.
  - discriminate.
  - destruct (gemini_on_line JSON_parse st line) as [c st'|st'|] eqn:E.
    + specialize (IH st').
      destruct (for_lines (gemini_on_line JSON_parse) st' rest). exact IH.
    + apply IH.
    + exfalso. revert E. unfold gemini_on_line.
      repeat match goal with
        | |- context [if ?b then _ else _] => destruct b
        | |- context [match ?x with _ => _ end] => destruct x
        end; discriminate.
Qed.

Lemma gemini_never_returns chunks buffer st :
  snd (read_loop (gemini_on_line JSON_parse) chunks buffer st) = false.
Proof.
  revert buffer st. induction chunks as [|value chunks IH]; intros buffer st; simpl.
  - reflexivity.
  - pose proof (gemini_for_lines_never_returns st
                  (removelast (split_lines (buffer ++ value)))) as H.
    destruct (for_lines _ st _) as [ds [st'|]]; [|now elim H].
    specialize (IH (List.last (split_lines (buffer ++ value)) []) st').
    destruct (read_loop _ chunks _ st'). exact IH.
Qed.
End LineFacts.

(** ** The claims on the stream parsers *)

(** C3.  The three lines [data: {"choices":[{"delta":{"content":"Hel"}}]}],
    [data: {"choices":[{"delta":{"content":"lo"}}]}] and [data: [DONE]],
    each closed by a line feed, make the SSE parser of the hosted
    aggregator yield the deltas [Hel] and [lo] with [done = false] and then
    one terminal delta, in that order and nothing after it: whether the
    lines come in three reads or in one, and whatever is read after
    them. *)
Theorem parseSSEStream_round_trip :
  forall more : list JSString,
    parseSSEStream ecma404_parse
      ([content_event "Hel"; content_event "lo"; done_event] ++ more)
    = [text_delta "Hel"; text_delta "lo"; terminal]
    /\ parseSSEStream ecma404_parse
         ((content_event "Hel" ++ content_event "lo" ++ done_event) :: more)
       = [text_delta "Hel"; text_delta "lo"; terminal]
    /\ parseSSEStream ecma404_parse
         [content_event "Hel"; content_event "lo"; done_event]
       = [text_delta "Hel"; text_delta "lo"; terminal].
Proof.
  intros more. repeat split; vm_compute; reflexivity.
Qed.

(** C2.  Whatever the chunks of the stream and whatever [JSON.parse]
    makes of its lines, each of the five stream parsers yields a sequence
    that ends with its only delta with [done = true].  Once the terminal
    signal has been recognised (the generator returned from inside its
    read loop), what is read afterwards adds nothing; the lines that
    follow the sentinel in the same read are not looked at either.  The
    Gemini variant has no terminal signal: its terminal delta follows the
    closure of the stream. *)
Theorem stream_parsers_end_with_one_terminal_delta :
  forall (JSON_parse : JSString -> option JSValue) (showThinking : bool)
         (chunks more : list JSString),
    (well_terminated (parseSSEStream JSON_parse chunks)
     /\ well_terminated (parseStream JSON_parse chunks)
     /\ well_terminated (parseMinimaxStream JSON_parse showThinking chunks)
     /\ well_terminated (parseGeminiStream JSON_parse chunks)
     /\ well_terminated (parseOllamaStream JSON_parse chunks))
    /\ ((returned (openrouter_on_line JSON_parse) tt chunks = true ->
         parseSSEStream JSON_parse (chunks ++ more)
         = parseSSEStream JSON_parse chunks)
        /\ (returned (openai_on_line JSON_parse) tt chunks = true ->
            parseStream JSON_parse (chunks ++ more)
            = parseStream JSON_parse chunks)
        /\ (returned (minimax_on_line JSON_parse showThinking) false chunks
            = true ->
            parseMinimaxStream JSON_parse showThinking (chunks ++ more)
            = parseMinimaxStream JSON_parse showThinking chunks)
        /\ (returned (ollama_on_line JSON_parse) tt chunks = true ->
            parseOllamaStream JSON_parse (chunks ++ more)
            = parseOllamaStream JSON_parse chunks)
        /\ returned (gemini_on_line JSON_parse) tt chunks = false)
    /\ (forall (before after : list JSString) (inThinkBlock : bool),
          let sentinel := str "data: [DONE]" in
          (snd (for_lines (openrouter_on_line JSON_parse) tt
                  (before ++ [sentinel])) = None
           /\ for_lines (openrouter_on_line JSON_parse) tt
                (before ++ sentinel :: after)
              = for_lines (openrouter_on_line JSON_parse) tt
                  (before ++ [sentinel]))
          /\ (snd (for_lines (openai_on_line JSON_parse) tt
                     (before ++ [sentinel])) = None
              /\ for_lines (openai_on_line JSON_parse) tt
                   (before ++ sentinel :: after)
                 = for_lines (openai_on_line JSON_parse) tt
                     (before ++ [sentinel]))
          /\ (snd (for_lines (minimax_on_line JSON_parse showThinking)
                     inThinkBlock (before ++ [sentinel])) = None
              /\ for_lines (minimax_on_line JSON_parse showThinking)
                   inThinkBlock (before ++ sentinel :: after)
                 = for_lines (minimax_on_line JSON_parse showThinking)
                     inThinkBlock (before ++ [sentinel]))
          /\ (forall signal parsed,
                truthy (JStr (trim signal)) = true ->
                JSON_parse signal = Some parsed ->
                truthy (prop parsed (str "done")) = true ->
                snd (for_lines (ollama_on_line JSON_parse) tt
                       (before ++ [signal])) = None
                /\ for_lines (ollama_on_line JSON_parse) tt
                     (before ++ signal :: after)
                   = for_lines (ollama_on_line JSON_parse) tt
                       (before ++ [signal]))).
Proof.
  intros JSON_parse showThinking chunks more.
  assert (Hwt : forall (S : Type) (on_line : S -> JSString -> Step S) st0,
             well_terminated (generator on_line st0 chunks)).
  { intros S on_line st0.
    destruct (generator_deltas on_line (fun _ => True) (fun _ _ _ _ _ => I)
                st0 chunks) as (ds & E & H).
    exists ds. split; [exact E|].
    eapply Forall_impl; [exact H|]. now intros d [Hd _]. }
  split; [|split].
  - repeat split; apply Hwt.
  - repeat split; try apply generator_returned_app.
    apply gemini_never_returns.
  - intros before after inThinkBlock sentinel.
    split; [|split; [|split]].
    + apply for_lines_finish. intros st'. apply openrouter_sentinel.
    + apply for_lines_finish. intros st'. apply openai_sentinel.
    + apply for_lines_finish. intros st'. apply minimax_sentinel.
    + intros signal parsed Hblank Hparse Hdone.
      apply for_lines_finish. intros st'. now apply ollama_signal with parsed.
Qed.

(** The theorem at a stream whose second read holds the sentinel followed
    by one more event, and whose third read holds yet another event. *)
Lemma stream_parsers_end_with_one_terminal_delta_witness :
  returned (openrouter_on_line ecma404_parse) tt
    [content_event "Hel"; done_event ++ content_event "lo"] = true
  /\ parseSSEStream ecma404_parse
       ([content_event "Hel"; done_event ++ content_event "lo"]
        ++ [content_event "!"])
     = parseSSEStream ecma404_parse
         [content_event "Hel"; done_event ++ content_event "lo"]
  /\ parseSSEStream ecma404_parse
       [content_event "Hel"; done_event ++ content_event "lo"]
     = [text_delta "Hel"; terminal].
Proof.
  pose proof (stream_parsers_end_with_one_terminal_delta ecma404_parse false
                [content_event "Hel"; done_event ++ content_event "lo"]
                [content_event "!"]) as (_ & (H & _) & _).
  split; [reflexivity | split; [apply H; reflexivity | reflexivity]].
Defined.


(** C1.  What [parseMinimaxStream] does, with [showThinking = false],
    when the opening delimiter arrives split over two deltas: the filter
    looks for the whole delimiter in each delta, finds none, never enters
    the block, and lets the three deltas through as they came, the text
    inside the block included.  And when the opening delimiter arrives
    whole, the text that precedes it in the same delta is computed and
    then dropped with the rest of the delta. *)
Theorem parseMinimaxStream_split_delimiter :
  parseMinimaxStream ecma404_parse false
    [content_event "<thi"; content_event "nk>hidden</think>Vis";
     content_event "ible"; done_event]
  = [text_delta "<thi"; text_delta "nk>hidden</think>Vis"; text_delta "ible";
     terminal]
  /\ parseMinimaxStream ecma404_parse false
       [content_event "Before<think>hid"; content_event "den</think>Vis";
        content_event "ible"; done_event]
     = [text_delta "Vis"; text_delta "ible"; terminal].
Proof.
  split; vm_compute; reflexivity.
Qed.

(** ** The thinking-block filter on whole delimiters *)

Lemma includes_app (a x p : JSString) :
  includes x p = true -> includes (a ++ x) p = true.
Proof.
  intros H. induction a as [|c a IH]; [exact H|].
  cbn [app includes]. rewrite IH. apply orb_true_r.
Qed.

Lemma startsWith_app (p b : JSString) : startsWith (p ++ b) p = true.
Proof.
  induction p as [|c p IH]; [reflexivity|].
  cbn [app startsWith]. now rewrite N.eqb_refl, IH.
Qed.

Lemma includes_delimiter (a p b : JSString) : includes (a ++ p ++ b) p = true.
Proof.
  apply includes_app. destruct (p ++ b) eqn:E; cbn [includes];
    rewrite <- E, startsWith_app; reflexivity.
Qed.

Lemma after_last_close_none (b : JSString) :
  includes b (str "</think>") = false -> after_last_close b = None.
Proof.
  induction b as [|c b IH]; [reflexivity|].
  cbn [includes after_last_close]. intros H.
  apply orb_false_iff in H as [Hs Hi]. now rewrite (IH Hi), Hs.
Qed.

Lemma after_last_close_app (a b : JSString) :
  includes b (str "</think>") = false ->
  after_last_close (a ++ str "</think>" ++ b) = Some b.
Proof.
  intros Hb. induction a as [|c a IH].
  - change (str "</think>") with [60; 47; 116; 104; 105; 110; 107; 62].
    cbn [app after_last_close]. rewrite (after_last_close_none b Hb).
    reflexivity.
  - cbn [app after_last_close]. now rewrite IH.
Qed.

(** The filter on a delta with whole delimiters or none, as a machine
    with the states outside ([false]) and inside ([true]): outside, a
    delta without opening delimiter passes; an opening delimiter that no
    closing delimiter follows in the delta enters the block, and the delta
    is dropped; inside, a delta without delimiter is dropped; inside, the
    text after the last closing delimiter leaves the block and passes. *)
Lemma think_filter_whole_delimiters (s : JSString) :
  (includes s (str "<think>") = false ->
   think_filter false (JStr s)
   = if truthy (JStr s) then Yield (JStr s) false else Next false)
  /\ (includes s (str "<think>") = true ->
      includes (cut_from_open s) (str "</think>") = false ->
      forall inThinkBlock, think_filter inThinkBlock (JStr s) = Next true)
  /\ (includes s (str "<think>") = false ->
      includes s (str "</think>") = false ->
      think_filter true (JStr s) = Next true)
  /\ (includes s (str "<think>") = false ->
      forall a b : JSString,
        s = a ++ str "</think>" ++ b ->
        includes b (str "</think>") = false ->
        think_filter true (JStr s)
        = if truthy (JStr b) then Yield (JStr b) false else Next false).
Proof.
  unfold think_filter. repeat split.
  - intros ->. reflexivity.
  - intros -> Hc inThinkBlock. cbn [andb]. now rewrite Hc.
  - intros -> Hc. cbn [andb]. now rewrite Hc.
  - intros Ho a b -> Hb. rewrite Ho. cbn [andb].
    rewrite includes_delimiter. unfold cut_through_close.
    now rewrite (after_last_close_app a b Hb).
Qed.

(** The filter at work on a stream whose delimiters arrive whole, each in
    a delta of its own or at the border of one; and the parsers of the
    spec's examples for the two other framings. *)
Example stream_parser_examples :
  parseMinimaxStream ecma404_parse false
    [content_event "<think>hid"; content_event "den";
     content_event "</think>Vis"; content_event "ible"; done_event]
  = [text_delta "Vis"; text_delta "ible"; terminal]
  /\ parseMinimaxStream ecma404_parse true
       [content_event "<think>hidden</think>Vis"; content_event "ible";
        done_event]
     = [text_delta "<think>hidden</think>Vis"; text_delta "ible"; terminal]
  /\ parseOllamaStream ecma404_parse
       [line "{'message':{'content':'Hi'},'done':false}"
        ++ line "{'message':{'content':''},'done':true}"]
     = [text_delta "Hi"; terminal]
  /\ parseSSEStream ecma404_parse
       [json_lit "data: {'choices':[{'delta':{'con";
        json_lit "tent':'Hel'}}]}" ++ [10] ++ done_event]
     = [text_delta "Hel"; terminal]
  /\ parseStream ecma404_parse
       [content_event ""; content_event "Hel"; line "data: not json";
        line ": keep-alive"; done_event]
     = [text_delta "Hel"; terminal]
  /\ parseGeminiStream ecma404_parse
       [line "data: {'candidates':[{'content':{'parts':[{'text':'Hel'}]}}]}";
        line "data: {'candidates':[{'content':{'parts':[{'text':''}]}}]}"]
     = [text_delta "Hel"; terminal].
Proof. repeat split; vm_compute; reflexivity. Qed.

(** ** The claims on [chatStream] *)

(** Where the code does fail fast: on a response without a body channel,
    for the five adapters, and on a status outside 200..299 for the three
    adapters that test [response.ok]; a rejected [fetch] is rethrown by
    all of them. *)
Lemma chatStream_fails_fast :
  forall JSON_parse Number_toString JSON_stringify (p : LLMProvider)
         (request : ChatRequest) (response : FetchResponse),
    body response = None
    \/ (tests_response_ok p = true /\ response_ok response = false) ->
    exists e : JSError,
      chatStream JSON_parse Number_toString JSON_stringify p request
        (Ok response) = Throw e.
Proof.
  intros JSON_parse Number_toString JSON_stringify p request response H.
  destruct p as [o|g|o|m|c]; simpl;
    unfold OpenRouter_chatStream, GoogleAI_chatStream, Ollama_chatStream,
      Minimax_chatStream, OpenAICompatible_chatStream, stream_of_body,
      throw_Error; simpl.
  - destruct H as [-> | [Hp _]]; [eauto | discriminate Hp].
  - destruct (response_ok response); simpl.
    + destruct H as [-> | [_ Hok]]; [eauto | discriminate Hok].
    + destruct (ToString _ _); simpl; eauto.
  - destruct H as [-> | [Hp _]]; [eauto | discriminate Hp].
  - destruct (response_ok response); simpl.
    + destruct H as [-> | [_ Hok]]; [eauto | discriminate Hok].
    + eauto.
  - destruct (response_ok response); simpl.
    + destruct H as [-> | [_ Hok]]; [eauto | discriminate Hok].
    + destruct (ToString _ _); simpl; eauto.
Qed.

Lemma chatStream_rethrows :
  forall JSON_parse Number_toString JSON_stringify (p : LLMProvider)
         (request : ChatRequest) (e : JSError),
    chatStream JSON_parse Number_toString JSON_stringify p request (Throw e)
    = Throw e.
Proof. intros. destruct p; reflexivity. Qed.

(** C4.  What [chatStream] of the hosted aggregator and of the local
    daemon does with a handshake that fails with a status outside
    200..299 and a body: neither tests [response.ok]; both return a
    stream, which then yields nothing but the terminal delta. *)
Theorem chatStream_non_2xx_returns_stream :
  OpenRouter_chatStream ecma404_parse
    (Ok (mkFetch 401 (str "Unauthorized")
           (Some [json_lit "{'error':{'message':'No auth credentials found','code':401}}"])))
  = Ok (mkStreaming [terminal])
  /\ Ollama_chatStream ecma404_parse
       (Ok (mkFetch 404 (str "Not Found")
              (Some [json_lit "{'error':'model not found'}"])))
     = Ok (mkStreaming [terminal])
  /\ response_ok (mkFetch 401 (str "Unauthorized") (Some [])) = false
  /\ response_ok (mkFetch 404 (str "Not Found") (Some [])) = false.
Proof. repeat split; vm_compute; reflexivity. Qed.

(** ** The claims on [validate] *)

Lemma message_or_error_nonempty (e : JSError) : message_or_error e <> [].
Proof.
  unfold message_or_error, Error_toString.
  destruct (err_message e) as [|c m] eqn:E; [|discriminate].
  destruct (err_name e); discriminate.
Qed.

Lemma truthy_string (v : JSValue) :
  string_if_truthy v -> truthy v = true ->
  exists s : JSString, v = JStr s /\ s <> [].
Proof.
  intros Hs Ht. destruct (Hs Ht) as [s ->]. exists s. split; [reflexivity|].
  intros ->. discriminate Ht.
Qed.

(** A [try] whose handler returns in every case returns. *)
Lemma try_catch_returns {A : Type} (body : Result A)
    (handler : JSError -> Result A) :
  (forall e, exists r, handler e = Ok r) ->
  exists r, try_catch body handler = Ok r.
Proof.
  intros H. destruct body as [a|e]; simpl; [eauto | apply H].
Qed.

Lemma validate_never_raises :
  forall JSON_parse JSON_stringify (p : LLMProvider)
         (answer : Result RequestUrlResponse),
    exists r : ValidateResult,
      validate JSON_parse JSON_stringify p answer = Ok r.
Proof.
  intros JSON_parse JSON_stringify p answer.
  destruct p as [o|g|o|m|c]; simpl.
  - apply try_catch_returns. eauto.
  - apply try_catch_returns. eauto.
  - apply try_catch_returns. eauto.
  - apply try_catch_returns. intros e.
    destruct (err_status e) as [[|[]|]|]; eauto.
    repeat match goal with
      | |- context [match ?q with _ => _ end] => destruct q
      end; eauto.
  - unfold OpenAICompatible_validate.
    destruct (negb (truthy (JStr (baseUrl c)))); [eauto|].
    destruct (negb (truthy (JStr (modelId c)))); [eauto|].
    apply try_catch_returns. eauto.
Qed.

Lemma rejected_request_throws (resp : RequestUrlResponse) :
  (resp_status resp = 401 \/ resp_status resp = 403)%Z ->
  requestUrl true (Ok resp)
  = Throw (mkError Error
             (str "Request failed, status " ++ Z_toString (resp_status resp))
             (Some (resp_status resp))).
Proof.
  intros H. unfold requestUrl. simpl.
  destruct H as [-> | ->]; reflexivity.
Qed.

Lemma truthy_JStr (s : JSString) : s <> [] -> truthy (JStr s) = true.
Proof. destruct s; [congruence | reflexivity]. Qed.

(** Closes a goal [exists v, Ok (mkValidate false x) = Ok (mkValidate false v)
    /\ truthy v = true /\ (_ -> exists s, v = JStr s /\ s <> [])] whose [x]
    is a string built by the adapter. *)
Ltac fixed_message :=
  eexists; split; [reflexivity|];
  split;
  [ first [reflexivity | apply truthy_JStr, message_or_error_nonempty]
  | intros _; eexists; split;
    [reflexivity | first [discriminate | apply message_or_error_nonempty]] ].

Lemma validate_rejected_credential :
  forall JSON_parse JSON_stringify (p : LLMProvider)
         (answer : Result RequestUrlResponse),
    credential_rejected answer ->
    exists v : JSValue,
      validate JSON_parse JSON_stringify p answer = Ok (mkValidate false v)
      /\ truthy v = true
      /\ (string_messages JSON_parse answer ->
          exists s : JSString, v = JStr s /\ s <> []).
Proof.
  intros JSON_parse JSON_stringify p answer (resp & -> & Hst).
  assert (Hmsg : string_messages JSON_parse (Ok resp) ->
                 forall json, JSON_parse (resp_text resp) = Some json ->
                   string_if_truthy
                     (opt_prop (prop json (str "error")) (str "message"))
                   /\ string_if_truthy (prop json (str "message"))).
  { intros H json. now apply H. }
  destruct p as [o|g|o|m|c]; simpl.
  - unfold OpenRouter_validate. rewrite (rejected_request_throws resp Hst).
    simpl. fixed_message.
  - unfold GoogleAI_validate, requestUrl, resp_json, parse_json. simpl.
    destruct Hst as [E | E]; rewrite E; simpl; [|fixed_message].
    destruct (JSON_parse (resp_text resp)) as [json|] eqn:P; simpl;
      [|fixed_message].
    assert (Herr : dot (js_or json (JObj [])) (str "error")
                   = Ok (prop json (str "error"))).
    { unfold js_or, dot. destruct json as [| |[]|m e|s'|l|f]; try reflexivity.
      - simpl. destruct (negb (num_is_zero m e)); reflexivity.
      - simpl. destruct (negb (str_eqb s' [])); reflexivity. }
    rewrite Herr. simpl. unfold js_or.
    destruct (truthy (opt_prop (prop json (str "error")) (str "message")))
      eqn:T; [|fixed_message].
    eexists. split; [reflexivity|]. split; [exact T|].
    intros H. destruct (Hmsg H json eq_refl) as [Hm _].
    exact (truthy_string _ Hm T).
  - unfold Ollama_validate. rewrite (rejected_request_throws resp Hst).
    simpl. fixed_message.
  - unfold Minimax_validate. rewrite (rejected_request_throws resp Hst).
    destruct Hst as [E | E]; rewrite E; simpl; fixed_message.
  - unfold OpenAICompatible_validate.
    destruct (negb (truthy (JStr (baseUrl c)))); [fixed_message|].
    destruct (negb (truthy (JStr (modelId c)))); [fixed_message|].
    unfold requestUrl, parse_json. simpl.
    assert (E200 : (resp_status resp =? 200)%Z = false)
      by (destruct Hst as [E | E]; rewrite E; reflexivity).
    rewrite E200.
    destruct (JSON_parse (resp_text resp)) as [json|] eqn:P; simpl;
      [|fixed_message].
    unfold dot. destruct (nullish json) eqn:N; simpl; [fixed_message|].
    destruct (truthy (opt_prop (prop json (str "error")) (str "message")))
      eqn:T; simpl.
    + eexists. split; [reflexivity|]. split; [exact T|].
      intros H. destruct (Hmsg H json eq_refl) as [Hm _].
      exact (truthy_string _ Hm T).
    + unfold js_or. destruct (truthy (prop json (str "message"))) eqn:T';
        [|fixed_message].
      eexists. split; [reflexivity|]. split; [exact T'|].
      intros H. destruct (Hmsg H json eq_refl) as [_ Hm'].
      exact (truthy_string _ Hm' T').
Qed.

(** What every adapter keeps of the contract of [validate]: it returns a
    structured result whatever the transport answers or throws, and when
    the provider rejects the credential (status 401 or 403), the result
    has [valid = false] and an [error] that is present and truthy.  The
    [error] is a non-empty string only as far as the message of the
    provider's error envelope, where there is one, is a string: the
    adapters that read the envelope hand its message on as it is. *)
Theorem validate_returns_structured_result :
  forall JSON_parse JSON_stringify (p : LLMProvider)
         (answer : Result RequestUrlResponse),
    (exists r : ValidateResult,
        validate JSON_parse JSON_stringify p answer = Ok r)
    /\ (credential_rejected answer ->
        exists v : JSValue,
          validate JSON_parse JSON_stringify p answer = Ok (mkValidate false v)
          /\ truthy v = true
          /\ (string_messages JSON_parse answer ->
              exists s : JSString, v = JStr s /\ s <> [])).
Proof.
  intros. split.
  - apply validate_never_raises.
  - apply validate_rejected_credential.
Qed.

(** The theorem at the Gemini-style adapter, for a key the provider
    answers with status 401 and an error envelope. *)
Lemma validate_returns_structured_result_witness :
  exists s : JSString,
    validate ecma404_parse no_JSON_stringify
      (GoogleAI (mkGoogleAI (str "bad-key")))
      (Ok (mkResponse 401
             (json_lit "{'error':{'code':401,'message':'API key not valid.'}}")))
    = Ok (mkValidate false (JStr s))
    /\ s <> [].
Proof.
  destruct (proj2 (validate_returns_structured_result ecma404_parse
                     no_JSON_stringify (GoogleAI (mkGoogleAI (str "bad-key")))
                     (Ok (mkResponse 401
                            (json_lit "{'error':{'code':401,'message':'API key not valid.'}}")))))
    as (v & Hv & _ & Hs).
  - eexists. split; [reflexivity | left; reflexivity].
  - destruct Hs as (s & -> & Hne).
    + intros resp json Hr Hj. injection Hr as <-.
      vm_compute in Hj. injection Hj as <-.
      split; intros Ht; [eexists; reflexivity | discriminate Ht].
    + exists s. split; [exact Hv | exact Hne].
Defined.

(** What the five adapters answer to a rejected credential. *)
Example validate_rejected_examples :
  validate ecma404_parse no_JSON_stringify (GoogleAI (mkGoogleAI (str "bad-key")))
    (Ok (mkResponse 401
           (json_lit "{'error':{'code':401,'message':'API key not valid.'}}")))
  = Ok (mkValidate false (JStr (str "API key not valid.")))
  /\ validate ecma404_parse no_JSON_stringify
       (Minimax (new_MinimaxProvider (str "bad-key") international false))
       (Ok (mkResponse 401 []))
     = Ok (mkValidate false (JStr (str "Invalid API key")))
  /\ validate ecma404_parse no_JSON_stringify
       (OpenRouter (mkOpenRouter (str "bad-key") None))
       (Ok (mkResponse 401 []))
     = Ok (mkValidate false (JStr (str "Request failed, status 401")))
  /\ validate ecma404_parse no_JSON_stringify
       (Ollama (mkOllama (str "http://localhost:11434")))
       (Ok (mkResponse 403 []))
     = Ok (mkValidate false
             (JStr (str "Cannot connect to Ollama at http://localhost:11434")))
  /\ validate ecma404_parse no_JSON_stringify
       (OpenAICompatible
          (new_OpenAICompatibleProvider (str "https://api.example.com")
             (str "bad-key") (str "model")))
       (Ok (mkResponse 401 (json_lit "{'message':'Unauthorized'}")))
     = Ok (mkValidate false (JStr (str "Unauthorized"))).
Proof. repeat split; vm_compute; reflexivity. Qed.

(** C5.  What [validate] does when the provider rejects the credential
    with status 401 and an error envelope whose message is not a string
    (here a list of messages).  No adapter raises.  The Gemini-style
    adapter and the generic adapter return the message of the envelope as
    they find it, [error.message] or, for the generic adapter, [message]:
    the [error] of the result is then an array, not a string.  The
    [catch] branch of the Gemini-style adapter, which converts what it
    caught, and the three other adapters at the same answer return a
    string. *)
Theorem validate_error_not_a_string :
  validate ecma404_parse no_JSON_stringify
    (GoogleAI (mkGoogleAI (str "bad-key")))
    (Ok (mkResponse 401
           (json_lit "{'error':{'code':401,'message':['Invalid API key']}}")))
  = Ok (mkValidate false (JArr [JStr (str "Invalid API key")]))
  /\ validate ecma404_parse no_JSON_stringify
       (OpenAICompatible
          (new_OpenAICompatibleProvider (str "https://api.example.com")
             (str "bad-key") (str "model")))
       (Ok (mkResponse 401
              (json_lit "{'error':{'code':401,'message':['Invalid API key']}}")))
     = Ok (mkValidate false (JArr [JStr (str "Invalid API key")]))
  /\ validate ecma404_parse no_JSON_stringify
       (OpenAICompatible
          (new_OpenAICompatibleProvider (str "https://api.example.com")
             (str "bad-key") (str "model")))
       (Ok (mkResponse 401
              (json_lit "{'statusCode':401,'message':['Invalid API key'],'error':'Unauthorized'}")))
     = Ok (mkValidate false (JArr [JStr (str "Invalid API key")]))
  /\ validate ecma404_parse no_JSON_stringify
       (GoogleAI (mkGoogleAI (str "bad-key")))
       (Throw (new_Error (str "net::ERR_FAILED")))
     = Ok (mkValidate false (JStr (str "net::ERR_FAILED")))
  /\ validate ecma404_parse no_JSON_stringify
       (OpenRouter (mkOpenRouter (str "bad-key") None))
       (Ok (mkResponse 401
              (json_lit "{'error':{'code':401,'message':['Invalid API key']}}")))
     = Ok (mkValidate false (JStr (str "Request failed, status 401")))
  /\ validate ecma404_parse no_JSON_stringify
       (Minimax (new_MinimaxProvider (str "bad-key") international false))
       (Ok (mkResponse 401
              (json_lit "{'error':{'code':401,'message':['Invalid API key']}}")))
     = Ok (mkValidate false (JStr (str "Invalid API key")))
  /\ validate ecma404_parse no_JSON_stringify
       (Ollama (mkOllama (str "http://localhost:11434")))
       (Ok (mkResponse 401
              (json_lit "{'error':{'code':401,'message':['Invalid API key']}}")))
     = Ok (mkValidate false
             (JStr (str "Cannot connect to Ollama at http://localhost:11434"))).
Proof. repeat split; vm_compute; reflexivity. Qed.

(** ** The claims on [chat] *)

(** C7.  When the Gemini-style provider answers [chat] with status 200
    and a body whose [promptFeedback.blockReason] is set, [chat] raises:
    it returns no [ChatResponse], whatever text the body holds, empty or
    not; and for a block reason that is a string, as the provider sends
    it, the error is the one of blocked content, with the message
    [Content blocked: ] followed by the reason. *)
Theorem GoogleAI_chat_blocked_content :
  forall JSON_parse Number_toString
         (resp : RequestUrlResponse) (data reason : JSValue),
    resp_status resp = 200%Z ->
    JSON_parse (resp_text resp) = Some data ->
    blockReason data = Ok reason ->
    truthy reason = true ->
    (exists e : JSError,
        GoogleAI_chat JSON_parse Number_toString (Ok resp) = Throw e)
    /\ (forall s : JSString,
          reason = JStr s ->
          GoogleAI_chat JSON_parse Number_toString (Ok resp)
          = Throw (new_Error (str "Content blocked: " ++ s))).
Proof.
  intros JSON_parse Number_toString resp data reason Hst Hparse Hreason Ht.
  unfold GoogleAI_chat, requestUrl, resp_json, parse_json.
  cbn [bind andb]. rewrite Hst, Hparse. cbn [Z.eqb Pos.eqb negb bind].
  rewrite Hreason. cbn [bind]. rewrite Ht. split.
  - destruct (ToString Number_toString reason); cbn [bind]; eauto.
  - intros s ->. reflexivity.
Qed.

(** The theorem at a blocked prompt, once with a candidate text in the
    body and once without. *)
Lemma GoogleAI_chat_blocked_content_witness :
  GoogleAI_chat ecma404_parse no_Number_toString
    (Ok (mkResponse 200
           (json_lit "{'promptFeedback':{'blockReason':'SAFETY'},'candidates':[{'content':{'parts':[{'text':'Hello'}]}}]}")))
  = Throw (new_Error (str "Content blocked: " ++ str "SAFETY"))
  /\ GoogleAI_chat ecma404_parse no_Number_toString
       (Ok (mkResponse 200 (json_lit "{'promptFeedback':{'blockReason':'SAFETY'}}")))
     = Throw (new_Error (str "Content blocked: " ++ str "SAFETY")).
Proof.
  split.
  - apply (proj2 (GoogleAI_chat_blocked_content ecma404_parse no_Number_toString
                    (mkResponse 200
                       (json_lit "{'promptFeedback':{'blockReason':'SAFETY'},'candidates':[{'content':{'parts':[{'text':'Hello'}]}}]}"))
                    (JObj [(str "promptFeedback",
                            JObj [(str "blockReason", JStr (str "SAFETY"))]);
                           (str "candidates",
                            JArr [JObj [(str "content",
                                         JObj [(str "parts",
                                                JArr [JObj [(str "text", JStr (str "Hello"))]])])]])])
                    (JStr (str "SAFETY"))
                    eq_refl eq_refl eq_refl eq_refl)).
    reflexivity.
  - apply (proj2 (GoogleAI_chat_blocked_content ecma404_parse no_Number_toString
                    (mkResponse 200 (json_lit "{'promptFeedback':{'blockReason':'SAFETY'}}"))
                    (JObj [(str "promptFeedback",
                            JObj [(str "blockReason", JStr (str "SAFETY"))])])
                    (JStr (str "SAFETY"))
                    eq_refl eq_refl eq_refl eq_refl)).
    reflexivity.
Defined.

Lemma dot_ok (v : JSValue) (k : JSString) :
  nullish v = false -> dot v k = Ok (prop v k).
Proof. intros H. unfold dot. now rewrite H. Qed.

Lemma dot_inv (v : JSValue) (k : JSString) (x : JSValue) :
  dot v k = Ok x -> nullish v = false /\ x = prop v k.
Proof.
  unfold dot. destruct (nullish v); [discriminate|].
  intros H. injection H as <-. now split.
Qed.


(** Follows a hypothesis [H : ... = Ok _] through the sequence of calls
    that led to it, discarding the paths that throw. *)
Ltac bind_inv H :=
  repeat match type of H with
    | bind ?r _ = Ok _ =>
        let E := fresh "E" in
        destruct r eqn:E; cbn [bind] in H; [|discriminate H]
    | (if ?b then _ else _) = Ok _ =>
        let E := fresh "E" in destruct b eqn:E
    | Throw _ = Ok _ => discriminate H
    | throw_Error _ _ = Ok _ => unfold throw_Error in H
    end.






(** ** Strings *)

Lemma str_eqb_refl (s : JSString) : str_eqb s s = true.
Proof.
  induction s as [|c s IH]; simpl; [reflexivity|].
  now rewrite N.eqb_refl, IH.
Qed.

Lemma str_eqb_eq (a b : JSString) : str_eqb a b = true <-> a = b.
Proof.
  split.
  - revert b. induction a as [|x a IH]; intros [|y b]; simpl; try discriminate.
    + reflexivity.
    + intros H. apply andb_prop in H as [Hx Hr].
      apply N.eqb_eq in Hx. subst. f_equal. now apply IH.
  - intros ->. apply str_eqb_refl.
Qed.

Lemma all_slashes_repeat (s : JSString) :
  forallb (N.eqb 47) s = true -> s = repeat 47 (List.length s).
Proof.
  induction s as [|c s IH]; cbn [forallb List.length repeat]; [reflexivity|].
  intros H. apply andb_prop in H as [Hc Hs].
  apply N.eqb_eq in Hc. subst c. f_equal. now apply IH.
Qed.

Lemma repeat_all_slashes (n : nat) : forallb (N.eqb 47) (repeat 47 n) = true.
Proof. induction n; simpl; [reflexivity | exact IHn]. Qed.

(** [s.endsWith('/')] looks at the last code unit. *)
Lemma endsWith_slash_cons (c : N) (s : JSString) :
  endsWith (c :: s) (str "/")
  = match s with
    | [] => c =? 47
    | _ :: _ => endsWith s (str "/")
    end.
Proof.
  unfold endsWith. change (rev (str "/")) with [47]. simpl rev.
  destruct s as [|d s]; simpl.
  - now rewrite andb_true_r.
  - destruct (rev s ++ [d]) as [|x l] eqn:E.
    + destruct (rev s); discriminate E.
    + simpl. reflexivity.
Qed.

(** The regular expression of the constructor removes the whole run of
    slashes the text ends with, and nothing else. *)
Lemma replace_trailing_slashes_spec (s : JSString) :
  exists n : nat,
    s = replace_trailing_slashes s ++ repeat 47 n
    /\ endsWith (replace_trailing_slashes s) (str "/") = false.
Proof.
  induction s as [|c s (n & Hs & He)]; simpl.
  - exists O. now split.
  - destruct ((c =? 47) && forallb (N.eqb 47) s) eqn:E.
    + apply andb_prop in E as [Hc Hall]. apply N.eqb_eq in Hc. subst c.
      exists (S (List.length s)). split; [|reflexivity].
      simpl. f_equal. now apply all_slashes_repeat.
    + exists n. split.
      * simpl. now f_equal.
      * rewrite endsWith_slash_cons.
        destruct (replace_trailing_slashes s) as [|d r] eqn:R; [|exact He].
        simpl in Hs. rewrite Hs, repeat_all_slashes, andb_true_r in E. exact E.
Qed.

(** ** The claims on the constructor and on the registry *)

(** C6.  The constructor of the generic OpenAI-compatible adapter takes
    the configured URL without the whole run of slashes it ends with,
    [u]; keeps [u] when it holds [/chat/completions]; otherwise appends
    [/chat/completions] to a [u] that ends in [/v1], nothing to a [u]
    that ends in [/completions], and [/v1/chat/completions] to any other
    [u].  The requests of [validate], [chat] and [chatStream] carry the
    resulting URL, and the three methods behave as they do with a
    transport that answers at that URL only. *)
Theorem OpenAICompatible_baseUrl_normalized :
  forall (baseUrl0 apiKey0 modelId0 : JSString),
    let p := new_OpenAICompatibleProvider baseUrl0 apiKey0 modelId0 in
    exists (u : JSString) (n : nat),
      baseUrl0 = u ++ repeat 47 n
      /\ endsWith u (str "/") = false
      /\ baseUrl p
         = (if includes u (str "/chat/completions") then u
            else if endsWith u (str "/v1") then u ++ str "/chat/completions"
            else if endsWith u (str "/completions") then u
            else u ++ str "/v1/chat/completions")
      /\ apiKey p = apiKey0 /\ modelId p = modelId0
      /\ (forall JSON_stringify request streaming,
            url (OpenAICompatible_validate_request JSON_stringify p) = baseUrl p
            /\ url (OpenAICompatible_chat_request JSON_stringify p request
                      streaming) = baseUrl p)
      /\ (forall JSON_parse Number_toString JSON_stringify request net fetch,
            OpenAICompatible_validate JSON_parse JSON_stringify p net
            = OpenAICompatible_validate JSON_parse JSON_stringify p
                (only_at (baseUrl p) net)
            /\ OpenAICompatible_chat JSON_parse Number_toString JSON_stringify
                 p request net
               = OpenAICompatible_chat JSON_parse Number_toString
                   JSON_stringify p request (only_at (baseUrl p) net)
            /\ OpenAICompatible_chatStream JSON_parse Number_toString
                 JSON_stringify p request fetch
               = OpenAICompatible_chatStream JSON_parse Number_toString
                   JSON_stringify p request (only_at (baseUrl p) fetch)).
Proof.
  intros baseUrl0 apiKey0 modelId0 p.
  destruct (replace_trailing_slashes_spec baseUrl0) as (n & Hs & He).
  exists (replace_trailing_slashes baseUrl0), n.
  split; [exact Hs|]. split; [exact He|]. split.
  - subst p. unfold new_OpenAICompatibleProvider. simpl baseUrl.
    destruct (includes _ (str "/chat/completions")); simpl; [reflexivity|].
    destruct (endsWith _ (str "/v1")); [reflexivity|].
    destruct (endsWith _ (str "/completions")); reflexivity.
  - split; [reflexivity|]. split; [reflexivity|]. split.
    + intros. split; reflexivity.
    + intros. unfold OpenAICompatible_validate, OpenAICompatible_chat,
        OpenAICompatible_chatStream, only_at.
      unfold OpenAICompatible_validate_request, OpenAICompatible_chat_request.
      simpl url. rewrite !str_eqb_refl. repeat split; reflexivity.
Qed.

(** The constructor on the shapes of URL that users configure. *)
Example new_OpenAICompatibleProvider_examples :
  baseUrl (new_OpenAICompatibleProvider (str "https://api.deepseek.com/") [] [])
  = str "https://api.deepseek.com/v1/chat/completions"
  /\ baseUrl (new_OpenAICompatibleProvider (str "http://localhost:1234/v1//") [] [])
     = str "http://localhost:1234/v1/chat/completions"
  /\ baseUrl (new_OpenAICompatibleProvider
                (str "https://api.z.ai/api/paas/v4/chat/completions/") [] [])
     = str "https://api.z.ai/api/paas/v4/chat/completions"
  /\ baseUrl (new_OpenAICompatibleProvider (str "https://host/v1/completions") [] [])
     = str "https://host/v1/completions"
  /\ baseUrl (new_OpenAICompatibleProvider [] [] [])
     = str "/v1/chat/completions".
Proof. repeat split. Qed.

(** C9.  After two providers with the same identifier have been
    registered one after the other, [get] at that identifier gives the
    second; and after [clear], [get] gives [undefined] at every
    identifier.  [get] is a total function: it does not throw. *)
Theorem register_twice_then_clear :
  forall (r : ProviderRegistry) (p1 p2 : LLMProvider),
    provider_id p1 = provider_id p2 ->
    get (register (register r p1) p2) (provider_id p1) = Some p2
    /\ (forall id : JSString,
          get (clear (register (register r p1) p2)) id = None).
Proof.
  intros r p1 p2 Hid. split.
  - unfold get, register. simpl. rewrite Hid. apply lookup_insert_eq.
  - intros id. unfold get, clear. simpl. apply lookup_empty.
Qed.

(** The theorem at two local-daemon adapters that differ in their
    endpoint. *)
Lemma register_twice_then_clear_witness :
  get (register (register new_ProviderRegistry
                   (Ollama (mkOllama (str "http://localhost:11434"))))
         (Ollama (mkOllama (str "http://10.0.0.2:11434"))))
    (str "ollama")
  = Some (Ollama (mkOllama (str "http://10.0.0.2:11434")))
  /\ (forall id : JSString,
        get (clear (register (register new_ProviderRegistry
                                (Ollama (mkOllama (str "http://localhost:11434"))))
                      (Ollama (mkOllama (str "http://10.0.0.2:11434")))))
          id = None).
Proof.
  apply (register_twice_then_clear new_ProviderRegistry
           (Ollama (mkOllama (str "http://localhost:11434")))
           (Ollama (mkOllama (str "http://10.0.0.2:11434")))).
  reflexivity.
Defined.

(** * Further properties of the provider layer *)

(** ** Line buffering *)

Lemma split_lines_nonempty (s : JSString) : split_lines s <> [].
Proof.
  induction s as [|c s IH]; simpl; [discriminate|].
  destruct (c =? 10); [discriminate|].
  destruct (split_lines s); [contradiction | discriminate].
Qed.

Lemma removelast_cons {A : Type} (x : A) (l : list A) :
  l <> [] -> removelast (x :: l) = x :: removelast l.
Proof. destruct l; [contradiction | reflexivity]. Qed.

Lemma last_cons {A : Type} (x d : A) (l : list A) :
  l <> [] -> List.last (x :: l) d = List.last l d.
Proof. destruct l; [contradiction | reflexivity]. Qed.

Lemma last_app_nonempty {A : Type} (l1 l2 : list A) (d : A) :
  l2 <> [] -> List.last (l1 ++ l2) d = List.last l2 d.
Proof.
  intros H. induction l1 as [|x l1 IH]; [reflexivity|].
  cbn [app]. rewrite last_cons; [exact IH|].
  destruct l1; [exact H | discriminate].
Qed.

(** Splitting a text that is received in two parts: the complete lines
    of the first part, then the lines of what it left in the buffer
    followed by the second part. *)
Lemma split_lines_app (a b : JSString) :
  split_lines (a ++ b)
  = complete_lines a ++ split_lines (partial_line a ++ b).
Proof.
  unfold complete_lines, partial_line.
  induction a as [|c a IH]; [reflexivity|].
  pose proof (split_lines_nonempty a) as Hne.
  cbn [app split_lines]. destruct (c =? 10) eqn:E.
  - rewrite IH, removelast_cons, last_cons by exact Hne. reflexivity.
  - rewrite IH. destruct (split_lines a) as [|l ls] eqn:Ea; [contradiction|].
    destruct ls as [|l' ls'].
    + cbn [removelast List.last app split_lines]. rewrite E. reflexivity.
    + rewrite !removelast_cons, !last_cons by discriminate. reflexivity.
Qed.

Lemma complete_lines_app (a b : JSString) :
  complete_lines (a ++ b)
  = complete_lines a ++ complete_lines (partial_line a ++ b).
Proof.
  unfold complete_lines at 1. rewrite split_lines_app.
  apply removelast_app, split_lines_nonempty.
Qed.

Lemma partial_line_app (a b : JSString) :
  partial_line (a ++ b) = partial_line (partial_line a ++ b).
Proof.
  unfold partial_line at 1. rewrite split_lines_app.
  apply last_app_nonempty, split_lines_nonempty.
Qed.

Lemma split_lines_no_line_feed (t : JSString) :
  no_line_feed t -> split_lines t = [t].
Proof.
  unfold no_line_feed. induction t as [|c t IH]; [reflexivity|].
  cbn [forallb split_lines]. intros H. apply andb_prop in H as [Hc Ht].
  apply negb_true_iff in Hc. rewrite Hc, (IH Ht). reflexivity.
Qed.

Lemma split_lines_line (l b : JSString) :
  no_line_feed l -> split_lines (l ++ 10 :: b) = l :: split_lines b.
Proof.
  unfold no_line_feed. induction l as [|c l IH]; [reflexivity|].
  cbn [forallb app split_lines]. intros H. apply andb_prop in H as [Hc Hl].
  apply negb_true_iff in Hc. rewrite Hc, (IH Hl). reflexivity.
Qed.

Lemma partial_line_no_line_feed (s : JSString) : no_line_feed (partial_line s).
Proof.
  unfold no_line_feed, partial_line.
  induction s as [|c s IH]; [reflexivity|].
  pose proof (split_lines_nonempty s) as Hne.
  cbn [split_lines]. destruct (c =? 10) eqn:E.
  - rewrite last_cons by exact Hne. exact IH.
  - destruct (split_lines s) as [|l ls]; [contradiction|].
    destruct ls as [|l' ls'].
    + cbn [List.last forallb] in *. now rewrite E, IH.
    + rewrite last_cons by discriminate. rewrite last_cons in IH by discriminate.
      exact IH.
Qed.

Section Buffering.
Context {S : Type}.
Variable on_line : S -> JSString -> Step S.

Lemma for_lines_app (st : S) (l1 l2 : list JSString) :
  for_lines on_line st (l1 ++ l2)
  = match for_lines on_line st l1 with
    | (ds, None) => (ds, None)
    | (ds, Some st') =>
        let (ds', r) := for_lines on_line st' l2 in (ds ++ ds', r)
    end.
Proof.
  revert st. induction l1 as [|l l1 IH]; intros st; cbn [app for_lines].
  - now destruct (for_lines on_line st l2).
  - destruct (on_line st l) as [c st'|st'|].
    + rewrite IH. destruct (for_lines on_line st' l1) as [ds [st''|]].
      * now destruct (for_lines on_line st'' l2).
      * reflexivity.
    + apply IH.
    + reflexivity.
Qed.

(** The read loop, read after read, does what one loop over the complete
    lines of the whole text does. *)
Lemma read_loop_lines (chunks : list JSString) (buffer : JSString) (st : S) :
  no_line_feed buffer ->
  read_loop on_line chunks buffer st
  = let (ds, r) :=
      for_lines on_line st (complete_lines (buffer ++ List.concat chunks)) in
    (ds, match r with None => true | Some _ => false end).
Proof.
  revert buffer st. induction chunks as [|value chunks IH]; intros buffer st Hb.
  - cbn [List.concat read_loop]. rewrite app_nil_r. unfold complete_lines.
    rewrite (split_lines_no_line_feed buffer Hb). reflexivity.
  - cbn [List.concat read_loop]. rewrite app_assoc, complete_lines_app.
    fold (complete_lines (buffer ++ value)).
    fold (partial_line (buffer ++ value)).
    rewrite for_lines_app.
    destruct (for_lines on_line st (complete_lines (buffer ++ value)))
      as [ds [st'|]]; [|reflexivity].
    rewrite (IH _ st' (partial_line_no_line_feed (buffer ++ value))).
    now destruct (for_lines on_line st' _) as [ds' [st''|]].
Qed.

Lemma generator_concat (st0 : S) (chunks : list JSString) :
  generator on_line st0 chunks = generator on_line st0 [List.concat chunks].
Proof.
  unfold generator.
  rewrite (read_loop_lines chunks [] st0 eq_refl).
  rewrite (read_loop_lines [List.concat chunks] [] st0 eq_refl).
  cbn [List.concat]. now rewrite app_nil_r.
Qed.

Lemma generator_partial_line (st0 : S) (chunks : list JSString)
    (t : JSString) :
  no_line_feed t ->
  generator on_line st0 (chunks ++ [t]) = generator on_line st0 chunks.
Proof.
  intros Ht. unfold generator.
  rewrite (read_loop_lines (chunks ++ [t]) [] st0 eq_refl).
  rewrite (read_loop_lines chunks [] st0 eq_refl).
  rewrite concat_app. cbn [List.concat app]. rewrite app_nil_r.
  rewrite complete_lines_app.
  assert (E : complete_lines (partial_line (List.concat chunks) ++ t) = []).
  { unfold complete_lines. rewrite split_lines_no_line_feed; [reflexivity|].
    unfold no_line_feed. rewrite forallb_app.
    now rewrite (partial_line_no_line_feed (List.concat chunks)), Ht. }
  rewrite E, app_nil_r. reflexivity.
Qed.

Lemma for_lines_skip (st : S) (before after : list JSString) (l : JSString) :
  skipped on_line l ->
  for_lines on_line st (before ++ l :: after)
  = for_lines on_line st (before ++ after).
Proof.
  intros Hl. rewrite !for_lines_app.
  destruct (for_lines on_line st before) as [ds [st'|]]; [|reflexivity].
  cbn [for_lines]. now rewrite Hl.
Qed.

(** A whole line that the loop passes over can be taken out of the text,
    wherever it stands. *)
Lemma generator_skip (st0 : S) (a b l : JSString) :
  partial_line a = [] -> no_line_feed l -> skipped on_line l ->
  generator on_line st0 [a ++ l ++ [10] ++ b]
  = generator on_line st0 [a ++ b].
Proof.
  intros Ha Hnl Hl. unfold generator.
  rewrite !(read_loop_lines _ [] st0 eq_refl).
  cbn [List.concat app]. rewrite !app_nil_r.
  rewrite (complete_lines_app a b), Ha. cbn [app].
  rewrite (complete_lines_app a), Ha. cbn [app].
  assert (E : complete_lines (l ++ 10 :: b) = l :: complete_lines b).
  { unfold complete_lines. rewrite (split_lines_line l b Hnl).
    apply removelast_cons, split_lines_nonempty. }
  rewrite E, for_lines_skip by exact Hl. reflexivity.
Qed.
End Buffering.

(** How the stream is cut into reads does not matter: two lists of chunks
    that make up the same text give the same deltas, with each of the five
    parsers. *)
Theorem stream_parsers_ignore_chunking :
  forall (JSON_parse : JSString -> option JSValue) (showThinking : bool)
         (chunks chunks' : list JSString),
    List.concat chunks = List.concat chunks' ->
    parseSSEStream JSON_parse chunks = parseSSEStream JSON_parse chunks'
    /\ parseStream JSON_parse chunks = parseStream JSON_parse chunks'
    /\ parseMinimaxStream JSON_parse showThinking chunks
       = parseMinimaxStream JSON_parse showThinking chunks'
    /\ parseGeminiStream JSON_parse chunks = parseGeminiStream JSON_parse chunks'
    /\ parseOllamaStream JSON_parse chunks = parseOllamaStream JSON_parse chunks'.
Proof.
  intros JSON_parse showThinking chunks chunks' E.
  unfold parseSSEStream, parseStream, parseMinimaxStream, parseGeminiStream,
    parseOllamaStream.
  repeat split;
    rewrite (generator_concat _ _ chunks), (generator_concat _ _ chunks'), E;
    reflexivity.
Qed.

(** The theorem at an event cut in the middle of its JSON and, in the
    other stream, received byte by byte with the next event. *)
Lemma stream_parsers_ignore_chunking_witness :
  parseSSEStream ecma404_parse
    [json_lit "data: {'choices':[{'del"; json_lit "ta':{'content':'Hel'}}]}" ++ [10]]
  = parseSSEStream ecma404_parse [content_event "Hel"].
Proof.
  apply (stream_parsers_ignore_chunking ecma404_parse false
           [json_lit "data: {'choices':[{'del";
            json_lit "ta':{'content':'Hel'}}]}" ++ [10]]
           [content_event "Hel"]).
  reflexivity.
Defined.

(** What is received after the last line feed is never parsed: when the
    stream closes, an event that no line feed has closed is lost, with
    each of the five parsers. *)
Theorem stream_parsers_drop_unterminated_line :
  forall (JSON_parse : JSString -> option JSValue) (showThinking : bool)
         (chunks : list JSString) (t : JSString),
    no_line_feed t ->
    parseSSEStream JSON_parse (chunks ++ [t]) = parseSSEStream JSON_parse chunks
    /\ parseStream JSON_parse (chunks ++ [t]) = parseStream JSON_parse chunks
    /\ parseMinimaxStream JSON_parse showThinking (chunks ++ [t])
       = parseMinimaxStream JSON_parse showThinking chunks
    /\ parseGeminiStream JSON_parse (chunks ++ [t])
       = parseGeminiStream JSON_parse chunks
    /\ parseOllamaStream JSON_parse (chunks ++ [t])
       = parseOllamaStream JSON_parse chunks.
Proof.
  intros JSON_parse showThinking chunks t Ht.
  repeat split; apply generator_partial_line; exact Ht.
Qed.

(** The theorem at a Gemini stream whose last event lacks its line feed. *)
Lemma stream_parsers_drop_unterminated_line_witness :
  parseGeminiStream ecma404_parse
    ([line "data: {'candidates':[{'content':{'parts':[{'text':'Hel'}]}}]}"]
     ++ [json_lit "data: {'candidates':[{'content':{'parts':[{'text':'lo'}]}}]}"])
  = parseGeminiStream ecma404_parse
      [line "data: {'candidates':[{'content':{'parts':[{'text':'Hel'}]}}]}"].
Proof.
  apply (stream_parsers_drop_unterminated_line ecma404_parse false
           [line "data: {'candidates':[{'content':{'parts':[{'text':'Hel'}]}}]}"]
           (json_lit "data: {'candidates':[{'content':{'parts':[{'text':'lo'}]}}]}")).
  reflexivity.
Defined.

(** A whole line that does not start with [data: ] (a comment, an
    [event:] field, an empty line) is passed over by the four SSE parsers,
    wherever it stands in the stream. *)
Theorem sse_parsers_skip_other_fields :
  forall (JSON_parse : JSString -> option JSValue) (showThinking : bool)
         (a b l : JSString),
    partial_line a = [] -> no_line_feed l ->
    startsWith l (str "data: ") = false ->
    parseSSEStream JSON_parse [a ++ l ++ [10] ++ b]
    = parseSSEStream JSON_parse [a ++ b]
    /\ parseStream JSON_parse [a ++ l ++ [10] ++ b]
       = parseStream JSON_parse [a ++ b]
    /\ parseMinimaxStream JSON_parse showThinking [a ++ l ++ [10] ++ b]
       = parseMinimaxStream JSON_parse showThinking [a ++ b]
    /\ parseGeminiStream JSON_parse [a ++ l ++ [10] ++ b]
       = parseGeminiStream JSON_parse [a ++ b].
Proof.
  intros JSON_parse showThinking a b l Ha Hnl Hl.
  repeat split; apply generator_skip; try assumption; intros st.
  - unfold openrouter_on_line. now rewrite Hl.
  - unfold openai_on_line. now rewrite Hl.
  - unfold minimax_on_line. now rewrite Hl.
  - unfold gemini_on_line. now rewrite Hl.
Qed.

(** The theorem at a keep-alive comment between two events. *)
Lemma sse_parsers_skip_other_fields_witness :
  parseStream ecma404_parse
    [content_event "Hel" ++ str ": keep-alive" ++ [10] ++ content_event "lo"]
  = parseStream ecma404_parse [content_event "Hel" ++ content_event "lo"].
Proof.
  apply (sse_parsers_skip_other_fields ecma404_parse false
           (content_event "Hel") (content_event "lo") (str ": keep-alive"));
    reflexivity.
Defined.

(** A whole line whose payload [JSON.parse] rejects is passed over,
    wherever it stands in the stream: the data of an SSE line (trimmed by
    the parsers that trim it, and other than the sentinel), or the line
    of the local daemon. *)
Theorem stream_parsers_skip_malformed_json :
  forall (JSON_parse : JSString -> option JSValue) (showThinking : bool)
         (a b l : JSString),
    partial_line a = [] -> no_line_feed l ->
    (JSON_parse (slice 6 l) = None ->
     (slice 6 l <> str "[DONE]" ->
      parseSSEStream JSON_parse [a ++ l ++ [10] ++ b]
      = parseSSEStream JSON_parse [a ++ b])
     /\ parseGeminiStream JSON_parse [a ++ l ++ [10] ++ b]
        = parseGeminiStream JSON_parse [a ++ b])
    /\ (JSON_parse (trim (slice 6 l)) = None ->
        trim (slice 6 l) <> str "[DONE]" ->
        parseStream JSON_parse [a ++ l ++ [10] ++ b]
        = parseStream JSON_parse [a ++ b]
        /\ parseMinimaxStream JSON_parse showThinking [a ++ l ++ [10] ++ b]
           = parseMinimaxStream JSON_parse showThinking [a ++ b])
    /\ (JSON_parse l = None ->
        parseOllamaStream JSON_parse [a ++ l ++ [10] ++ b]
        = parseOllamaStream JSON_parse [a ++ b]).
Proof.
  intros JSON_parse showThinking a b l Ha Hnl.
  assert (Hne : forall x y : JSString, x <> y -> str_eqb x y = false).
  { intros x y H. destruct (str_eqb x y) eqn:E; [|reflexivity].
    now apply str_eqb_eq in E. }
  split; [|split].
  - intros Hp. split.
    + intros Hd. apply generator_skip; try assumption. intros st.
      unfold openrouter_on_line, parse_json. rewrite Hp, (Hne _ _ Hd).
      now destruct (startsWith l (str "data: ")).
    + apply generator_skip; try assumption. intros st.
      unfold gemini_on_line, parse_json. rewrite Hp.
      now destruct (startsWith l (str "data: ")).
  - intros Hp Hd. split; apply generator_skip; try assumption; intros st.
    + unfold openai_on_line, parse_json. rewrite Hp, (Hne _ _ Hd).
      now destruct (startsWith l (str "data: ")).
    + unfold minimax_on_line, parse_json. rewrite Hp, (Hne _ _ Hd).
      now destruct (startsWith l (str "data: ")).
  - intros Hp. apply generator_skip; try assumption. intros st.
    unfold ollama_on_line, parse_json. rewrite Hp.
    now destruct (negb (truthy (JStr (trim l)))).
Qed.

(** The theorem at an event whose JSON is cut short, between two whole
    events of the local daemon. *)
Lemma stream_parsers_skip_malformed_json_witness :
  parseOllamaStream ecma404_parse
    [line "{'message':{'content':'Hel'},'done':false}"
     ++ json_lit "{'message':{'content':" ++ [10]
     ++ line "{'message':{'content':'lo'},'done':false}"]
  = parseOllamaStream ecma404_parse
      [line "{'message':{'content':'Hel'},'done':false}"
       ++ line "{'message':{'content':'lo'},'done':false}"].
Proof.
  apply (stream_parsers_skip_malformed_json ecma404_parse false
           (line "{'message':{'content':'Hel'},'done':false}")
           (line "{'message':{'content':'lo'},'done':false}")
           (json_lit "{'message':{'content':"));
    reflexivity.
Defined.

(** ** The reasoning-capable vendor's parser *)

Section Simulation.
Context {S T : Type}.
Variable f : S -> JSString -> Step S.
Variable g : T -> JSString -> Step T.
Hypothesis Hfg : same_steps f g.

Lemma for_lines_same (s : S) (t : T) (lines : list JSString) :
  fst (for_lines f s lines) = fst (for_lines g t lines)
  /\ (snd (for_lines f s lines) = None <-> snd (for_lines g t lines) = None).
Proof.
  revert s t. induction lines as [|l lines IH]; intros s t; cbn [for_lines].
  - split; [reflexivity | split; discriminate].
  - pose proof (Hfg s t l) as H.
    destruct (f s l) as [c s'|s'|], (g t l) as [c' t'|t'|]; try contradiction.
    + subst c'. destruct (IH s' t') as [E1 E2].
      destruct (for_lines f s' lines), (for_lines g t' lines).
      cbn [fst snd] in *. now rewrite E1.
    + apply IH.
    + now split.
Qed.

Lemma read_loop_same (chunks : list JSString) (buffer : JSString)
    (s : S) (t : T) :
  read_loop f chunks buffer s = read_loop g chunks buffer t.
Proof.
  revert buffer s t. induction chunks as [|value chunks IH];
    intros buffer s t; cbn [read_loop]; [reflexivity|].
  destruct (for_lines_same s t
              (removelast (split_lines (buffer ++ value)))) as [E1 E2].
  destruct (for_lines f s _) as [ds [s'|]], (for_lines g t _) as [ds' [t'|]];
    cbn [fst snd] in *; subst ds'.
  - now rewrite (IH _ s' t').
  - destruct E2 as [_ E2]. discriminate (E2 eq_refl).
  - destruct E2 as [E2 _]. discriminate (E2 eq_refl).
  - reflexivity.
Qed.

Lemma generator_same (s : S) (t : T) (chunks : list JSString) :
  generator f s chunks = generator g t chunks.
Proof. unfold generator. now rewrite (read_loop_same chunks [] s t). Qed.
End Simulation.

(** With [showThinking] set, the parser of the reasoning-capable vendor
    is the parser of the generic OpenAI-compatible adapter: the same
    deltas on every stream. *)
Theorem parseMinimaxStream_showThinking :
  forall (JSON_parse : JSString -> option JSValue) (chunks : list JSString),
    parseMinimaxStream JSON_parse true chunks = parseStream JSON_parse chunks.
Proof.
  intros JSON_parse chunks. apply generator_same.
  intros s t l. unfold minimax_on_line, openai_on_line, choices_delta_content.
  destruct (startsWith l (str "data: ")); [|exact I].
  destruct (str_eqb _ _); [exact I|].
  destruct (parse_json JSON_parse _) as [parsed|e]; cbn [bind]; [|exact I].
  destruct (dot parsed (str "choices")) as [choices|e]; cbn [bind negb];
    [|exact I].
  now destruct (truthy _).
Qed.

Lemma startsWith_cut_from_open (p s : JSString) :
  startsWith (cut_from_open s) p = true -> startsWith s p = true.
Proof.
  revert s. induction p as [|y p IH]; intros s; [reflexivity|].
  destruct s as [|c s]; cbn [cut_from_open].
  - now destruct (startsWith [] (str "<think>")).
  - destruct (startsWith (c :: s) (str "<think>")); [discriminate|].
    cbn [startsWith]. intros H. apply andb_prop in H as [Hc Hs].
    now rewrite Hc, (IH s Hs).
Qed.

Lemma includes_cut_from_open (s p : JSString) :
  includes s p = false -> includes (cut_from_open s) p = false.
Proof.
  induction s as [|c s IH]; intros H.
  - cbn [cut_from_open]. now destruct (startsWith [] (str "<think>")).
  - cbn [includes] in H. apply orb_false_iff in H as [Hs Hi].
    pose proof (startsWith_cut_from_open p (c :: s)) as Hp.
    cbn [cut_from_open] in *.
    destruct (startsWith (c :: s) (str "<think>")).
    + destruct p; [discriminate Hs | reflexivity].
    + cbn [includes]. rewrite (IH Hi), orb_false_r.
      destruct (startsWith (c :: cut_from_open s) p); [|reflexivity].
      rewrite (Hp eq_refl) in Hs. discriminate Hs.
Qed.

(** The thinking-block filter of [parseMinimaxStream] on a delta that is
    a string, as a machine with the states outside and inside.  Inside, a
    delta without closing delimiter is dropped, whatever else it holds,
    and the filter stays inside.  Inside, a delta without opening
    delimiter that holds a closing one is cut through its last closing
    delimiter, the rest is yielded unless empty, and the filter is
    outside.  Outside, a delta without opening delimiter is yielded as it
    is.  In either state, a delta with an opening delimiter that no
    closing delimiter precedes in it is dropped whole, the text before
    the delimiter included, and the filter is inside. *)
Theorem think_filter_states :
  forall s : JSString,
    (includes s (str "</think>") = false ->
     think_filter true (JStr s) = Next true)
    /\ (includes s (str "<think>") = false ->
        forall a b : JSString,
          s = a ++ str "</think>" ++ b ->
          includes b (str "</think>") = false ->
          think_filter true (JStr s)
          = if truthy (JStr b) then Yield (JStr b) false else Next false)
    /\ (includes s (str "<think>") = false ->
        think_filter false (JStr s)
        = if truthy (JStr s) then Yield (JStr s) false else Next false)
    /\ (includes s (str "<think>") = true ->
        includes (cut_from_open s) (str "</think>") = false ->
        forall inThinkBlock : bool,
          think_filter inThinkBlock (JStr s) = Next true).
Proof.
  intros s. destruct (think_filter_whole_delimiters s) as (H1 & H2 & _ & H4).
  split; [|split; [exact H4 | split; [exact H1 | exact H2]]].
  intros Hc. unfold think_filter.
  destruct (includes s (str "<think>")); cbn [andb].
  - now rewrite (includes_cut_from_open s _ Hc).
  - now rewrite Hc.
Qed.

(** The theorem inside a block, at a delta that closes it. *)
Lemma think_filter_states_witness :
  think_filter true (JStr (str "hidden</think>Visible"))
  = Yield (JStr (str "Visible")) false.
Proof.
  apply (proj1 (proj2 (think_filter_states (str "hidden</think>Visible")))
           eq_refl (str "hidden") (str "Visible") eq_refl eq_refl).
Defined.

(** ** More on [chatStream] and [validate] *)

(** The lemma [chatStream_fails_fast] at the Gemini-style adapter and a
    response with status 429. *)
Lemma chatStream_fails_fast_witness :
  exists e : JSError,
    chatStream ecma404_parse no_Number_toString no_JSON_stringify
      (GoogleAI (mkGoogleAI (str "key"))) hi_request
      (Ok (mkFetch 429 (str "Too Many Requests")
             (Some [json_lit "{'error':{'message':'Quota exceeded'}}"])))
    = Throw e.
Proof.
  apply (chatStream_fails_fast ecma404_parse no_Number_toString
           no_JSON_stringify (GoogleAI (mkGoogleAI (str "key"))) hi_request
           (mkFetch 429 (str "Too Many Requests")
              (Some [json_lit "{'error':{'message':'Quota exceeded'}}"]))).
  right. split; reflexivity.
Defined.

(** When [chatStream] returns, the stream it returns is the adapter's
    parser applied to the body of the response; the three adapters that
    test the status return only on a status in 200..299. *)
Theorem chatStream_returns_parsed_body :
  forall JSON_parse Number_toString JSON_stringify (p : LLMProvider)
         (request : ChatRequest) (fetched : Result FetchResponse)
         (r : StreamingChatResponse),
    chatStream JSON_parse Number_toString JSON_stringify p request fetched
    = Ok r ->
    exists (response : FetchResponse) (chunks : list JSString),
      fetched = Ok response
      /\ body response = Some chunks
      /\ (tests_response_ok p = true -> response_ok response = true)
      /\ stream r
         = match p with
           | OpenRouter _ => parseSSEStream JSON_parse chunks
           | GoogleAI _ => parseGeminiStream JSON_parse chunks
           | Ollama _ => parseOllamaStream JSON_parse chunks
           | Minimax m => parseMinimaxStream JSON_parse (mm_showThinking m) chunks
           | OpenAICompatible _ => parseStream JSON_parse chunks
           end.
Proof.
  intros JSON_parse Number_toString JSON_stringify p request fetched r.
  destruct fetched as [response|e]; [|destruct p; discriminate].
  destruct p as [o|g|o|m|c]; cbn [chatStream];
    unfold OpenRouter_chatStream, GoogleAI_chatStream, Ollama_chatStream,
      Minimax_chatStream, OpenAICompatible_chatStream, stream_of_body,
      throw_Error; cbn [bind tests_response_ok];
    destruct (response_ok response) eqn:Hok; cbn [negb];
    try (destruct (ToString _ _); discriminate);
    try discriminate;
    (destruct (body response) as [chunks|] eqn:Hb; [|discriminate]);
    intros H; injection H as <-;
    exists response, chunks; repeat split; try reflexivity; try discriminate;
    try assumption; intros _; assumption.
Qed.

(** The theorem at the local daemon and a response with two lines. *)
Lemma chatStream_returns_parsed_body_witness :
  exists (response : FetchResponse) (chunks : list JSString),
    Ok (mkFetch 200 (str "OK")
          (Some [line "{'message':{'content':'Hi'},'done':false}";
                 line "{'done':true}"]))
    = Ok response
    /\ body response = Some chunks
    /\ (false = true -> response_ok response = true)
    /\ [text_delta "Hi"; terminal] = parseOllamaStream ecma404_parse chunks.
Proof.
  apply (chatStream_returns_parsed_body ecma404_parse no_Number_toString
           no_JSON_stringify (Ollama (mkOllama (str "http://localhost:11434")))
           hi_request
           (Ok (mkFetch 200 (str "OK")
                  (Some [line "{'message':{'content':'Hi'},'done':false}";
                         line "{'done':true}"])))
           (mkStreaming [text_delta "Hi"; terminal])).
  reflexivity.
Defined.

(** [validate] answers [valid = true] exactly when the transport answers
    with status 200 and, for the generic adapter, a base URL and a model
    are configured: the body of the answer is not looked at.  A valid
    result has no [error]. *)
Theorem validate_valid_iff_status_200
    (JSON_parse : JSString -> option JSValue)
    (JSON_stringify : JSValue -> JSString) (p : LLMProvider)
    (answer : Result RequestUrlResponse) (r : ValidateResult) :
  validate JSON_parse JSON_stringify p answer = Ok r ->
  valid r = answered_200 answer && configured p
  /\ (valid r = true -> error r = JUndefined).
Proof.
  assert (H400 : forall st : Z, (400 <=? st)%Z = true -> (st =? 200)%Z = false)
    by (intros st H; lia).
  destruct p as [o|g|o|m|c]; cbn [validate configured];
    unfold OpenRouter_validate, GoogleAI_validate, Ollama_validate,
      Minimax_validate, OpenAICompatible_validate, requestUrl.
  1, 3, 4:
    destruct answer as [resp|e]; cbn [bind try_catch andb answered_200];
    [ destruct (400 <=? resp_status resp)%Z eqn:E; cbn [bind try_catch];
      [ rewrite (H400 _ E) | rewrite andb_true_r ] | ];
    try (destruct (err_status _) as [[|[]|]|]);
    repeat match goal with
      | |- context [match ?q with _ => _ end] => destruct q
      end;
    intros H; injection H as <-; cbn [valid error]; split;
    first [reflexivity | discriminate].
  - destruct answer as [resp|e]; cbn [bind try_catch andb answered_200];
      [|intros H; injection H as <-; now split].
    rewrite andb_true_r.
    destruct (resp_status resp =? 200)%Z; [intros H; injection H as <-; now split|].
    destruct (resp_status resp =? 400)%Z; [intros H; injection H as <-; now split|].
    destruct (resp_status resp =? 403)%Z; [intros H; injection H as <-; now split|].
    destruct (resp_json JSON_parse resp); cbn [bind try_catch];
      [|intros H; injection H as <-; now split].
    destruct (dot _ _); cbn [bind try_catch]; intros H; injection H as <-;
      now split.
  - destruct (truthy (JStr (baseUrl c))); cbn [negb andb];
      [|intros H; injection H as <-; now rewrite andb_false_r].
    destruct (truthy (JStr (modelId c))); cbn [negb andb];
      [|intros H; injection H as <-; now rewrite andb_false_r].
    rewrite andb_true_r.
    destruct answer as [resp|e]; cbn [bind try_catch andb answered_200];
      [|intros H; injection H as <-; now split].
    destruct (resp_status resp =? 200)%Z; intros H; injection H as <-;
      now split.
Qed.


(** The theorem at the hosted aggregator, for an answer with status 200
    whose body is no JSON. *)
Lemma validate_valid_iff_status_200_witness :
  valid (mkValidate true JUndefined)
  = answered_200 (Ok (mkResponse 200 (str "<html></html>")))
    && configured (OpenRouter (mkOpenRouter (str "any-key") None))
  /\ (valid (mkValidate true JUndefined) = true ->
      error (mkValidate true JUndefined) = JUndefined).
Proof.
  apply (validate_valid_iff_status_200 ecma404_parse no_JSON_stringify
           (OpenRouter (mkOpenRouter (str "any-key") None))
           (Ok (mkResponse 200 (str "<html></html>")))
           (mkValidate true JUndefined)).
  reflexivity.
Defined.

(** ** More on the constructor of the generic adapter *)

Lemma all_slashes_endsWith (s : JSString) :
  s <> [] -> forallb (N.eqb 47) s = true -> endsWith s (str "/") = true.
Proof.
  induction s as [|c s IH]; [contradiction|]. intros _ H.
  cbn [forallb] in H. apply andb_prop in H as [Hc Hs].
  rewrite endsWith_slash_cons. destruct s as [|d s].
  - apply N.eqb_eq in Hc. subst c. reflexivity.
  - apply IH; [discriminate | exact Hs].
Qed.

Lemma replace_trailing_slashes_id (s : JSString) :
  endsWith s (str "/") = false -> replace_trailing_slashes s = s.
Proof.
  induction s as [|c s IH]; [reflexivity|]. intros H.
  cbn [replace_trailing_slashes].
  destruct ((c =? 47) && forallb (N.eqb 47) s) eqn:E.
  - apply andb_prop in E as [Hc Hs]. apply N.eqb_eq in Hc. subst c.
    rewrite (all_slashes_endsWith (47 :: s)) in H; [discriminate H|discriminate|].
    cbn [forallb]. now rewrite Hs.
  - f_equal. rewrite endsWith_slash_cons in H.
    destruct s as [|d s]; [reflexivity | now apply IH].
Qed.

Lemma endsWith_app (u p : JSString) : endsWith (u ++ p) p = true.
Proof. unfold endsWith. rewrite rev_app_distr. apply startsWith_app. Qed.

Lemma includes_suffix (u p : JSString) : includes (u ++ p) p = true.
Proof.
  rewrite <- (app_nil_r p) at 1. apply includes_delimiter.
Qed.

Lemma startsWith_inv (p s : JSString) :
  startsWith s p = true -> s = p ++ skipn (List.length p) s.
Proof.
  revert s. induction p as [|y p IH]; intros s; [reflexivity|].
  destruct s as [|x s]; cbn [startsWith]; [discriminate|].
  intros H. apply andb_prop in H as [Hx Hs]. apply N.eqb_eq in Hx. subst y.
  cbn [List.length skipn app]. f_equal. now apply IH.
Qed.

Lemma includes_startsWith (s p : JSString) :
  startsWith s p = true -> includes s p = true.
Proof. intros H. destruct s; cbn [includes]; now rewrite H. Qed.

Lemma endsWith_includes (u p : JSString) :
  endsWith u p = true -> includes u p = true.
Proof.
  unfold endsWith. intros H. apply startsWith_inv in H.
  apply (f_equal (@rev N)) in H.
  rewrite rev_involutive, rev_app_distr, rev_involutive in H.
  rewrite H. apply includes_suffix.
Qed.

(** A text that holds [p ++ q] holds [q]. *)
Lemma includes_app_pattern (x p q : JSString) :
  includes x (p ++ q) = true -> includes x q = true.
Proof.
  assert (Hs : forall s, startsWith s (p ++ q) = true -> includes s q = true).
  { intros s H. apply startsWith_inv in H. rewrite H, <- app_assoc.
    apply includes_app. rewrite <- (app_nil_l (q ++ _)).
    apply includes_delimiter. }
  induction x as [|c x IH]; cbn [includes]; intros H.
  - apply orb_prop in H as [H|H]; [|discriminate H]. exact (Hs [] H).
  - apply orb_prop in H as [H|H]; [exact (Hs _ H)|].
    change (includes (c :: x) q = true) with
      (startsWith (c :: x) q || includes x q = true).
    rewrite (IH H). apply orb_true_r.
Qed.

(** The constructor of the generic adapter gives a base URL that is not
    empty (an empty configuration gives [/v1/chat/completions]), does not
    end with a slash, and holds [/completions]; and it leaves such a URL
    as it is: building an adapter from the URL of an adapter gives the
    same adapter. *)
Theorem new_OpenAICompatibleProvider_idempotent :
  forall (baseUrl0 apiKey0 modelId0 : JSString),
    let p := new_OpenAICompatibleProvider baseUrl0 apiKey0 modelId0 in
    baseUrl p <> []
    /\ endsWith (baseUrl p) (str "/") = false
    /\ includes (baseUrl p) (str "/completions") = true
    /\ new_OpenAICompatibleProvider (baseUrl p) apiKey0 modelId0 = p.
Proof.
  intros baseUrl0 apiKey0 modelId0 p.
  destruct (replace_trailing_slashes_spec baseUrl0) as (n & _ & He).
  subst p. unfold new_OpenAICompatibleProvider. cbn [baseUrl].
  set (u := replace_trailing_slashes baseUrl0) in *.
  assert (Hsub : forall x : JSString,
             includes x (str "/chat/completions") = true ->
             includes x (str "/completions") = true).
  { intros x. apply (includes_app_pattern x (str "/chat") (str "/completions")). }
  destruct (includes u (str "/chat/completions")) eqn:Hi; cbn [negb].
  - rewrite (replace_trailing_slashes_id u He), Hi. cbn [negb].
    repeat split; try assumption; [|now apply Hsub].
    intros E. rewrite E in Hi. discriminate Hi.
  - destruct (endsWith u (str "/v1")) eqn:Hv.
    + assert (Hs : endsWith (u ++ str "/chat/completions") (str "/") = false)
        by (unfold endsWith; rewrite rev_app_distr; reflexivity).
      rewrite (replace_trailing_slashes_id _ Hs), includes_suffix. cbn [negb].
      repeat split; try assumption.
      * now destruct u.
      * apply Hsub, includes_suffix.
    + destruct (endsWith u (str "/completions")) eqn:Hc; cbn [negb].
      * rewrite (replace_trailing_slashes_id u He), Hi, Hv, Hc. cbn [negb].
        repeat split; try assumption.
        -- intros E. rewrite E in Hc. discriminate Hc.
        -- now apply endsWith_includes.
      * assert (Hs : endsWith (u ++ str "/v1/chat/completions") (str "/") = false)
          by (unfold endsWith; rewrite rev_app_distr; reflexivity).
        rewrite (replace_trailing_slashes_id _ Hs).
        change (str "/v1/chat/completions")
          with (str "/v1" ++ str "/chat/completions").
        rewrite app_assoc, includes_suffix. cbn [negb].
        repeat split.
        -- now destruct u.
        -- rewrite <- app_assoc. exact Hs.
        -- apply Hsub, includes_suffix.
Qed.

(** ** The whole-message filter of the reasoning-capable vendor *)

Lemma after_first_close_shorter (s r : JSString) :
  after_first_close s = Some r -> (List.length r < List.length s)%nat.
Proof.
  induction s as [|c s IH]; cbn [after_first_close].
  - change (str "</think>") with [60; 47; 116; 104; 105; 110; 107; 62].
    discriminate.
  - destruct (startsWith (c :: s) (str "</think>")).
    + intros H. injection H as <-. cbn [skipn List.length].
      rewrite length_skipn. lia.
    + intros H. specialize (IH H). cbn [List.length]. lia.
Qed.

(** Past the length of the text, the fuel of [strip_blocks] does not
    matter. *)
Lemma strip_blocks_fuel (f f' : nat) (s : JSString) :
  (List.length s <= f)%nat -> (List.length s <= f')%nat ->
  strip_blocks f s = strip_blocks f' s.
Proof.
  revert f' s. induction f as [|f IH]; intros f' s Hf Hf'.
  - destruct s; [|cbn [List.length] in Hf; lia]. now destruct f'.
  - destruct s as [|c s]; [now destruct f'|].
    destruct f' as [|f']; [cbn [List.length] in Hf'; lia|].
    cbn [strip_blocks List.length] in *.
    destruct (startsWith (c :: s) (str "<think>")).
    + destruct (after_first_close (skipn 7 (c :: s))) as [rest|] eqn:E;
        [|reflexivity].
      apply after_first_close_shorter in E.
      pose proof (length_skipn 7 (c :: s)) as Hk. cbn [List.length] in Hk.
      apply IH; lia.
    + f_equal. apply IH; lia.
Qed.

Lemma includes_skipn (n : nat) (s p : JSString) :
  includes (skipn n s) p = true -> includes s p = true.
Proof.
  revert s. induction n as [|n IH]; intros s; [trivial|].
  destruct s as [|c s]; [trivial|]. cbn [skipn]. intros H.
  change (includes (c :: s) p) with (startsWith (c :: s) p || includes s p).
  rewrite (IH s H). apply orb_true_r.
Qed.

Lemma after_first_close_none (s : JSString) :
  includes s (str "</think>") = false -> after_first_close s = None.
Proof.
  induction s as [|c s IH]; cbn [includes after_first_close]; intros H;
    apply orb_false_iff in H as [Hs Hi]; rewrite Hs; [reflexivity|].
  now apply IH.
Qed.

Lemma strip_blocks_no_open (f : nat) (s : JSString) :
  includes s (str "<think>") = false -> strip_blocks f s = s.
Proof.
  revert s. induction f as [|f IH]; intros s H; [reflexivity|].
  destruct s as [|c s]; [reflexivity|].
  cbn [includes] in H. apply orb_false_iff in H as [Hs Hi].
  cbn [strip_blocks]. rewrite Hs. f_equal. now apply IH.
Qed.

Lemma strip_blocks_no_close (f : nat) (s : JSString) :
  includes s (str "</think>") = false -> strip_blocks f s = s.
Proof.
  revert s. induction f as [|f IH]; intros s H; [reflexivity|].
  destruct s as [|c s]; [reflexivity|].
  cbn [strip_blocks]. destruct (startsWith (c :: s) (str "<think>")).
  - rewrite after_first_close_none; [reflexivity|].
    destruct (includes (skipn 7 (c :: s)) (str "</think>")) eqn:E;
      [|reflexivity].
    apply includes_skipn in E. rewrite E in H. discriminate H.
  - f_equal. apply IH. cbn [includes] in H.
    now apply orb_false_iff in H as [_ Hi].
Qed.

(** A text that holds no opening delimiter, or no closing delimiter, is
    trimmed and nothing else: a block that is not closed stays. *)
Theorem stripThinkingBlocks_without_block :
  forall content : JSString,
    includes content (str "<think>") = false
    \/ includes content (str "</think>") = false ->
    stripThinkingBlocks content = trim content.
Proof.
  intros content [H|H]; unfold stripThinkingBlocks.
  - now rewrite strip_blocks_no_open.
  - now rewrite strip_blocks_no_close.
Qed.

(** The theorem at a block that is opened and not closed. *)
Lemma stripThinkingBlocks_without_block_witness :
  stripThinkingBlocks (str " <think>musing without end ")
  = trim (str " <think>musing without end ").
Proof.
  apply (stripThinkingBlocks_without_block (str " <think>musing without end ")).
  right. reflexivity.
Defined.

(** No opening delimiter starts in a text [u] without one, whatever
    follows [u]: the delimiter has no border. *)
Lemma no_open_across (u r : JSString) :
  u <> [] -> includes u (str "<think>") = false ->
  startsWith (u ++ str "<think>" ++ r) (str "<think>") = false.
Proof.
  intros Hne H. destruct u as [|u1 u]; [contradiction|].
  cbn [includes] in H. apply orb_false_iff in H as [H _]. revert H.
  change (str "<think>") with [60; 116; 104; 105; 110; 107; 62].
  destruct u as [|u2 [|u3 [|u4 [|u5 [|u6 [|u7 u]]]]]];
    cbn [app startsWith N.eqb Pos.eqb]; intros H;
    rewrite ?andb_false_r; try reflexivity.
  rewrite andb_true_r in *. exact H.
Qed.

Lemma no_close_across (u r : JSString) :
  u <> [] -> includes u (str "</think>") = false ->
  startsWith (u ++ str "</think>" ++ r) (str "</think>") = false.
Proof.
  intros Hne H. destruct u as [|u1 u]; [contradiction|].
  cbn [includes] in H. apply orb_false_iff in H as [H _]. revert H.
  change (str "</think>") with [60; 47; 116; 104; 105; 110; 107; 62].
  destruct u as [|u2 [|u3 [|u4 [|u5 [|u6 [|u7 [|u8 u]]]]]]];
    cbn [app startsWith N.eqb Pos.eqb]; intros H;
    rewrite ?andb_false_r; try reflexivity.
  rewrite andb_true_r in *. exact H.
Qed.

Lemma includes_tail (c : N) (s p : JSString) :
  includes (c :: s) p = false -> includes s p = false.
Proof. cbn [includes]. intros H. now apply orb_false_iff in H as [_ H]. Qed.

Lemma after_first_close_app (b c : JSString) :
  includes b (str "</think>") = false ->
  after_first_close (b ++ str "</think>" ++ c) = Some c.
Proof.
  intros Hb. induction b as [|x b IH].
  - cbn [app]. destruct (str "</think>" ++ c) eqn:E; [discriminate E|].
    cbn [after_first_close]. rewrite <- E, startsWith_app. reflexivity.
  - cbn [app after_first_close].
    change (x :: b ++ str "</think>" ++ c)
      with ((x :: b) ++ str "</think>" ++ c).
    rewrite no_close_across by (discriminate || exact Hb).
    apply IH. exact (includes_tail _ _ _ Hb).
Qed.

Lemma strip_blocks_first_block (f : nat) (a b c : JSString) :
  includes a (str "<think>") = false ->
  includes b (str "</think>") = false ->
  strip_blocks (List.length a + S f)
    (a ++ str "<think>" ++ b ++ str "</think>" ++ c)
  = a ++ strip_blocks f c.
Proof.
  intros Ha Hb. induction a as [|x a IH].
  - cbn [app List.length Nat.add strip_blocks].
    destruct (str "<think>" ++ b ++ str "</think>" ++ c) as [|y t] eqn:E;
      [discriminate E|].
    rewrite <- E, startsWith_app.
    change (skipn 7 (str "<think>" ++ b ++ str "</think>" ++ c))
      with (b ++ str "</think>" ++ c).
    now rewrite after_first_close_app.
  - cbn [app List.length Nat.add strip_blocks].
    change (x :: a ++ str "<think>" ++ b ++ str "</think>" ++ c)
      with ((x :: a) ++ str "<think>" ++ b ++ str "</think>" ++ c).
    rewrite no_open_across by (discriminate || exact Ha).
    cbn [app]. f_equal. apply IH. exact (includes_tail _ _ _ Ha).
Qed.

(** The first block of a text, from the first opening delimiter through
    the first closing delimiter that follows it, is removed, and the text
    after it is filtered in its turn; the whole is trimmed. *)
Theorem stripThinkingBlocks_first_block :
  forall a b c : JSString,
    includes a (str "<think>") = false ->
    includes b (str "</think>") = false ->
    stripThinkingBlocks (a ++ str "<think>" ++ b ++ str "</think>" ++ c)
    = trim (a ++ strip_blocks (List.length c) c)
    /\ (includes c (str "<think>") = false ->
        stripThinkingBlocks (a ++ str "<think>" ++ b ++ str "</think>" ++ c)
        = trim (a ++ c)).
Proof.
  intros a b c Ha Hb.
  assert (E : stripThinkingBlocks
                (a ++ str "<think>" ++ b ++ str "</think>" ++ c)
              = trim (a ++ strip_blocks (List.length c) c)).
  { unfold stripThinkingBlocks. f_equal.
    rewrite !length_app.
    change (List.length (str "<think>")) with 7%nat.
    change (List.length (str "</think>")) with 8%nat.
    replace (List.length a + (7 + (List.length b + (8 + List.length c))))%nat
      with (List.length a + S (14 + List.length b + List.length c))%nat by lia.
    rewrite (strip_blocks_first_block _ a b c Ha Hb). f_equal.
    apply strip_blocks_fuel; lia. }
  split; [exact E|]. intros Hc. rewrite E.
  now rewrite (strip_blocks_no_open _ c Hc).
Qed.

(** The theorem at a message that opens with its reasoning. *)
Lemma stripThinkingBlocks_first_block_witness :
  stripThinkingBlocks
    ([] ++ str "<think>" ++ str "internal musing" ++ str "</think>"
        ++ str "Visible answer")
  = trim ([] ++ str "Visible answer").
Proof.
  apply (proj2 (stripThinkingBlocks_first_block [] (str "internal musing")
                  (str "Visible answer") eq_refl eq_refl)).
  reflexivity.
Defined.

(** ** chat of the adapters that read the completion without a guard *)

Lemma first_choice_content_ok (data x : JSValue) :
  first_choice_content data = Ok x
  <-> has_first_message data = true
      /\ x = prop (first_message data) (str "content").
Proof.
  unfold first_choice_content, has_first_message, first_message, at0, dot.
  destruct (nullish data); cbn [bind negb andb];
    [split; [discriminate | intros [H _]; discriminate H]|].
  destruct (nullish (prop data (str "choices"))); cbn [bind negb andb];
    [split; [discriminate | intros [H _]; discriminate H]|].
  destruct (nullish (index0 (prop data (str "choices"))));
    cbn [bind negb andb];
    [split; [discriminate | intros [H _]; discriminate H]|].
  destruct (nullish (prop (index0 (prop data (str "choices"))) (str "message")));
    cbn [bind negb andb];
    [split; [discriminate | intros [H _]; discriminate H]|].
  split; [intros H; injection H as <-; now split | intros [_ ->]; reflexivity].
Qed.

Lemma first_choice_content_throws (data : JSValue) :
  has_first_message data = false -> raised_TypeError (first_choice_content data).
Proof.
  unfold first_choice_content, has_first_message, first_message, at0, dot,
    raised_TypeError.
  destruct (nullish data); cbn [bind negb andb];
    [intros _; eexists; split; reflexivity|].
  destruct (nullish (prop data (str "choices"))); cbn [bind negb andb];
    [intros _; eexists; split; reflexivity|].
  destruct (nullish (index0 (prop data (str "choices"))));
    cbn [bind negb andb];
    [intros _; eexists; split; reflexivity|].
  destruct (nullish (prop (index0 (prop data (str "choices"))) (str "message")));
    cbn [bind negb andb];
    [intros _; eexists; split; reflexivity | discriminate].
Qed.

Lemma answered_json_bind {A : Type}
    (JSON_parse : JSString -> option JSValue)
    (answer : Result RequestUrlResponse) (k : JSValue -> Result A)
    (r : A) :
  (let! resp := requestUrl true answer in
   let! data := resp_json JSON_parse resp in k data) = Ok r
  <-> exists data : JSValue,
        answered_json JSON_parse answer data /\ k data = Ok r.
Proof.
  unfold requestUrl, resp_json, parse_json, answered_json. split.
  - intros H. destruct answer as [a|e]; [|discriminate H]. cbn [bind andb] in H.
    destruct (400 <=? resp_status a)%Z eqn:E; [discriminate H|].
    cbn [bind] in H. destruct (JSON_parse (resp_text a)) as [data|] eqn:P;
      [|discriminate H].
    cbn [bind] in H. exists data. split; [|exact H].
    exists a. apply Z.leb_gt in E. now repeat split.
  - intros (data & (a & -> & Hst & P) & H). cbn [bind andb].
    apply Z.leb_gt in Hst. rewrite Hst. cbn [bind]. rewrite P. exact H.
Qed.

(** [chat] of the OpenRouter adapter returns exactly when the transport
    answers below status 400 with a JSON value that has a first choice
    with a message; the text is then the content of that message, whatever
    value it is, and no [error] field is looked at. *)
Theorem OpenRouter_chat_returns :
  forall JSON_parse (answer : Result RequestUrlResponse) (r : ChatResponse),
    OpenRouter_chat JSON_parse answer = Ok r
    <-> exists data : JSValue,
          answered_json JSON_parse answer data
          /\ has_first_message data = true
          /\ r = mkChatResponse (prop (first_message data) (str "content"))
                   (usage_of (prop data (str "usage")) (str "prompt_tokens")
                      (str "completion_tokens")).
Proof.
  intros. unfold OpenRouter_chat. rewrite answered_json_bind.
  split; intros (data & Ha & H); exists data; (split; [exact Ha|]).
  - destruct (first_choice_content data) as [x|] eqn:E; [|discriminate H].
    apply first_choice_content_ok in E as [Hm ->]. cbn [bind] in H.
    destruct (dot data (str "usage")) as [u|] eqn:Eu; [|discriminate H].
    apply dot_inv in Eu as [_ ->]. injection H as <-. now split.
  - destruct H as [Hm ->].
    rewrite (proj2 (first_choice_content_ok data _) (conj Hm eq_refl)).
    cbn [bind]. rewrite dot_ok; [reflexivity|].
    unfold has_first_message in Hm. now destruct (nullish data).
Qed.

(** The text returned for a reasoning-capable vendor's answer: the content
    as it is when reasoning is shown, the filtered content of a string
    otherwise. *)
Lemma Minimax_text (p : MinimaxProvider) (content text : JSValue) :
  (if negb (mm_showThinking p) then strip_value content else Ok content)
  = Ok text
  <-> (if mm_showThinking p then text = content
       else exists s : JSString,
              content = JStr s /\ text = JStr (stripThinkingBlocks s)).
Proof.
  destruct (mm_showThinking p); cbn [negb].
  - split; [intros H; now injection H | intros ->; reflexivity].
  - unfold strip_value. split.
    + intros H. destruct content; try discriminate H. injection H as <-.
      eexists. split; reflexivity.
    + intros (s & -> & ->). reflexivity.
Qed.

(** [chat] of the reasoning-capable vendor's adapter returns exactly when
    the transport answers below status 400 with a JSON value that has a
    first choice with a message and, unless reasoning is shown, the content
    of that message is a string; the text is then that content, with its
    reasoning blocks removed unless reasoning is shown. *)
Theorem Minimax_chat_returns :
  forall JSON_parse (p : MinimaxProvider)
         (answer : Result RequestUrlResponse) (r : ChatResponse),
    Minimax_chat JSON_parse p answer = Ok r
    <-> exists data text : JSValue,
          answered_json JSON_parse answer data
          /\ has_first_message data = true
          /\ (if mm_showThinking p
              then text = prop (first_message data) (str "content")
              else exists s : JSString,
                     prop (first_message data) (str "content") = JStr s
                     /\ text = JStr (stripThinkingBlocks s))
          /\ r = mkChatResponse text
                   (usage_of (prop data (str "usage")) (str "prompt_tokens")
                      (str "completion_tokens")).
Proof.
  intros. unfold Minimax_chat. rewrite answered_json_bind. split.
  - intros (data & Ha & H).
    destruct (first_choice_content data) as [x|] eqn:E; [|discriminate H].
    apply first_choice_content_ok in E as [Hm ->]. cbn [bind] in H.
    destruct (if negb (mm_showThinking p) then _ else _) as [text|] eqn:Et;
      [|discriminate H].
    apply Minimax_text in Et. cbn [bind] in H.
    destruct (dot data (str "usage")) as [u|] eqn:Eu; [|discriminate H].
    apply dot_inv in Eu as [_ ->]. injection H as <-.
    exists data, text. now repeat split.
  - intros (data & text & Ha & Hm & Ht & ->). exists data. split; [exact Ha|].
    rewrite (proj2 (first_choice_content_ok data _) (conj Hm eq_refl)).
    cbn [bind]. rewrite (proj2 (Minimax_text p _ text) Ht). cbn [bind].
    rewrite dot_ok; [reflexivity|].
    unfold has_first_message in Hm. now destruct (nullish data).
Qed.

(** [chat] of the local adapter returns exactly when the transport answers
    below status 400 with a JSON value that has a message; the text is the
    content of the message, and the usage is reported only for a truthy
    [eval_count], with a missing prompt count read as 0. *)
Theorem Ollama_chat_returns :
  forall JSON_parse (answer : Result RequestUrlResponse) (r : ChatResponse),
    Ollama_chat JSON_parse answer = Ok r
    <-> exists data : JSValue,
          answered_json JSON_parse answer data
          /\ has_message data = true
          /\ r = mkChatResponse
                   (prop (prop data (str "message")) (str "content"))
                   (if truthy (prop data (str "eval_count")) then
                      Some (js_or (prop data (str "prompt_eval_count"))
                              (JNum 0 0),
                            prop data (str "eval_count"))
                    else None).
Proof.
  intros. unfold Ollama_chat, has_message. rewrite answered_json_bind.
  split; intros (data & Ha & H); exists data; (split; [exact Ha|]).
  - unfold dot in H. destruct (nullish data); [discriminate H|].
    cbn [bind] in H.
    destruct (nullish (prop data (str "message"))); [discriminate H|].
    cbn [bind] in H. injection H as <-. now split.
  - destruct H as [Hm ->]. unfold dot.
    destruct (nullish data); [discriminate Hm|]. cbn [bind].
    destruct (nullish (prop data (str "message"))); [discriminate Hm|].
    reflexivity.
Qed.

(** An answer below status 400 that holds no completion, as the envelope
    of an error does, makes [chat] of these three adapters raise a
    [TypeError]: the message of the provider is not reported. *)
Theorem chat_without_completion_raises_TypeError :
  forall JSON_parse (p : MinimaxProvider)
         (answer : Result RequestUrlResponse) (data : JSValue),
    answered_json JSON_parse answer data ->
    (has_first_message data = false ->
     raised_TypeError (OpenRouter_chat JSON_parse answer)
     /\ raised_TypeError (Minimax_chat JSON_parse p answer))
    /\ (has_message data = false ->
        raised_TypeError (Ollama_chat JSON_parse answer)).
Proof.
  intros JSON_parse p answer data (resp & -> & Hst & P).
  apply Z.leb_gt in Hst.
  unfold OpenRouter_chat, Minimax_chat, Ollama_chat, requestUrl, resp_json,
    parse_json.
  cbn [bind andb]. rewrite Hst. cbn [bind]. rewrite P. cbn [bind].
  split.
  - intros H. destruct (first_choice_content_throws data H) as (e & -> & He).
    cbn [bind]. split; exists e; now split.
  - unfold has_message, dot. intros H.
    destruct (nullish data); cbn [bind negb andb] in *;
      [eexists; split; reflexivity|].
    destruct (nullish (prop data (str "message"))); cbn [bind negb andb] in *;
      [eexists; split; reflexivity | discriminate H].
Qed.

(** The theorem at the envelope of an error, answered with status 200. *)
Lemma chat_without_completion_raises_TypeError_witness :
  raised_TypeError
    (OpenRouter_chat ecma404_parse
       (Ok (mkResponse 200
              (json_lit "{'error':{'message':'Rate limit exceeded'}}"))))
  /\ raised_TypeError
       (Minimax_chat ecma404_parse
          (new_MinimaxProvider (str "key") international false)
          (Ok (mkResponse 200
                 (json_lit "{'error':{'message':'Rate limit exceeded'}}"))))
  /\ raised_TypeError
       (Ollama_chat ecma404_parse
          (Ok (mkResponse 200
                 (json_lit "{'error':{'message':'Rate limit exceeded'}}")))).
Proof.
  destruct (chat_without_completion_raises_TypeError ecma404_parse
              (new_MinimaxProvider (str "key") international false)
              (Ok (mkResponse 200
                     (json_lit "{'error':{'message':'Rate limit exceeded'}}")))
              (JObj [(str "error",
                      JObj [(str "message",
                             JStr (str "Rate limit exceeded"))])]))
    as [H1 H2].
  - exists (mkResponse 200
              (json_lit "{'error':{'message':'Rate limit exceeded'}}")).
    split; [reflexivity|]. split; [reflexivity|]. vm_compute. reflexivity.
  - destruct (H1 eq_refl) as [Ha Hb]. split; [exact Ha|].
    split; [exact Hb|]. exact (H2 eq_refl).
Defined.

(** The three adapters on answers of their providers. *)
Lemma chat_examples :
  OpenRouter_chat ecma404_parse
    (Ok (mkResponse 200
           (json_lit "{'choices':[{'message':{'role':'assistant','content':'Hello'}}],'usage':{'prompt_tokens':3,'completion_tokens':1}}")))
  = Ok (mkChatResponse (JStr (str "Hello")) (Some (JNum 3 0, JNum 1 0)))
  /\ Minimax_chat ecma404_parse
       (new_MinimaxProvider (str "key") international false)
       (Ok (mkResponse 200
              (json_lit "{'choices':[{'message':{'content':'<think>internal musing</think>Visible answer'}}]}")))
     = Ok (mkChatResponse (JStr (str "Visible answer")) None)
  /\ Minimax_chat ecma404_parse
       (new_MinimaxProvider (str "key") international true)
       (Ok (mkResponse 200
              (json_lit "{'choices':[{'message':{'content':'<think>internal musing</think>Visible answer'}}]}")))
     = Ok (mkChatResponse
             (JStr (str "<think>internal musing</think>Visible answer")) None)
  /\ raised_TypeError
       (Minimax_chat ecma404_parse
          (new_MinimaxProvider (str "key") international false)
          (Ok (mkResponse 200
                 (json_lit "{'choices':[{'message':{'content':null}}]}"))))
  /\ Ollama_chat ecma404_parse
       (Ok (mkResponse 200
              (json_lit "{'message':{'role':'assistant','content':'Hello'},'done':true,'eval_count':2}")))
     = Ok (mkChatResponse (JStr (str "Hello")) (Some (JNum 0 0, JNum 2 0)))
  /\ Ollama_chat ecma404_parse
       (Ok (mkResponse 200
              (json_lit "{'message':{'role':'assistant','content':''},'done':true,'eval_count':0}")))
     = Ok (mkChatResponse (JStr []) None).
Proof.
  repeat split; try (vm_compute; reflexivity).
  eexists. split; vm_compute; reflexivity.
Qed.

(** ** Messages converted for the Gemini API *)

Lemma convert_fold (messages : list ChatMessage)
    (contents : list GeminiContent) (systemContent : JSString) :
  fold_left convert_step messages (contents, systemContent)
  = (contents ++ map to_content (dialogue messages),
     systemContent ++ system_text messages).
Proof.
  revert contents systemContent.
  induction messages as [|m ms IH]; intros contents systemContent.
  - cbn. now rewrite !app_nil_r.
  - cbn [fold_left].
    assert (E : convert_step (contents, systemContent) m
                = match role m with
                  | system =>
                      (contents, systemContent ++ (msg_content m ++ [10; 10]))
                  | _ => (contents ++ [to_content m], systemContent)
                  end)
      by (unfold convert_step, to_content; now destruct (role m)).
    rewrite E. unfold dialogue, system_text. cbn [List.filter].
    destruct (role m); rewrite IH; unfold dialogue, system_text;
      cbn [map List.concat]; rewrite <- ?app_assoc; reflexivity.
Qed.

Lemma truthy_text (s : JSString) :
  truthy (JStr s) = match s with [] => false | _ => true end.
Proof. now destruct s. Qed.

Lemma convertMessages_eq (messages : list ChatMessage) :
  convertMessages messages
  = match map to_content (dialogue messages) with
    | [] =>
        [mkContent (str "user")
           match system_text messages with
           | [] => str "Hello"
           | t => t
           end]
    | contents =>
        match system_text messages with
        | [] => contents
        | t => prepend_to_first_user t contents
        end
    end.
Proof.
  unfold convertMessages. rewrite convert_fold. cbn [app].
  rewrite truthy_text.
  destruct (map to_content (dialogue messages)) as [|c cs];
    destruct (system_text messages) as [|x t]; cbn [andb List.length Nat.ltb
      Nat.leb Nat.eqb]; try reflexivity.
  destruct (prepend_to_first_user (x :: t) (c :: cs)) eqn:E; [|reflexivity].
  cbn [prepend_to_first_user] in E.
  destruct (str_eqb (gc_role c) (str "user")); discriminate E.
Qed.

Lemma prepend_roles (t : JSString) (contents : list GeminiContent) :
  map gc_role (prepend_to_first_user t contents) = map gc_role contents.
Proof.
  induction contents as [|c cs IH]; [reflexivity|].
  cbn [prepend_to_first_user].
  destruct (str_eqb (gc_role c) (str "user")); cbn [map gc_role];
    [reflexivity | now rewrite IH].
Qed.

(** The converted conversation is never empty, holds the roles [user] and
    [model] only, and has one content for each message that is not a
    system message, in their order, or one user content when there is no
    such message. *)
Theorem convertMessages_roles :
  forall messages : list ChatMessage,
    convertMessages messages <> []
    /\ Forall (fun r => r = str "user" \/ r = str "model")
         (map gc_role (convertMessages messages))
    /\ map gc_role (convertMessages messages)
       = match dialogue messages with
         | [] => [str "user"]
         | d => map (fun m => gc_role (to_content m)) d
         end.
Proof.
  intros messages.
  assert (R : map gc_role (convertMessages messages)
              = match dialogue messages with
                | [] => [str "user"]
                | d => map (fun m => gc_role (to_content m)) d
                end).
  { rewrite convertMessages_eq.
    destruct (dialogue messages) as [|m d]; [reflexivity|].
    cbn [map]. destruct (system_text messages).
    - cbn [map]. now rewrite map_map.
    - rewrite prepend_roles. cbn [map]. now rewrite map_map. }
  split; [|split; [|exact R]].
  - intros E. rewrite E in R. destruct (dialogue messages); discriminate R.
  - rewrite R. destruct (dialogue messages) as [|m d].
    + constructor; [now left | constructor].
    + apply List.Forall_forall. intros r Hr. apply in_map_iff in Hr as (x & <- & _).
      unfold to_content. cbn [gc_role]. destruct (role x); auto.
Qed.

Lemma prepend_skips_models (t : JSString) (pre : list ChatMessage)
    (rest : list GeminiContent) :
  Forall (fun m => role m = assistant) pre ->
  prepend_to_first_user t (map to_content pre ++ rest)
  = map to_content pre ++ prepend_to_first_user t rest.
Proof.
  intros H. induction H as [|m pre Hm Hpre IH]; [reflexivity|].
  cbn [map app prepend_to_first_user]. unfold to_content at 1. rewrite Hm.
  cbn [gc_role].
  change (str_eqb (str "model") (str "user")) with false. cbv iota.
  now rewrite IH.
Qed.

(** The system texts go before the text of the first user message, and
    every other message keeps its text. *)
Theorem convertMessages_prepends_system_text :
  forall (messages pre post : list ChatMessage) (u : ChatMessage),
    dialogue messages = pre ++ u :: post ->
    Forall (fun m => role m = assistant) pre ->
    role u = user ->
    convertMessages messages
    = map to_content pre
      ++ mkContent (str "user") (system_text messages ++ msg_content u)
      :: map to_content post.
Proof.
  intros messages pre post u Hd Hpre Hu.
  rewrite convertMessages_eq, Hd, map_app. cbn [map].
  assert (Eu : to_content u = mkContent (str "user") (msg_content u))
    by (unfold to_content; now rewrite Hu).
  destruct (system_text messages) as [|x t] eqn:Et.
  - cbn [app]. rewrite Eu.
    destruct (map to_content pre ++ _) eqn:E; [|reflexivity].
    now destruct (map to_content pre).
  - assert (E : prepend_to_first_user (x :: t)
                  (map to_content pre ++ to_content u :: map to_content post)
                = map to_content pre
                  ++ mkContent (str "user") ((x :: t) ++ msg_content u)
                  :: map to_content post).
    { rewrite (prepend_skips_models _ pre _ Hpre). rewrite Eu.
      cbn [prepend_to_first_user gc_role gc_text].
      now rewrite str_eqb_refl. }
    destruct (map to_content pre ++ to_content u :: map to_content post) eqn:E';
      [now destruct (map to_content pre)|].
    exact E.
Qed.

(** The theorem at a conversation with two system messages. *)
Lemma convertMessages_prepends_system_text_witness :
  convertMessages
    [mkMessage system (str "Be brief."); mkMessage assistant (str "Hi");
     mkMessage system (str "Cite notes."); mkMessage user (str "Why?");
     mkMessage user (str "And how?")]
  = map to_content [mkMessage assistant (str "Hi")]
    ++ mkContent (str "user")
         (system_text
            [mkMessage system (str "Be brief."); mkMessage assistant (str "Hi");
             mkMessage system (str "Cite notes."); mkMessage user (str "Why?");
             mkMessage user (str "And how?")]
          ++ msg_content (mkMessage user (str "Why?")))
    :: map to_content [mkMessage user (str "And how?")].
Proof.
  apply (convertMessages_prepends_system_text
           [mkMessage system (str "Be brief."); mkMessage assistant (str "Hi");
            mkMessage system (str "Cite notes."); mkMessage user (str "Why?");
            mkMessage user (str "And how?")]
           [mkMessage assistant (str "Hi")]
           [mkMessage user (str "And how?")]
           (mkMessage user (str "Why?"))).
  - reflexivity.
  - repeat constructor.
  - reflexivity.
Defined.

(** Without a user message the system texts are sent only when there is
    no other message at all; after a conversation of assistant messages
    they are left out. *)
Theorem convertMessages_without_user_message :
  forall messages : list ChatMessage,
    Forall (fun m => role m <> user) messages ->
    convertMessages messages
    = match dialogue messages with
      | [] =>
          [mkContent (str "user")
             match system_text messages with
             | [] => str "Hello"
             | t => t
             end]
      | d => map to_content d
      end.
Proof.
  intros messages H. rewrite convertMessages_eq.
  assert (Hd : Forall (fun m => role m = assistant) (dialogue messages)).
  { apply List.Forall_forall. intros m Hm. unfold dialogue in Hm.
    apply filter_In in Hm as [Hin Hr].
    pose proof (proj1 (List.Forall_forall _ _) H m Hin) as Hu.
    cbv beta in Hr, Hu. revert Hr Hu. destruct (role m); intros Hr Hu;
      [discriminate Hr | exfalso; apply Hu; reflexivity | reflexivity]. }
  destruct (dialogue messages) as [|m d] eqn:E; [reflexivity|].
  destruct (system_text messages) as [|x t]; [reflexivity|].
  pose proof (prepend_skips_models (x :: t) (m :: d) [] Hd) as P.
  rewrite !app_nil_r in P. exact P.
Qed.

(** The theorem at a system message followed by an assistant message, and
    at a system message alone. *)
Lemma convertMessages_without_user_message_witness :
  convertMessages
    [mkMessage system (str "Be brief."); mkMessage assistant (str "Hi")]
  = [mkContent (str "model") (str "Hi")]
  /\ convertMessages [mkMessage system (str "Be brief.")]
     = [mkContent (str "user") (str "Be brief." ++ [10; 10])].
Proof.
  split.
  - apply (convertMessages_without_user_message
             [mkMessage system (str "Be brief.");
              mkMessage assistant (str "Hi")]).
    repeat constructor; discriminate.
  - apply (convertMessages_without_user_message
             [mkMessage system (str "Be brief.")]).
    repeat constructor; discriminate.
Defined.

(** ** Listed models *)

Lemma mapM_closed {A B : Type} (f : A -> Result B) (ok : A -> bool)
    (g : A -> B) (l : list A) :
  (forall x, ok x = true -> f x = Ok (g x)) ->
  (forall x, ok x = false -> exists e, f x = Throw e) ->
  if forallb ok l then mapM f l = Ok (map g l)
  else exists e, mapM f l = Throw e.
Proof.
  intros Hok Hno. induction l as [|x l IH]; [reflexivity|].
  cbn [forallb mapM map]. destruct (ok x) eqn:E; cbn [andb].
  - rewrite (Hok x E). cbn [bind]. destruct (forallb ok l).
    + now rewrite IH.
    + destruct IH as [e ->]. now exists e.
  - destruct (Hno x E) as [e ->]. now exists e.
Qed.

Lemma filterM_closed {A : Type} (f : A -> Result bool) (ok keep : A -> bool)
    (l : list A) :
  (forall x, ok x = true -> f x = Ok (keep x)) ->
  (forall x, ok x = false -> exists e, f x = Throw e) ->
  if forallb ok l then filterM f l = Ok (List.filter keep l)
  else exists e, filterM f l = Throw e.
Proof.
  intros Hok Hno. induction l as [|x l IH]; [reflexivity|].
  cbn [forallb filterM List.filter]. destruct (ok x) eqn:E; cbn [andb].
  - rewrite (Hok x E). cbn [bind]. destruct (forallb ok l).
    + now rewrite IH.
    + destruct IH as [e ->]. now exists e.
  - destruct (Hno x E) as [e ->]. now exists e.
Qed.

Lemma mapM_Forall {A B : Type} (f : A -> Result B) (P : B -> Prop)
    (l : list A) (ys : list B) :
  (forall x y, f x = Ok y -> P y) -> mapM f l = Ok ys -> Forall P ys.
Proof.
  intros Hf. revert ys. induction l as [|x l IH]; intros ys H.
  - injection H as <-. constructor.
  - cbn [mapM] in H. destruct (f x) as [y|] eqn:E; [|discriminate H].
    cbn [bind] in H. destruct (mapM f l) as [ys'|]; [|discriminate H].
    injection H as <-. constructor; [exact (Hf x y E) | now apply IH].
Qed.

Lemma OpenRouter_model_closed (m : JSValue) :
  (present m = true -> OpenRouter_model m = Ok (OpenRouter_info m))
  /\ (present m = false -> exists e, OpenRouter_model m = Throw e).
Proof.
  unfold present, OpenRouter_model, OpenRouter_info, dot.
  destruct (nullish m); cbn [negb bind]; split; try discriminate;
    intros _; [eexists|]; reflexivity.
Qed.

Lemma Ollama_model_closed (m : JSValue) :
  (present m = true -> Ollama_model m = Ok (Ollama_info m))
  /\ (present m = false -> exists e, Ollama_model m = Throw e).
Proof.
  unfold present, Ollama_model, Ollama_info, dot.
  destruct (nullish m); cbn [negb bind]; split; try discriminate;
    intros _; [eexists|]; reflexivity.
Qed.

Lemma generates_content_closed (m : JSValue) :
  (methods_readable m = true -> generates_content m = Ok (generates m))
  /\ (methods_readable m = false -> exists e, generates_content m = Throw e).
Proof.
  unfold methods_readable, present, generates_content, generates, dot.
  destruct (nullish m); cbn [negb bind andb];
    [split; [discriminate | intros _; eexists; reflexivity]|].
  destruct (prop m (str "supportedGenerationMethods")); split;
    try discriminate; try reflexivity; intros _; eexists; reflexivity.
Qed.

Lemma GoogleAI_model_closed (m : JSValue) :
  (present m && named m = true -> GoogleAI_model m = Ok (GoogleAI_info m))
  /\ (present m && named m = false -> exists e, GoogleAI_model m = Throw e).
Proof.
  unfold present, named, GoogleAI_model, GoogleAI_info, dot.
  destruct (nullish m); cbn [negb bind andb];
    [split; [discriminate | intros _; eexists; reflexivity]|].
  destruct (prop m (str "name")); split;
    try discriminate; try reflexivity; intros _; eexists; reflexivity.
Qed.

(** [listModels] returns a list for every adapter and every answer or
    failure of the transport, and every model of the list is marked as
    streaming. *)
Theorem listModels_never_raises :
  forall JSON_parse (p : LLMProvider) (answer : Result RequestUrlResponse),
  exists models : list ModelInfo,
    listModels JSON_parse p answer = Ok models
    /\ Forall (fun m => supportsStreaming m = true) models.
Proof.
  intros JSON_parse p answer.
  destruct p as [o|g|o|m|c]; cbn [listModels].
  - unfold OpenRouter_listModels.
    match goal with |- context [try_catch ?b _] => destruct b as [l|e] eqn:E end;
      cbn [try_catch]; eexists; (split; [reflexivity|]);
      [|repeat constructor].
    bind_inv E. eapply (mapM_Forall OpenRouter_model); [|exact E].
    intros x y H. unfold OpenRouter_model in H. bind_inv H. now injection H as <-.
  - unfold GoogleAI_listModels.
    match goal with |- context [try_catch ?b _] => destruct b as [l|e] eqn:E end;
      cbn [try_catch]; eexists; (split; [reflexivity|]);
      [|repeat constructor].
    bind_inv E. eapply (mapM_Forall GoogleAI_model); [|exact E].
    intros x y H. unfold GoogleAI_model in H. bind_inv H.
    match type of H with
    | match ?n with _ => _ end = _ => destruct n; try discriminate H
    end.
    now injection H as <-.
  - unfold Ollama_listModels.
    match goal with |- context [try_catch ?b _] => destruct b as [l|e] eqn:E end;
      cbn [try_catch]; eexists; (split; [reflexivity|]);
      [|repeat constructor].
    bind_inv E. eapply (mapM_Forall Ollama_model); [|exact E].
    intros x y H. unfold Ollama_model in H. bind_inv H. now injection H as <-.
  - eexists. split; [reflexivity | repeat constructor].
  - eexists. split; [reflexivity | repeat constructor].
Qed.

Lemma array_items_throws (v : JSValue) :
  (forall items : list JSValue, v <> JArr items) ->
  exists e, array_items v = Throw e.
Proof.
  intros H. destruct v; try (eexists; reflexivity).
  now contradiction (H items).
Qed.

(** The request for the list and the reading of its array, as the three
    adapters that ask their provider begin. *)
Lemma model_array_cases (JSON_parse : JSString -> option JSValue)
    (k : JSString) (answer : Result RequestUrlResponse) :
  (exists (data : JSValue) (items : list JSValue),
      answered_json JSON_parse answer data /\ prop data k = JArr items
      /\ forall (A : Type) (f : list JSValue -> Result A),
           (let! resp := requestUrl true answer in
            let! data := resp_json JSON_parse resp in
            let! models := dot data k in
            let! items := array_items models in
            f items) = f items)
  \/ (no_model_array JSON_parse k answer
      /\ forall (A : Type) (f : list JSValue -> Result A),
         exists e,
           (let! resp := requestUrl true answer in
            let! data := resp_json JSON_parse resp in
            let! models := dot data k in
            let! items := array_items models in
            f items) = Throw e).
Proof.
  unfold requestUrl, resp_json, parse_json, no_model_array, answered_json.
  destruct answer as [resp|e]; cbn [bind andb].
  2:{ right. split; [|intros; eexists; reflexivity].
      intros data (r & H & _). discriminate H. }
  destruct (400 <=? resp_status resp)%Z eqn:Hst; cbn [bind].
  { right. split; [|intros; eexists; reflexivity].
    intros data (r & H & Hlt & _). injection H as <-.
    apply Z.leb_le in Hst. lia. }
  destruct (JSON_parse (resp_text resp)) as [data|] eqn:P; cbn [bind].
  2:{ right. split; [|intros; eexists; reflexivity].
      intros data (r & H & _ & P'). injection H as <-.
      rewrite P in P'. discriminate P'. }
  unfold dot. destruct (nullish data) eqn:Hn; cbn [bind].
  { right. split; [|intros; eexists; reflexivity].
    intros d (r & H & _ & P') items. injection H as <-.
    rewrite P in P'. injection P' as <-. now destruct data. }
  destruct (prop data k) as [| |b|m e|s|items|fields] eqn:Hk;
    try (right; split; [|intros; eexists; reflexivity];
         intros d (r & H & _ & P') items; injection H as <-;
         rewrite P in P'; injection P' as <-; rewrite Hk; discriminate).
  left. exists data, items. split; [|split; [exact Hk | reflexivity]].
  exists resp. apply Z.leb_gt in Hst. now repeat split.
Qed.

Lemma answered_json_unique (JSON_parse : JSString -> option JSValue)
    (answer : Result RequestUrlResponse) (d d' : JSValue) :
  answered_json JSON_parse answer d -> answered_json JSON_parse answer d' ->
  d = d'.
Proof.
  intros (r & -> & _ & P) (r' & H & _ & P'). injection H as <-.
  rewrite P in P'. now injection P'.
Qed.

(** When no list of models comes back (the transport fails, the status is
    400 or above, the text is not JSON, or the list is not an array), the
    OpenRouter adapter lists its four known models, the Google AI adapter
    its three, and the local adapter none. *)
Theorem listModels_falls_back :
  forall JSON_parse (answer : Result RequestUrlResponse),
    no_model_array JSON_parse (str "data") answer ->
    no_model_array JSON_parse (str "models") answer ->
    OpenRouter_listModels JSON_parse answer = Ok OpenRouter_fallback
    /\ GoogleAI_listModels JSON_parse answer = Ok GoogleAI_fallback
    /\ Ollama_listModels JSON_parse answer = Ok [].
Proof.
  intros JSON_parse answer Hd Hm.
  unfold OpenRouter_listModels, GoogleAI_listModels, Ollama_listModels.
  split; [|split].
  - destruct (model_array_cases JSON_parse (str "data") answer)
      as [(data & items & Ha & Hk & _) | [_ H]].
    + now contradiction (Hd data Ha items).
    + destruct (H _ (mapM OpenRouter_model)) as [e ->]. reflexivity.
  - destruct (model_array_cases JSON_parse (str "models") answer)
      as [(data & items & Ha & Hk & _) | [_ H]].
    + now contradiction (Hm data Ha items).
    + destruct (H _ (fun items =>
                       let! kept := filterM generates_content items in
                       mapM GoogleAI_model kept)) as [e ->].
      reflexivity.
  - destruct (model_array_cases JSON_parse (str "models") answer)
      as [(data & items & Ha & Hk & _) | [_ H]].
    + now contradiction (Hm data Ha items).
    + destruct (H _ (mapM Ollama_model)) as [e ->]. reflexivity.
Qed.

(** The theorem at a transport that fails, and at an answer with status
    200 that holds the envelope of an error. *)
Lemma listModels_falls_back_witness :
  (OpenRouter_listModels ecma404_parse
     (Throw (new_Error (str "net::ERR_CONNECTION_REFUSED")))
   = Ok OpenRouter_fallback
   /\ GoogleAI_listModels ecma404_parse
        (Throw (new_Error (str "net::ERR_CONNECTION_REFUSED")))
      = Ok GoogleAI_fallback
   /\ Ollama_listModels ecma404_parse
        (Throw (new_Error (str "net::ERR_CONNECTION_REFUSED")))
      = Ok [])
  /\ (OpenRouter_listModels ecma404_parse
        (Ok (mkResponse 200 (json_lit "{'error':{'message':'Rate limit'}}")))
      = Ok OpenRouter_fallback
      /\ GoogleAI_listModels ecma404_parse
           (Ok (mkResponse 200 (json_lit "{'error':{'message':'Rate limit'}}")))
         = Ok GoogleAI_fallback
      /\ Ollama_listModels ecma404_parse
           (Ok (mkResponse 200 (json_lit "{'error':{'message':'Rate limit'}}")))
         = Ok []).
Proof.
  split.
  - apply (listModels_falls_back ecma404_parse
             (Throw (new_Error (str "net::ERR_CONNECTION_REFUSED"))));
      intros data (r & H & _); discriminate H.
  - apply (listModels_falls_back ecma404_parse
             (Ok (mkResponse 200
                    (json_lit "{'error':{'message':'Rate limit'}}"))));
      intros data (r & H & _ & P) items; injection H as <-;
      vm_compute in P; injection P as <-; vm_compute; discriminate.
Defined.

(** From an answer that holds an array of models, the OpenRouter adapter
    and the local adapter list one entry for each element, in their order;
    one element that is [null] voids the list, and the known models, or
    none, are listed in its place. *)
Theorem listModels_lists_every_element :
  forall JSON_parse (answer : Result RequestUrlResponse)
         (data : JSValue) (items : list JSValue),
    answered_json JSON_parse answer data ->
    (prop data (str "data") = JArr items ->
     OpenRouter_listModels JSON_parse answer
     = Ok (if forallb present items then map OpenRouter_info items
           else OpenRouter_fallback))
    /\ (prop data (str "models") = JArr items ->
        Ollama_listModels JSON_parse answer
        = Ok (if forallb present items then map Ollama_info items else [])).
Proof.
  intros JSON_parse answer data items Ha.
  unfold OpenRouter_listModels, Ollama_listModels. split; intros Hk.
  - destruct (model_array_cases JSON_parse (str "data") answer)
      as [(data' & items' & Ha' & Hk' & H) | [Hno _]].
    2: now contradiction (Hno data Ha items).
    rewrite (answered_json_unique _ _ _ _ Ha' Ha), Hk in Hk'.
    injection Hk' as <-. rewrite H.
    pose proof (mapM_closed OpenRouter_model present OpenRouter_info items
                  (fun m => proj1 (OpenRouter_model_closed m))
                  (fun m => proj2 (OpenRouter_model_closed m))) as M.
    destruct (forallb present items); [now rewrite M|].
    destruct M as [e ->]. reflexivity.
  - destruct (model_array_cases JSON_parse (str "models") answer)
      as [(data' & items' & Ha' & Hk' & H) | [Hno _]].
    2: now contradiction (Hno data Ha items).
    rewrite (answered_json_unique _ _ _ _ Ha' Ha), Hk in Hk'.
    injection Hk' as <-. rewrite H.
    pose proof (mapM_closed Ollama_model present Ollama_info items
                  (fun m => proj1 (Ollama_model_closed m))
                  (fun m => proj2 (Ollama_model_closed m))) as M.
    destruct (forallb present items); [now rewrite M|].
    destruct M as [e ->]. reflexivity.
Qed.

(** From an answer that holds an array of models, the Google AI adapter
    lists the models whose generation methods include [generateContent],
    each under its name without the first [models/]; an element whose
    methods cannot be searched, or a listed element whose name is not a
    text, voids the list, and the known models are listed in its place. *)
Theorem GoogleAI_listModels_lists_generating_models :
  forall JSON_parse (answer : Result RequestUrlResponse)
         (data : JSValue) (items : list JSValue),
    answered_json JSON_parse answer data ->
    prop data (str "models") = JArr items ->
    GoogleAI_listModels JSON_parse answer
    = Ok (if forallb methods_readable items
             && forallb named (List.filter generates items)
          then map GoogleAI_info (List.filter generates items)
          else GoogleAI_fallback).
Proof.
  intros JSON_parse answer data items Ha Hk. unfold GoogleAI_listModels.
  destruct (model_array_cases JSON_parse (str "models") answer)
    as [(data' & items' & Ha' & Hk' & H) | [Hno _]].
  2: now contradiction (Hno data Ha items).
  rewrite (answered_json_unique _ _ _ _ Ha' Ha), Hk in Hk'.
  injection Hk' as <-. rewrite H.
  pose proof (filterM_closed generates_content methods_readable generates items
                (fun m => proj1 (generates_content_closed m))
                (fun m => proj2 (generates_content_closed m))) as F.
  destruct (forallb methods_readable items) eqn:Er; cbn [andb].
  2:{ destruct F as [e ->]. reflexivity. }
  rewrite F. cbn [bind].
  assert (Hp : forallb present (List.filter generates items) = true).
  { apply forallb_forall. intros m Hm. apply filter_In in Hm as [Hin _].
    pose proof (proj1 (forallb_forall _ _) Er m Hin) as Hr.
    unfold methods_readable in Hr. now apply andb_true_iff in Hr as [Hr _]. }
  pose proof (mapM_closed GoogleAI_model (fun m => present m && named m)
                GoogleAI_info (List.filter generates items)
                (fun m => proj1 (GoogleAI_model_closed m))
                (fun m => proj2 (GoogleAI_model_closed m))) as M.
  assert (E : forallb (fun m => present m && named m)
                (List.filter generates items)
              = forallb named (List.filter generates items)).
  { revert Hp. generalize (List.filter generates items) as l.
    induction l as [|m l IH]; [reflexivity|]. cbn [forallb]. intros Hp.
    apply andb_true_iff in Hp as [-> Hp]. cbn [andb]. now rewrite IH. }
  rewrite E in M.
  destruct (forallb named (List.filter generates items)); [now rewrite M|].
  destruct M as [e ->]. reflexivity.
Qed.

(** The theorem at a list of two models and at a list with a [null]. *)
Lemma listModels_lists_every_element_witness :
  OpenRouter_listModels ecma404_parse (Ok openrouter_models)
  = Ok [mkModel (JStr (str "openai/gpt-4o")) (JStr (str "GPT-4o"))
          (JNum 128000 0) true;
        mkModel (JStr (str "x/y")) (JStr (str "x/y")) JUndefined true]
  /\ Ollama_listModels ecma404_parse (Ok ollama_models_with_null) = Ok [].
Proof.
  split.
  - eassert (Ha : answered_json ecma404_parse (Ok openrouter_models) _).
    { eexists. split; [reflexivity|]. split; [reflexivity|].
      vm_compute. reflexivity. }
    etransitivity.
    + eapply (proj1 (listModels_lists_every_element _ _ _ _ Ha)).
      vm_compute. reflexivity.
    + vm_compute. reflexivity.
  - eassert (Ha : answered_json ecma404_parse (Ok ollama_models_with_null) _).
    { eexists. split; [reflexivity|]. split; [reflexivity|].
      vm_compute. reflexivity. }
    etransitivity.
    + eapply (proj2 (listModels_lists_every_element _ _ _ _ Ha)).
      vm_compute. reflexivity.
    + vm_compute. reflexivity.
Defined.

(** The theorem at a list of a chat model and an embedding model. *)
Lemma GoogleAI_listModels_lists_generating_models_witness :
  GoogleAI_listModels ecma404_parse (Ok gemini_models)
  = Ok [mkModel (JStr (str "gemini-2.0-flash")) (JStr (str "Gemini 2.0 Flash"))
          (JNum 1048576 0) true].
Proof.
  eassert (Ha : answered_json ecma404_parse (Ok gemini_models) _).
  { eexists. split; [reflexivity|]. split; [reflexivity|].
    vm_compute. reflexivity. }
  etransitivity.
  - eapply (GoogleAI_listModels_lists_generating_models _ _ _ _ Ha).
    vm_compute. reflexivity.
  - vm_compute. reflexivity.
Defined.

(** ** The providers the plugin registers *)

Lemma get_register (r : ProviderRegistry) (p : LLMProvider) (id : JSString) :
  get (register r p) id
  = if str_eqb id (provider_id p) then Some p else get r id.
Proof.
  unfold get, register. cbn [providers].
  destruct (str_eqb id (provider_id p)) eqn:E.
  - apply str_eqb_eq in E as ->. apply lookup_insert_eq.
  - apply lookup_insert_ne. intros H. rewrite H in E.
    now rewrite str_eqb_refl in E.
Qed.

Lemma get_clear (r : ProviderRegistry) (id : JSString) : get (clear r) id = None.
Proof. unfold get, clear. cbn [providers]. apply lookup_empty. Qed.

(** What the registry holds under [id] once the providers are
    initialised. *)
Lemma get_initializeProviders (settings : VaultAISettings)
    (r : ProviderRegistry) (id : JSString) :
  get (initializeProviders settings r) id
  = if str_eqb id (str "openai-compatible") then
      if truthy (JStr (customApiUrl settings))
         && truthy (JStr (customModel settings)) then
        Some (OpenAICompatible
                (new_OpenAICompatibleProvider (customApiUrl settings)
                   (customApiKey settings) (customModel settings)))
      else None
    else if str_eqb id (str "minimax") then
      if truthy (JStr (minimaxApiKey settings)) then
        Some (Minimax (new_MinimaxProvider (minimaxApiKey settings)
                         (minimaxRegion settings)
                         (minimaxShowThinking settings)))
      else None
    else if str_eqb id (str "ollama") then
      Some (Ollama (mkOllama (ollamaUrl settings)))
    else if str_eqb id (str "google-ai") then
      if truthy (JStr (googleApiKey settings)) then
        Some (GoogleAI (mkGoogleAI (googleApiKey settings)))
      else None
    else if str_eqb id (str "openrouter") then
      if truthy (JStr (openrouterApiKey settings)) then
        Some (OpenRouter (mkOpenRouter (openrouterApiKey settings) None))
      else None
    else None.
Proof.
  unfold initializeProviders.
  destruct (truthy (JStr (customApiUrl settings))
            && truthy (JStr (customModel settings)));
    destruct (truthy (JStr (minimaxApiKey settings)));
    destruct (truthy (JStr (googleApiKey settings)));
    destruct (truthy (JStr (openrouterApiKey settings)));
    rewrite ?get_register, ?get_clear; cbn [provider_id];
    repeat match goal with
      | |- context [str_eqb id ?k] =>
          let E := fresh "E" in
          destruct (str_eqb id k) eqn:E;
          [apply str_eqb_eq in E; subst id; reflexivity|]
      end;
    reflexivity.
Qed.

Lemma new_OpenAICompatibleProvider_baseUrl (baseUrl0 apiKey0 modelId0 : JSString) :
  baseUrl (new_OpenAICompatibleProvider baseUrl0 apiKey0 modelId0) <> [].
Proof.
  unfold new_OpenAICompatibleProvider. cbn [baseUrl].
  set (u := replace_trailing_slashes baseUrl0).
  destruct (includes u (str "/chat/completions")) eqn:Hi; cbn [negb].
  - intros E. rewrite E in Hi. discriminate Hi.
  - destruct (endsWith u (str "/v1")); [now destruct u|].
    destruct (endsWith u (str "/completions")) eqn:Hc; cbn [negb].
    + intros E. rewrite E in Hc. discriminate Hc.
    + now destruct u.
Qed.

(** Once the providers are initialised, the active provider is missing
    exactly when the settings select a provider whose key, or URL and
    model, is empty, or one that is not among the five; the providers that
    were registered before play no part. *)
Theorem getActiveProvider_missing_iff_not_selectable :
  forall (settings : VaultAISettings) (r : ProviderRegistry),
    (getActiveProvider settings (initializeProviders settings r) = None
     <-> selectable settings = false)
    /\ (forall r' : ProviderRegistry,
          initializeProviders settings r' = initializeProviders settings r).
Proof.
  intros settings r. split; [|reflexivity].
  unfold getActiveProvider, selectable. rewrite get_initializeProviders.
  destruct (str_eqb (provider settings) (str "openrouter")) eqn:E1.
  { apply str_eqb_eq in E1. rewrite E1.
    change (str_eqb (str "openrouter") (str "openai-compatible")) with false.
    change (str_eqb (str "openrouter") (str "minimax")) with false.
    change (str_eqb (str "openrouter") (str "ollama")) with false.
    change (str_eqb (str "openrouter") (str "google-ai")) with false.
    change (str_eqb (str "openrouter") (str "openrouter")) with true.
    cbv iota. destruct (truthy (JStr (openrouterApiKey settings)));
      split; (reflexivity || discriminate). }
  destruct (str_eqb (provider settings) (str "google-ai")) eqn:E2.
  { apply str_eqb_eq in E2. rewrite E2.
    change (str_eqb (str "google-ai") (str "openai-compatible")) with false.
    change (str_eqb (str "google-ai") (str "minimax")) with false.
    change (str_eqb (str "google-ai") (str "ollama")) with false.
    change (str_eqb (str "google-ai") (str "google-ai")) with true.
    cbv iota. destruct (truthy (JStr (googleApiKey settings)));
      split; (reflexivity || discriminate). }
  destruct (str_eqb (provider settings) (str "ollama")) eqn:E3.
  { apply str_eqb_eq in E3. rewrite E3.
    change (str_eqb (str "ollama") (str "openai-compatible")) with false.
    change (str_eqb (str "ollama") (str "minimax")) with false.
    change (str_eqb (str "ollama") (str "ollama")) with true.
    cbv iota. split; discriminate. }
  destruct (str_eqb (provider settings) (str "minimax")) eqn:E4.
  { apply str_eqb_eq in E4. rewrite E4.
    change (str_eqb (str "minimax") (str "openai-compatible")) with false.
    change (str_eqb (str "minimax") (str "minimax")) with true.
    cbv iota. destruct (truthy (JStr (minimaxApiKey settings)));
      split; (reflexivity || discriminate). }
  destruct (str_eqb (provider settings) (str "openai-compatible")) eqn:E5.
  { destruct (truthy (JStr (customApiUrl settings))
              && truthy (JStr (customModel settings)));
      split; (reflexivity || discriminate). }
  split; reflexivity.
Qed.

(** A provider that is found in the registry once the providers are
    initialised is found under its own identifier, and it is configured:
    [validate] of the generic adapter has its base URL and its model. *)
Theorem registered_providers_are_configured :
  forall (settings : VaultAISettings) (r : ProviderRegistry)
         (id : JSString) (p : LLMProvider),
    get (initializeProviders settings r) id = Some p ->
    provider_id p = id /\ configured p = true.
Proof.
  intros settings r id p. rewrite get_initializeProviders.
  repeat match goal with
    | |- context [str_eqb id ?k] =>
        let E := fresh "E" in
        destruct (str_eqb id k) eqn:E; [apply str_eqb_eq in E; subst id|]
    end; try discriminate.
  - destruct (truthy (JStr (customApiUrl settings))) eqn:Hu; [|discriminate].
    destruct (truthy (JStr (customModel settings))) eqn:Hm; [|discriminate].
    cbn [andb]. intros H. injection H as <-. split; [reflexivity|].
    cbn [configured]. rewrite truthy_text.
    pose proof (new_OpenAICompatibleProvider_baseUrl (customApiUrl settings)
                  (customApiKey settings) (customModel settings)) as Hb.
    destruct (baseUrl _); [contradiction|]. exact Hm.
  - destruct (truthy (JStr (minimaxApiKey settings))); [|discriminate].
    intros H. injection H as <-. now split.
  - intros H. injection H as <-. now split.
  - destruct (truthy (JStr (googleApiKey settings))); [|discriminate].
    intros H. injection H as <-. now split.
  - destruct (truthy (JStr (openrouterApiKey settings))); [|discriminate].
    intros H. injection H as <-. now split.
Qed.

(** The theorem at the default settings with a key for OpenRouter. *)
Lemma registered_providers_are_configured_witness :
  provider_id (OpenRouter (mkOpenRouter (str "sk-or-1") None))
  = str "openrouter"
  /\ configured (OpenRouter (mkOpenRouter (str "sk-or-1") None)) = true.
Proof.
  apply (registered_providers_are_configured
           (mkSettings (str "openrouter") (str "sk-or-1") []
              (str "http://localhost:11434") [] international false [] [] [])
           new_ProviderRegistry (str "openrouter")
           (OpenRouter (mkOpenRouter (str "sk-or-1") None))).
  vm_compute. reflexivity.
Defined.

(** With the settings of a fresh installation no provider is active, and
    the local daemon is registered all the same. *)
Lemma initializeProviders_examples :
  getActiveProvider DEFAULT_SETTINGS
    (initializeProviders DEFAULT_SETTINGS new_ProviderRegistry) = None
  /\ get (initializeProviders DEFAULT_SETTINGS new_ProviderRegistry)
       (str "ollama")
     = Some (Ollama (mkOllama (str "http://localhost:11434"))).
Proof.
  unfold getActiveProvider. rewrite !get_initializeProviders.
  split; reflexivity.
Qed.

(** * Properties of saved chats *)

Lemma trimStart_blank (w s : JSString) :
  blank w = true -> trimStart (w ++ s) = trimStart s.
Proof.
  unfold blank. induction w as [|c w IH]; [reflexivity|].
  cbn [forallb app trimStart]. intros H. apply andb_prop in H as [-> Hw].
  now apply IH.
Qed.

Lemma trimStart_nil_iff (s : JSString) :
  trimStart s = [] <-> blank s = true.
Proof.
  unfold blank. induction s as [|c s IH]; [now split|].
  cbn [trimStart forallb]. destruct (is_js_space c); cbn [andb];
    [exact IH | split; discriminate].
Qed.

Lemma trimStart_suffix (s : JSString) :
  exists w : JSString, blank w = true /\ s = w ++ trimStart s.
Proof.
  unfold blank. induction s as [|c s (w & Hw & E)]; [now exists []|].
  cbn [trimStart]. destruct (is_js_space c) eqn:Hc.
  - exists (c :: w). cbn [forallb app]. rewrite Hc, Hw. split; [reflexivity|].
    now f_equal.
  - now exists [].
Qed.

Lemma trimStart_length (s : JSString) :
  (List.length (trimStart s) <= List.length s)%nat.
Proof.
  destruct (trimStart_suffix s) as (w & _ & E). rewrite E at 2.
  rewrite length_app. lia.
Qed.

Lemma trimStart_app (s x : JSString) :
  trimStart s <> [] -> trimStart (s ++ x) = trimStart s ++ x.
Proof.
  induction s as [|c s IH]; [contradiction|].
  cbn [app trimStart]. destruct (is_js_space c); [exact IH | reflexivity].
Qed.

Lemma trimStart_same_length (s : JSString) :
  List.length (trimStart s) = List.length s -> trimStart s = s.
Proof.
  destruct (trimStart_suffix s) as (w & _ & E). intros H.
  rewrite E in H at 2. rewrite length_app in H.
  destruct w; [exact (eq_sym E) | cbn [List.length] in H; lia].
Qed.

Lemma blank_rev (w : JSString) : blank w = true -> blank (rev w) = true.
Proof.
  unfold blank. intros H. apply forallb_forall. intros c Hc.
  apply in_rev in Hc. exact (proj1 (forallb_forall _ _) H c Hc).
Qed.

Lemma blank_app (a b : JSString) : blank (a ++ b) = blank a && blank b.
Proof. apply forallb_app. Qed.

(** White space around a text does not change what [trim] gives. *)
Lemma trim_pad (w1 s w2 : JSString) :
  blank w1 = true -> blank w2 = true -> trim (w1 ++ s ++ w2) = trim s.
Proof.
  intros H1 H2. unfold trim. rewrite (trimStart_blank w1 _ H1).
  destruct (trimStart s) as [|c t] eqn:E.
  - apply trimStart_nil_iff in E.
    assert (E' : trimStart (s ++ w2) = [])
      by (apply trimStart_nil_iff; rewrite blank_app, E, H2; reflexivity).
    now rewrite E'.
  - rewrite trimStart_app by (rewrite E; discriminate).
    rewrite E, rev_app_distr.
    now rewrite (trimStart_blank (rev w2) _ (blank_rev _ H2)).
Qed.

Lemma trim_fixed_inv (c : JSString) :
  trim c = c -> trimStart c = c /\ trimStart (rev c) = rev c.
Proof.
  intros H.
  assert (L : List.length (trim c) = List.length c) by now rewrite H.
  unfold trim in L. rewrite length_rev in L.
  pose proof (trimStart_length (rev (trimStart c))) as L1.
  rewrite length_rev in L1.
  pose proof (trimStart_length c) as L2.
  assert (E : trimStart c = c) by (apply trimStart_same_length; lia).
  split; [exact E|].
  unfold trim in H. rewrite E in H.
  apply (f_equal (@rev N)) in H. now rewrite rev_involutive in H.
Qed.

Lemma trimStart_fixed_app (s x : JSString) :
  s <> [] -> trimStart s = s -> trimStart (s ++ x) = s ++ x.
Proof.
  intros Hne E. rewrite trimStart_app by (rewrite E; exact Hne).
  now rewrite E.
Qed.

(** A label, an empty line and a trimmed content, trimmed. *)
Lemma trim_saved_message (r : Role) (c : JSString) :
  trim c = c ->
  trim (roleLabel r ++ [10; 10] ++ c)
  = match c with
    | [] => roleLabel r
    | _ => roleLabel r ++ [10; 10] ++ c
    end.
Proof.
  intros H. apply trim_fixed_inv in H as [_ Hr].
  assert (Hl : roleLabel r <> [] /\ trimStart (roleLabel r) = roleLabel r
               /\ trimStart (rev (roleLabel r)) = rev (roleLabel r))
    by (destruct r; repeat split; discriminate).
  destruct Hl as (Hne & Hs & He).
  unfold trim. rewrite (trimStart_fixed_app _ _ Hne Hs).
  destruct c as [|x c].
  - rewrite rev_app_distr.
    change (rev ([10; 10] ++ [])) with ([10; 10] : JSString).
    rewrite (trimStart_blank [10; 10] _ eq_refl), He.
    apply rev_involutive.
  - rewrite !rev_app_distr, <- app_assoc.
    rewrite trimStart_fixed_app; [|intros E; apply (f_equal (@rev N)) in E;
      rewrite rev_involutive in E; discriminate E | exact Hr].
    now rewrite app_assoc, <- !rev_app_distr, rev_involutive.
Qed.

Lemma remove_first_prefix (p x : JSString) : remove_first p (p ++ x) = x.
Proof.
  assert (K : skipn (List.length p) (p ++ x) = x).
  { induction p as [|c p IH]; [reflexivity | exact IH]. }
  destruct (p ++ x) as [|c t] eqn:E.
  - destruct p; [|discriminate E]. cbn [app] in E. subst x. reflexivity.
  - assert (Hs : startsWith (c :: t) p = true)
      by (rewrite <- E; apply startsWith_app).
    cbn [remove_first]. rewrite Hs. exact K.
Qed.

(** A saved message between white space is read back as it was. *)
Lemma parse_part_saved_message (w1 w2 : JSString) (m : ChatMessage) :
  blank w1 = true -> blank w2 = true ->
  trim (msg_content m) = msg_content m ->
  parse_part (w1 ++ saved_message m ++ w2) = [m].
Proof.
  intros H1 H2 Hc. unfold parse_part, saved_message.
  rewrite (trim_pad w1 _ w2 H1 H2), (trim_saved_message _ _ Hc).
  destruct m as [r c]. cbn [role msg_content] in *.
  assert (T : trim (remove_first (roleLabel r)
                      match c with
                      | [] => roleLabel r
                      | _ => roleLabel r ++ [10; 10] ++ c
                      end) = c).
  { destruct c as [|x c].
    - rewrite <- (app_nil_r (roleLabel r)) at 2.
      now rewrite remove_first_prefix.
    - rewrite remove_first_prefix.
      rewrite <- (app_nil_r (x :: c)) at 1.
      rewrite (trim_pad [10; 10] (x :: c) [] eq_refl eq_refl). exact Hc. }
  destruct r; cbn [roleLabel] in *.
  - assert (S1 : forall t, startsWith (str "**System:**" ++ t) (str "**You:**")
                           = false) by reflexivity.
    assert (S2 : forall t, startsWith (str "**System:**" ++ t)
                             (str "**Assistant:**") = false) by reflexivity.
    destruct c as [|x c].
    + rewrite T. reflexivity.
    + rewrite truthy_text, S1, S2, startsWith_app, T. reflexivity.
  - destruct c as [|x c].
    + rewrite T. reflexivity.
    + rewrite truthy_text, startsWith_app, T. reflexivity.
  - assert (S1 : forall t, startsWith (str "**Assistant:**" ++ t)
                             (str "**You:**") = false) by reflexivity.
    destruct c as [|x c].
    + rewrite T. reflexivity.
    + rewrite truthy_text, S1, startsWith_app, T. reflexivity.
Qed.

Lemma startsWith_longer (u v p : JSString) :
  (List.length p <= List.length u)%nat ->
  startsWith (u ++ v) p = startsWith u p.
Proof.
  revert u. induction p as [|y p IH]; intros u H; [reflexivity|].
  destruct u as [|x u]; [cbn [List.length] in H; lia|].
  cbn [app startsWith]. rewrite IH; [reflexivity|].
  cbn [List.length] in H. lia.
Qed.

Lemma split_from_skip (p q rest : JSString) :
  split_from p (List.length q) (q ++ rest) = split_from p 0 rest.
Proof. induction q as [|c q IH]; [reflexivity | exact IH]. Qed.

Lemma clear_before_startsWith (p a rest : JSString) (c : N) :
  p <> [] -> clear_before p (c :: a) ->
  startsWith ((c :: a) ++ p ++ rest) p = false /\ clear_before p a.
Proof.
  unfold clear_before. intros Hp H. cbn [app includes] in H.
  apply orb_false_iff in H as [Hs Hi]. split; [|exact Hi].
  pose proof (app_removelast_last 0 Hp) as Ep.
  pose proof (f_equal (@List.length N) Ep) as L.
  rewrite length_app in L. cbn [List.length] in L.
  assert (E : (c :: a) ++ p ++ rest
              = ((c :: a) ++ removelast p) ++ List.last p 0 :: rest).
  { rewrite Ep at 1. now rewrite <- !app_assoc. }
  rewrite E, startsWith_longer; [exact Hs|].
  cbn [app List.length]. rewrite length_app. lia.
Qed.

Lemma split_on_first (p a rest : JSString) :
  p <> [] -> clear_before p a ->
  split_on p (a ++ p ++ rest) = a :: split_on p rest.
Proof.
  intros Hp. unfold split_on. induction a as [|c a IH]; intros H.
  - destruct p as [|y p]; [contradiction|]. cbn [app split_from].
    change (y :: p ++ rest) with ((y :: p) ++ rest).
    rewrite startsWith_app. cbn [List.length Nat.sub].
    rewrite Nat.sub_0_r. now rewrite split_from_skip.
  - destruct (clear_before_startsWith p a rest c Hp H) as [Hs Ha].
    cbn [app split_from] in *. rewrite Hs, (IH Ha). reflexivity.
Qed.

Lemma after_first_app (p a rest : JSString) :
  p <> [] -> clear_before p a ->
  after_first p (a ++ p ++ rest) = Some rest.
Proof.
  intros Hp. induction a as [|c a IH]; intros H.
  - assert (K : skipn (List.length p) (p ++ rest) = rest).
    { clear. induction p as [|c p IH]; [reflexivity | exact IH]. }
    cbn [app]. destruct (p ++ rest) as [|y t] eqn:E;
      [destruct p; [contradiction | discriminate E]|].
    assert (Hs : startsWith (y :: t) p = true)
      by (rewrite <- E; apply startsWith_app).
    cbn [after_first]. rewrite Hs. now rewrite K.
  - destruct (clear_before_startsWith p a rest c Hp H) as [Hs Ha].
    cbn [app after_first] in *. rewrite Hs. exact (IH Ha).
Qed.

Lemma split_on_none (p a : JSString) :
  includes a p = false -> split_on p a = [a].
Proof.
  unfold split_on. induction a as [|c a IH]; [reflexivity|].
  cbn [includes split_from]. intros H.
  apply orb_false_iff in H as [-> Hi]. now rewrite (IH Hi).
Qed.

(** ** The lines of a saved chat *)

Lemma split_lines_line_feed (a b : JSString) :
  split_lines (a ++ 10 :: b) = split_lines a ++ split_lines b.
Proof.
  rewrite split_lines_app, (split_lines_line _ _ (partial_line_no_line_feed a)).
  unfold complete_lines, partial_line.
  rewrite (app_removelast_last [] (split_lines_nonempty a)) at 3.
  now rewrite <- app_assoc.
Qed.

Lemma includes_split (s p : JSString) :
  includes s p = true -> exists a b : JSString, s = a ++ p ++ b.
Proof.
  induction s as [|c s IH]; cbn [includes]; intros H;
    apply orb_prop in H as [H|H].
  - apply startsWith_inv in H. now exists [], (skipn (List.length p) []).
  - discriminate H.
  - apply startsWith_inv in H. now exists [], (skipn (List.length p) (c :: s)).
  - destruct (IH H) as (a & b & ->). now exists (c :: a), b.
Qed.

(** An occurrence of the divider is a complete line of three dashes. *)
Lemma divider_line (s : JSString) :
  includes s divider = true -> In (str "---") (complete_lines s).
Proof.
  intros H. apply includes_split in H as (a & b & ->).
  unfold complete_lines.
  change (a ++ divider ++ b) with (a ++ 10 :: (str "---" ++ 10 :: b)).
  rewrite split_lines_line_feed, (split_lines_line (str "---") b eq_refl).
  rewrite removelast_app by discriminate.
  rewrite removelast_cons by apply split_lines_nonempty.
  apply in_or_app. right. now left.
Qed.

Lemma In_removelast {A : Type} (x : A) (l : list A) :
  In x (removelast l) -> In x l.
Proof.
  induction l as [|y l IH]; [trivial|]. destruct l as [|z l]; [contradiction|].
  intros [H|H]; [now left | right; now apply IH].
Qed.

Lemma no_rule_no_divider (s : JSString) :
  ~ In (str "---") (split_lines s) -> includes s divider = false.
Proof.
  intros H. destruct (includes s divider) eqn:E; [|reflexivity].
  exfalso. apply H. apply In_removelast. exact (divider_line s E).
Qed.

Lemma no_rule_clear_before (a : JSString) :
  ~ In (str "---") (split_lines a) -> clear_before divider a.
Proof.
  intros H. unfold clear_before.
  destruct (includes (a ++ removelast divider) divider) eqn:E; [|reflexivity].
  exfalso. apply H. apply divider_line in E. revert E. unfold complete_lines.
  change (a ++ removelast divider) with (a ++ 10 :: str "---").
  rewrite split_lines_line_feed.
  change (split_lines (str "---")) with [str "---"].
  now rewrite removelast_last.
Qed.

Lemma saved_message_lines (m : ChatMessage) :
  ~ In (str "---") (split_lines (msg_content m)) ->
  ~ In (str "---") (split_lines (10 :: saved_message m))
  /\ ~ In (str "---") (split_lines (10 :: saved_message m ++ [10])).
Proof.
  intros H. unfold saved_message.
  assert (L : split_lines (roleLabel (role m)) = [roleLabel (role m)])
    by now destruct (role m).
  assert (Hl : roleLabel (role m) <> str "---") by now destruct (role m).
  split.
  - change (10 :: roleLabel (role m) ++ [10; 10] ++ msg_content m)
      with ([] ++ 10 :: (roleLabel (role m) ++ 10 :: ([] ++ 10 :: msg_content m))).
    rewrite !split_lines_line_feed, L. cbn [split_lines app].
    intros [E|[E|[E|E]]]; try discriminate E;
      [now apply Hl | now apply H].
  - rewrite <- app_assoc.
    change (10 :: roleLabel (role m) ++ ([10; 10] ++ msg_content m) ++ [10])
      with ([] ++ 10 :: (roleLabel (role m)
                          ++ 10 :: ([] ++ 10 :: (msg_content m ++ 10 :: [])))).
    rewrite !split_lines_line_feed, L. cbn [split_lines app].
    intros [E|[E|[E|E]]]; try discriminate E; [now apply Hl|].
    apply in_app_or in E as [E|[E|[]]]; [now apply H | discriminate E].
Qed.

Lemma no_rule_line (l rest : JSString) :
  ~ In (str "---") (split_lines l) -> ~ In (str "---") (split_lines rest) ->
  ~ In (str "---") (split_lines (l ++ [10] ++ rest)).
Proof.
  intros Hl Hr. change (l ++ [10] ++ rest) with (l ++ 10 :: rest).
  rewrite split_lines_line_feed. intros H.
  apply in_app_or in H as [H|H]; [now apply Hl | now apply Hr].
Qed.

Lemma no_line_feed_app (a b : JSString) :
  no_line_feed a -> no_line_feed b -> no_line_feed (a ++ b).
Proof.
  unfold no_line_feed. intros Ha Hb. now rewrite forallb_app, Ha, Hb.
Qed.

(** A line that does not start with a dash is no rule. *)
Lemma no_rule_plain (c : N) (a t : JSString) :
  c <> 45 -> no_line_feed (c :: a) -> no_line_feed t ->
  ~ In (str "---") (split_lines ((c :: a) ++ t)).
Proof.
  intros Hc Ha Ht.
  rewrite (split_lines_no_line_feed _ (no_line_feed_app _ _ Ha Ht)).
  intros [E|[]]. injection E as E _. now apply Hc.
Qed.

Lemma join_no_rule (parts : list JSString) :
  parts <> [] ->
  Forall (fun l => ~ In (str "---") (split_lines l)) parts ->
  ~ In (str "---") (split_lines (join [10] parts)).
Proof.
  intros Hne H. induction H as [|l parts Hl Hparts IH]; [contradiction|].
  destruct parts as [|l' parts]; [exact Hl|].
  change (join [10] (l :: l' :: parts)) with (l ++ [10] ++ join [10] (l' :: parts)).
  apply no_rule_line; [exact Hl | apply IH; discriminate].
Qed.

Lemma frontmatter_lines_no_rule (data : ChatData) (timestamp : JSString) :
  no_line_feed timestamp -> no_line_feed (cd_provider data) ->
  no_line_feed (cd_model data) -> Forall no_line_feed (cd_sources data) ->
  ~ In (str "---") (split_lines (frontmatter_lines data timestamp)).
Proof.
  intros Ht Hp Hm Hs. unfold frontmatter_lines.
  rewrite (app_assoc (str "created: ")). apply no_rule_line.
  { change (str "created: ") with (99 :: str "reated: ").
    apply no_rule_plain; [discriminate | reflexivity | exact Ht]. }
  rewrite (app_assoc (str "provider: ")). apply no_rule_line.
  { change (str "provider: ") with (112 :: str "rovider: ").
    apply no_rule_plain; [discriminate | reflexivity | exact Hp]. }
  rewrite (app_assoc (str "model: ")). apply no_rule_line.
  { change (str "model: ") with (109 :: str "odel: ").
    apply no_rule_plain; [discriminate | reflexivity | exact Hm]. }
  apply no_rule_line; [intros [E|[]]; discriminate E|].
  apply no_rule_line;
    [|intros [E|[E|[]]]; discriminate E].
  destruct (cd_sources data) as [|s sources] eqn:E.
  { intros [E'|[]]. discriminate E'. }
  cbn [List.length Nat.ltb Nat.leb]. apply join_no_rule; [discriminate|].
  apply Forall_map. rewrite <- E in Hs |- *. clear E.
  eapply Forall_impl; [exact Hs|]. intros x Hx. cbv beta.
  change (str "  - " ++ [34] ++ str "[[" ++ x ++ str "]]" ++ [34])
    with ((32 :: str " - " ++ [34] ++ str "[[") ++ x ++ str "]]" ++ [34]).
  apply no_rule_plain; [discriminate | reflexivity|].
  apply no_line_feed_app; [exact Hx | reflexivity].
Qed.

Lemma formatChatAsMarkdown_eq (data : ChatData) (timestamp : JSString) :
  formatChatAsMarkdown data timestamp
  = (str "---" ++ [10])
    ++ frontmatter_lines data timestamp ++ divider
    ++ 10 :: join message_separator (map saved_message (cd_messages data)).
Proof.
  unfold formatChatAsMarkdown, frontmatter_lines, divider.
  rewrite <- !app_assoc. reflexivity.
Qed.

(** The messages of a saved body are read back. *)
Lemma parse_saved_messages (messages : list ChatMessage) :
  Forall (fun m => restorable (msg_content m)) messages ->
  List.concat
    (map parse_part
       (split_on divider
          (10 :: join message_separator (map saved_message messages))))
  = messages.
Proof.
  intros H. induction H as [|m ms [Ht Hr] Hms IH]; [reflexivity|].
  destruct (saved_message_lines m Hr) as [L1 L2].
  destruct ms as [|m' ms].
  - cbn [map join].
    rewrite (split_on_none _ _ (no_rule_no_divider _ L1)).
    cbn [map List.concat]. rewrite app_nil_r.
    rewrite <- (app_nil_r (saved_message m)).
    exact (parse_part_saved_message [10] [] m eq_refl eq_refl Ht).
  - change (10 :: join message_separator (map saved_message (m :: m' :: ms)))
      with (10 :: saved_message m
                  ++ message_separator
                  ++ join message_separator (map saved_message (m' :: ms))).
    change (10 :: saved_message m ++ message_separator
              ++ join message_separator (map saved_message (m' :: ms)))
      with (10 :: saved_message m
              ++ [10] ++ divider
              ++ 10 :: join message_separator (map saved_message (m' :: ms))).
    rewrite app_comm_cons, app_assoc.
    rewrite split_on_first;
      [|discriminate | apply no_rule_clear_before; exact L2].
    rewrite List.map_cons. cbn [List.concat]. rewrite IH.
    change ((10 :: saved_message m) ++ [10])
      with ([10] ++ saved_message m ++ [10]).
    now rewrite (parse_part_saved_message [10] [10] m eq_refl eq_refl Ht).
Qed.

(** A chat that is saved and loaded again gives its messages back, when
    the fields of the front matter hold no line feed, every content is
    trimmed and no content has a line of three dashes. *)
Theorem parseChatMarkdown_formatChatAsMarkdown :
  forall (data : ChatData) (timestamp : JSString),
    no_line_feed timestamp ->
    no_line_feed (cd_provider data) ->
    no_line_feed (cd_model data) ->
    Forall no_line_feed (cd_sources data) ->
    Forall (fun m => restorable (msg_content m)) (cd_messages data) ->
    parseChatMarkdown (formatChatAsMarkdown data timestamp)
    = cd_messages data.
Proof.
  intros data timestamp Ht Hp Hm Hs Hc.
  unfold parseChatMarkdown. rewrite formatChatAsMarkdown_eq, startsWith_app.
  change (skipn 4 ((str "---" ++ [10]) ++ ?x)) with x.
  rewrite after_first_app;
    [|discriminate
     |apply no_rule_clear_before, frontmatter_lines_no_rule; assumption].
  exact (parse_saved_messages _ Hc).
Qed.

(** The theorem at a chat of three messages, one of them of two lines. *)
Lemma parseChatMarkdown_formatChatAsMarkdown_witness :
  parseChatMarkdown
    (formatChatAsMarkdown
       (mkChatData
          [mkMessage system (str "Be brief.");
           mkMessage user (str "Why?" ++ [10] ++ str "--- and how?");
           mkMessage assistant []]
          [str "Notes/Sky.md"] (str "ollama") (str "llama3"))
       (str "2025-01-01_120000"))
  = [mkMessage system (str "Be brief.");
     mkMessage user (str "Why?" ++ [10] ++ str "--- and how?");
     mkMessage assistant []].
Proof.
  apply (parseChatMarkdown_formatChatAsMarkdown
           (mkChatData
              [mkMessage system (str "Be brief.");
               mkMessage user (str "Why?" ++ [10] ++ str "--- and how?");
               mkMessage assistant []]
              [str "Notes/Sky.md"] (str "ollama") (str "llama3"))
           (str "2025-01-01_120000")).
  - reflexivity.
  - reflexivity.
  - reflexivity.
  - repeat constructor.
  - repeat constructor; try reflexivity;
      cbn [msg_content]; vm_compute; intuition discriminate.
Defined.

(** A content with a rule of three dashes on a line of its own is cut at
    the rule when the chat is loaded, and a content is loaded trimmed. *)
Lemma saved_chat_examples :
  parseChatMarkdown
    (formatChatAsMarkdown
       (mkChatData
          [mkMessage user (str "Hi");
           mkMessage assistant (str "One" ++ [10] ++ str "---" ++ [10] ++ str "Two")]
          [] (str "ollama") (str "llama3"))
       (str "2025-01-01_120000"))
  = [mkMessage user (str "Hi"); mkMessage assistant (str "One")]
  /\ parseChatMarkdown
       (formatChatAsMarkdown
          (mkChatData [mkMessage user (str "  Hi ")] [] (str "ollama")
             (str "llama3"))
          (str "2025-01-01_120000"))
     = [mkMessage user (str "Hi")].
Proof. split; vm_compute; reflexivity. Qed.

Lemma join_snoc (sep : JSString) (parts : list JSString) (x : JSString) :
  parts <> [] -> join sep (parts ++ [x]) = join sep parts ++ sep ++ x.
Proof.
  induction parts as [|y parts IH]; [contradiction|]. intros _.
  destruct parts as [|z parts]; [reflexivity|].
  change (join sep ((y :: z :: parts) ++ [x]))
    with (y ++ sep ++ join sep ((z :: parts) ++ [x])).
  rewrite IH by discriminate.
  change (join sep (y :: z :: parts)) with (y ++ sep ++ join sep (z :: parts)).
  now rewrite <- !app_assoc.
Qed.

(** Appending a user or assistant message to the file of a chat that has
    a message gives the file that saving the longer chat gives. *)
Theorem appendToChat_formatChatAsMarkdown :
  forall (data : ChatData) (timestamp : JSString) (m : ChatMessage),
    cd_messages data <> [] ->
    role m <> system ->
    appendToChat (formatChatAsMarkdown data timestamp) (role m) (msg_content m)
    = formatChatAsMarkdown
        (mkChatData (cd_messages data ++ [m]) (cd_sources data)
           (cd_provider data) (cd_model data))
        timestamp.
Proof.
  intros data timestamp m Hne Hr.
  unfold appendToChat. rewrite !formatChatAsMarkdown_eq.
  unfold frontmatter_lines. cbn [cd_messages cd_sources cd_provider cd_model].
  rewrite map_app. cbn [map].
  rewrite join_snoc by (destruct (cd_messages data); [contradiction | discriminate]).
  unfold saved_message at 3.
  assert (E : match role m with
              | user => str "**You:**"
              | _ => str "**Assistant:**"
              end = roleLabel (role m))
    by (destruct (role m); [contradiction | reflexivity | reflexivity]).
  rewrite E. rewrite <- !app_assoc. reflexivity.
Qed.

(** The theorem at a chat of one message. *)
Lemma appendToChat_formatChatAsMarkdown_witness :
  appendToChat
    (formatChatAsMarkdown
       (mkChatData [mkMessage user (str "Hi")] [] (str "ollama") (str "llama3"))
       (str "2025-01-01_120000"))
    assistant (str "Hello")
  = formatChatAsMarkdown
      (mkChatData [mkMessage user (str "Hi"); mkMessage assistant (str "Hello")]
         [] (str "ollama") (str "llama3"))
      (str "2025-01-01_120000").
Proof.
  apply (appendToChat_formatChatAsMarkdown
           (mkChatData [mkMessage user (str "Hi")] [] (str "ollama")
              (str "llama3"))
           (str "2025-01-01_120000") (mkMessage assistant (str "Hello")));
    discriminate.
Defined.

(** ** Titles and file names *)

Lemma trimStart_idempotent (s : JSString) :
  trimStart (trimStart s) = trimStart s.
Proof.
  induction s as [|c s IH]; [reflexivity|]. cbn [trimStart].
  destruct (is_js_space c) eqn:E; [exact IH|]. cbn [trimStart]. now rewrite E.
Qed.

Lemma trimStart_fixed_prefix (a b : JSString) :
  a <> [] -> trimStart (a ++ b) = a ++ b -> trimStart a = a.
Proof.
  destruct a as [|c a]; [contradiction|]. intros _. cbn [app trimStart].
  destruct (is_js_space c); [|reflexivity]. intros H.
  pose proof (trimStart_length (a ++ b)) as L. rewrite H in L.
  cbn [List.length] in L. lia.
Qed.

(** A text is white space, its trimmed text, and white space. *)
Lemma trim_inside (s : JSString) :
  exists w1 w2 : JSString,
    blank w1 = true /\ blank w2 = true /\ s = w1 ++ trim s ++ w2.
Proof.
  destruct (trimStart_suffix s) as (w1 & H1 & E1).
  destruct (trimStart_suffix (rev (trimStart s))) as (w & Hw & E).
  exists w1, (rev w). split; [exact H1|]. split; [now apply blank_rev|].
  unfold trim. rewrite <- rev_app_distr, <- E, rev_involutive. exact E1.
Qed.

Lemma trim_idempotent (s : JSString) : trim (trim s) = trim s.
Proof.
  unfold trim at 2.
  set (t := trimStart s). set (u := trimStart (rev t)).
  destruct (trimStart_suffix (rev t)) as (w & _ & E). fold u in E.
  assert (Et : t = rev u ++ rev w).
  { rewrite <- rev_app_distr, <- E. now rewrite rev_involutive. }
  assert (Hu : trimStart (rev u) = rev u).
  { destruct (rev u) as [|c r] eqn:Er; [reflexivity|].
    rewrite <- Er in Et |- *.
    apply (trimStart_fixed_prefix (rev u) (rev w));
      [rewrite Er; discriminate|].
    rewrite <- Et. apply trimStart_idempotent. }
  unfold trim. rewrite Hu, rev_involutive. unfold u.
  now rewrite trimStart_idempotent.
Qed.

Lemma trim_length (s : JSString) :
  (List.length (trim s) <= List.length s)%nat.
Proof.
  destruct (trim_inside s) as (w1 & w2 & _ & _ & E). rewrite E at 2.
  rewrite !length_app. lia.
Qed.

Lemma trim_nil_iff (s : JSString) : trim s = [] <-> blank s = true.
Proof.
  split.
  - intros H. destruct (trim_inside s) as (w1 & w2 & H1 & H2 & E).
    rewrite H in E. rewrite E, !blank_app, H1, H2. reflexivity.
  - intros H. unfold trim. now rewrite (proj2 (trimStart_nil_iff s) H).
Qed.

(** The title of a chat is never empty, has at most 40 code units and no
    white space around it; it is [Chat] when there is no user message or
    the first 40 code units of the first one are white space, and these
    code units, trimmed, otherwise. *)
Theorem generateTitle_bounds :
  forall messages : list ChatMessage,
    generateTitle messages <> []
    /\ (List.length (generateTitle messages) <= 40)%nat
    /\ trim (generateTitle messages) = generateTitle messages
    /\ (match List.find (fun m => match role m with user => true | _ => false end)
                messages with
        | Some m =>
            generateTitle messages
            = if blank (firstn 40 (msg_content m)) then str "Chat"
              else trim (firstn 40 (msg_content m))
        | None => generateTitle messages = str "Chat"
        end).
Proof.
  intros messages. unfold generateTitle.
  destruct (List.find _ messages) as [m|];
    [|repeat split; [discriminate | vm_compute; lia]].
  set (c := firstn 40 (msg_content m)). rewrite truthy_text.
  destruct (trim c) as [|x t] eqn:E.
  - apply trim_nil_iff in E. rewrite E.
    repeat split; [discriminate | vm_compute; lia].
  - assert (Hb : blank c = false).
    { destruct (blank c) eqn:B; [|reflexivity].
      apply trim_nil_iff in B. rewrite B in E. discriminate E. }
    rewrite Hb, <- E. repeat split.
    + rewrite E. discriminate.
    + pose proof (trim_length c) as L. pose proof (length_firstn 40 (msg_content m)).
      fold c in H. lia.
    + apply trim_idempotent.
Qed.

Lemma filter_fixed {A : Type} (f : A -> bool) (l : list A) :
  Forall (fun x => f x = true) l -> List.filter f l = l.
Proof.
  induction 1 as [|x l Hx _ IH]; [reflexivity|].
  cbn [List.filter]. now rewrite Hx, IH.
Qed.

(** The sanitized name holds none of the forbidden characters and no white
    space around it; sanitizing it again changes nothing; and it is empty
    exactly when the name is made of forbidden characters and white
    space. *)
Theorem sanitizeFilename_clean :
  forall name : JSString,
    Forall (fun c => forbidden_in_filename c = false) (sanitizeFilename name)
    /\ sanitizeFilename (sanitizeFilename name) = sanitizeFilename name
    /\ (sanitizeFilename name = []
        <-> forallb (fun c => forbidden_in_filename c || is_js_space c) name
            = true).
Proof.
  intros name. unfold sanitizeFilename.
  set (y := List.filter (fun c => negb (forbidden_in_filename c)) name).
  assert (Hy : Forall (fun c => negb (forbidden_in_filename c) = true) (trim y)).
  { destruct (trim_inside y) as (w1 & w2 & _ & _ & E).
    apply List.Forall_forall. intros c Hc.
    assert (Hin : In c y)
      by (rewrite E; apply in_or_app; right; apply in_or_app; now left).
    unfold y in Hin. now apply filter_In in Hin as [_ Hin]. }
  split; [|split].
  - eapply List.Forall_impl; [|exact Hy].
    intros c Hc. now apply negb_true_iff in Hc.
  - rewrite (filter_fixed _ _ Hy). apply trim_idempotent.
  - rewrite trim_nil_iff. unfold y, blank. clear.
    induction name as [|c name IH]; [now split|].
    cbn [List.filter forallb].
    destruct (forbidden_in_filename c); cbn [negb orb andb]; [exact IH|].
    cbn [forallb]. destruct (is_js_space c); cbn [andb];
      [exact IH | split; discriminate].
Qed.
